(** * bot-keuangan-tele: a shallow embedding of [bot.py]

    The bot is a Telegram front end over two SQLite tables.  This file
    embeds, function by function, the parts of [bot.py] that the
    specification talks about:

    - Python strings ([str.strip], [str.replace], [str.isdigit], [int]),
      as lists of Unicode code points;
    - the currency formatter [rupiah];
    - the store ([find_user], [create_user], [verify_user], [add_tx],
      [sum_tx]) as explicit state passing over two lists of rows;
    - the report ranges ([today_range], [week_range_monday],
      [month_range]) over a model of [datetime] in the fixed +08:00 zone;
    - the handlers, as functions from the text of the message and the
      per-user dictionary [user_data] to a new dictionary, replies and a
      returned conversation state or a raised exception;
    - the dispatch of [python-telegram-bot]'s [Application] and
      [ConversationHandler], instantiated with the handler list that
      [main] registers;
    - the process as a whole ([init_db], [main], [run_polling]): one
      store shared by the sessions of its users.

    Two libraries the program calls into are kept abstract, each as a
    class with the facts the proofs need: the Unicode character database
    behind [str.isdigit] and [int], and [bcrypt].

    The properties come in two parts: those the specification states,
    and further properties of the code (the routing of updates, the
    dialogues from start to end, the reports, the errors a dialogue can
    end in, and what the store and the sessions keep). *)

From Stdlib Require Import ZArith NArith List Bool Ascii String Lia.
Import ListNotations.
Open Scope Z_scope.

(* ================================================================= *)
(** ** Results of calls that may raise *)

Inductive exn : Type :=
| KeyError (key : string)
| ValueError
| OverflowError
| TypeError
| IntegrityError
| OperationalError.

Inductive res (A : Type) : Type :=
| Ok (a : A)
| Raise (e : exn).
Arguments Ok {A} a.
Arguments Raise {A} e.

Definition bind {A B : Type} (r : res A) (k : A -> res B) : res B :=
  match r with
  | Ok a => k a
  | Raise e => Raise e
  end.

Notation "x <- r ;; k" := (bind r (fun x => k))
  (at level 61, r at next level, right associativity).

(* ================================================================= *)
(** ** Python strings *)

(** A [str] is a sequence of code points. *)
Definition char : Type := N.
Definition str : Type := list char.

(** A literal whose characters are all ASCII. *)
Definition lit (x : string) : str := map N_of_ascii (list_ascii_of_string x).

Fixpoint list_eqb {A : Type} (eqb : A -> A -> bool) (a b : list A) : bool :=
  match a, b with
  | [], [] => true
  | x :: a', y :: b' => eqb x y && list_eqb eqb a' b'
  | _, _ => false
  end.

Definition str_eqb (a b : str) : bool := list_eqb N.eqb a b.

(** [len(s) < n] *)
Definition len_lt (s : str) (n : nat) : bool := Nat.ltb (List.length s) n.

(** The characters [str.strip()] removes: CPython's [_PyUnicode_IsWhitespace]. *)
Definition isspace (c : char) : bool :=
  ((0x09 <=? c) && (c <=? 0x0D) || (0x1C <=? c) && (c <=? 0x20)
   || (c =? 0x85) || (c =? 0xA0) || (c =? 0x1680)
   || (0x2000 <=? c) && (c <=? 0x200A)
   || (c =? 0x2028) || (c =? 0x2029) || (c =? 0x202F) || (c =? 0x205F)
   || (c =? 0x3000))%N.

Fixpoint lstrip (s : str) : str :=
  match s with
  | c :: s' => if isspace c then lstrip s' else s
  | [] => []
  end.

Definition rstrip (s : str) : str := rev (lstrip (rev s)).

(** [s.strip()] *)
Definition strip (s : str) : str := rstrip (lstrip s).

(** [s.replace(c, "")] for a one-character [c]. *)
Definition remove_char (c : char) (s : str) : str :=
  filter (fun x => negb (N.eqb x c)) s.

(** [s.replace(a, b)] for one-character [a] and [b]. *)
Definition replace_char (a b : char) (s : str) : str :=
  map (fun x => if N.eqb x a then b else x) s.

(** Comparison of two strings code point by code point, the order of
    Python's [<] on [str] and of SQLite's BINARY collation on TEXT. *)
Fixpoint str_compare (a b : str) : comparison :=
  match a, b with
  | [], [] => Eq
  | [], _ :: _ => Lt
  | _ :: _, [] => Gt
  | x :: a', y :: b' =>
      match N.compare x y with
      | Eq => str_compare a' b'
      | c => c
      end
  end.

Definition str_ltb (a b : str) : bool :=
  match str_compare a b with Lt => true | _ => false end.
Definition str_leb (a b : str) : bool :=
  match str_compare a b with Gt => false | _ => true end.

(** The two tables of the Unicode character database that [str.isdigit]
    and [int] consult.  Their content depends on the Unicode version of
    the interpreter; the facts below hold in every version. *)
Class UnicodeData : Type := {
  (** Numeric_Type is Digit or Decimal *)
  Py_UNICODE_ISDIGIT : char -> bool;
  (** the value of a character whose Numeric_Type is Decimal *)
  Py_UNICODE_TODECIMAL : char -> option Z;
  ascii_isdigit : forall c : char,
    (c < 128)%N -> Py_UNICODE_ISDIGIT c = ((48 <=? c) && (c <=? 57))%N;
  ascii_todecimal : forall c : char,
    (48 <= c <= 57)%N -> Py_UNICODE_TODECIMAL c = Some (Z.of_N c - 48);
  todecimal_range : forall (c : char) (v : Z),
    Py_UNICODE_TODECIMAL c = Some v -> 0 <= v <= 9;
  todecimal_isdigit : forall (c : char) (v : Z),
    Py_UNICODE_TODECIMAL c = Some v -> Py_UNICODE_ISDIGIT c = true
}.

Section Digits.
Context {U : UnicodeData}.

(** [s.isdigit()]: non-empty and every character is a digit. *)
Definition isdigit (s : str) : bool :=
  match s with
  | [] => false
  | _ => forallb Py_UNICODE_ISDIGIT s
  end.

Fixpoint int_digits (acc : Z) (s : str) : res Z :=
  match s with
  | [] => Ok acc
  | c :: s' =>
      match Py_UNICODE_TODECIMAL c with
      | Some v => int_digits (acc * 10 + v) s'
      | None => Raise ValueError
      end
  end.

(** [int(s)] on a string of digits, the only strings the handlers pass
    to it: every character must have a decimal value.  (Signs, blanks
    and underscores, which [int] also reads, never pass [isdigit]; a
    Telegram message holds at most 4096 characters, below the
    interpreter's limit on the number of digits.) *)
Definition int_of_str (s : str) : res Z :=
  match s with
  | [] => Raise ValueError
  | _ => int_digits 0 s
  end.

End Digits.

(* ================================================================= *)
(** ** [rupiah] *)

(** Decimal digits of a non-negative integer, least significant first. *)
Fixpoint digits_le (fuel : nat) (n : Z) : list Z :=
  match fuel with
  | O => []
  | S fuel' =>
      if n <? 10 then [n] else (n mod 10) :: digits_le fuel' (n / 10)
  end.

Definition digit_char (d : Z) : char := (48 + Z.to_N d)%N.

(** More fuel than [n] has decimal digits. *)
Definition digit_fuel (n : Z) : nat := S (Z.to_nat (Z.log2 n)).

(** Groups of three, separated by [sep], on a least-significant-first list. *)
Fixpoint group3_le (sep : char) (l : list char) : list char :=
  match l with
  | a :: b :: c :: ((_ :: _) as rest) => a :: b :: c :: sep :: group3_le sep rest
  | _ => l
  end.

(** [f"{n:,}"] *)
Definition format_comma (n : Z) : str :=
  let ds := map digit_char (digits_le (digit_fuel (Z.abs n)) (Z.abs n)) in
  (if n <? 0 then lit "-" else []) ++ rev (group3_le 44%N ds).

(** [def rupiah(n): return "Rp." + f"{int(n):,}".replace(",", ".")] *)
Definition rupiah (n : Z) : str :=
  lit "Rp." ++ replace_char 44%N 46%N (format_comma n).

(* ================================================================= *)
(** ** [datetime] in the fixed zone [WITA = timezone(timedelta(hours=8))] *)

(** Every [datetime] the program builds carries [tzinfo = WITA], so the
    zone is not a field.  Python orders two such values by their fields,
    most significant first. *)
Record datetime : Type := mkdt {
  year : Z; month : Z; day : Z;
  hour : Z; minute : Z; second : Z; microsecond : Z
}.

Definition MINYEAR : Z := 1.
Definition MAXYEAR : Z := 9999.

Definition is_leap (y : Z) : bool :=
  (y mod 4 =? 0) && (negb (y mod 100 =? 0) || (y mod 400 =? 0)).

Definition days_in_month (y m : Z) : Z :=
  if (m =? 2) && is_leap y then 29
  else if (m =? 2) then 28
  else if (m =? 4) || (m =? 6) || (m =? 9) || (m =? 11) then 30
  else 31.

(** Days before January 1st of year [y]. *)
Definition days_before_year (y : Z) : Z :=
  let p := y - 1 in p * 365 + p / 4 - p / 100 + p / 400.

(** Days in year [y] before the first day of month [m]. *)
Definition days_before_month (y m : Z) : Z :=
  (if m =? 1 then 0 else if m =? 2 then 31 else if m =? 3 then 59
   else if m =? 4 then 90 else if m =? 5 then 120 else if m =? 6 then 151
   else if m =? 7 then 181 else if m =? 8 then 212 else if m =? 9 then 243
   else if m =? 10 then 273 else if m =? 11 then 304 else 334)
  + (if (2 <? m) && is_leap y then 1 else 0).

(** [date.toordinal()]: day 1 is 0001-01-01. *)
Definition toordinal (d : datetime) : Z :=
  days_before_year (year d) + days_before_month (year d) (month d) + day d.

(** [date.weekday()]: Monday is 0. *)
Definition weekday (d : datetime) : Z := (toordinal d + 6) mod 7.

Definition valid_date (y m d : Z) : bool :=
  (MINYEAR <=? y) && (y <=? MAXYEAR) && (1 <=? m) && (m <=? 12)
  && (1 <=? d) && (d <=? days_in_month y m).

Definition valid_time (h mi s us : Z) : bool :=
  (0 <=? h) && (h <? 24) && (0 <=? mi) && (mi <? 60)
  && (0 <=? s) && (s <? 60) && (0 <=? us) && (us <? 1000000).

Definition valid_datetime (d : datetime) : bool :=
  valid_date (year d) (month d) (day d)
  && valid_time (hour d) (minute d) (second d) (microsecond d).

(** [d.replace(hour=0, minute=0, second=0, microsecond=0)] *)
Definition replace_midnight (d : datetime) : datetime :=
  mkdt (year d) (month d) (day d) 0 0 0 0.

(** [d.replace(day=1, hour=0, minute=0, second=0, microsecond=0)] *)
Definition replace_first_midnight (d : datetime) : datetime :=
  mkdt (year d) (month d) 1 0 0 0 0.

(** [d.replace(year=y, month=m)]: the new date must exist. *)
Definition replace_year_month (d : datetime) (y m : Z) : res datetime :=
  if valid_date y m (day d)
  then Ok (mkdt y m (day d) (hour d) (minute d) (second d) (microsecond d))
  else Raise ValueError.

(** [d.replace(month=m)] *)
Definition replace_month (d : datetime) (m : Z) : res datetime :=
  replace_year_month d (year d) m.

(** The day after and the day before, on the proleptic Gregorian
    calendar; outside [MINYEAR..MAXYEAR] Python raises [OverflowError]. *)
Definition next_day (d : datetime) : res datetime :=
  let set y m dd := mkdt y m dd (hour d) (minute d) (second d) (microsecond d) in
  if day d <? days_in_month (year d) (month d)
  then Ok (set (year d) (month d) (day d + 1))
  else if month d <? 12 then Ok (set (year d) (month d + 1) 1)
  else if year d <? MAXYEAR then Ok (set (year d + 1) 1 1)
  else Raise OverflowError.

Definition prev_day (d : datetime) : res datetime :=
  let set y m dd := mkdt y m dd (hour d) (minute d) (second d) (microsecond d) in
  if 1 <? day d then Ok (set (year d) (month d) (day d - 1))
  else if 1 <? month d
  then Ok (set (year d) (month d - 1) (days_in_month (year d) (month d - 1)))
  else if MINYEAR <? year d then Ok (set (year d - 1) 12 31)
  else Raise OverflowError.

Fixpoint iter_res {A : Type} (n : nat) (f : A -> res A) (x : A) : res A :=
  match n with
  | O => Ok x
  | S n' => y <- f x ;; iter_res n' f y
  end.

(** [d + timedelta(days=n)] ([d - timedelta(days=k)] is [add_days d (- k)]):
    the date [n] days later.  [toordinal_add_days] below shows that this
    is addition on ordinals, which is how CPython computes it. *)
Definition add_days (d : datetime) (n : Z) : res datetime :=
  if 0 <=? n then iter_res (Z.to_nat n) next_day d
  else iter_res (Z.to_nat (- n)) prev_day d.

(** [n] written with exactly [w] decimal digits ([%0wd] for [n < 10^w]). *)
Fixpoint zpad (w : nat) (n : Z) : str :=
  match w with
  | O => []
  | S w' => digit_char (n / 10 ^ Z.of_nat w') :: zpad w' (n mod 10 ^ Z.of_nat w')
  end.

(** [d.isoformat()] for [tzinfo = WITA]. *)
Definition isoformat (d : datetime) : str :=
  zpad 4 (year d) ++ lit "-" ++ zpad 2 (month d) ++ lit "-" ++ zpad 2 (day d)
  ++ lit "T" ++ zpad 2 (hour d) ++ lit ":" ++ zpad 2 (minute d)
  ++ lit ":" ++ zpad 2 (second d)
  ++ (if microsecond d =? 0 then [] else lit "." ++ zpad 6 (microsecond d))
  ++ lit "+08:00".

(** *** The report ranges

    Each function reads the clock once; [now] is that reading.  The
    [_bounds] functions are the bodies up to the [return], which applies
    [isoformat] to both ends. *)

Definition iso_pair (b : datetime * datetime) : str * str :=
  (isoformat (fst b), isoformat (snd b)).

Definition today_bounds (now : datetime) : res (datetime * datetime) :=
  let start := replace_midnight now in
  end_ <- add_days start 1 ;;
  Ok (start, end_).

Definition today_range (now : datetime) : res (str * str) :=
  b <- today_bounds now ;; Ok (iso_pair b).

Definition week_bounds_monday (now : datetime) : res (datetime * datetime) :=
  let start := replace_midnight now in
  start <- add_days start (- weekday start) ;;
  end_ <- add_days start 7 ;;
  Ok (start, end_).

Definition week_range_monday (now : datetime) : res (str * str) :=
  b <- week_bounds_monday now ;; Ok (iso_pair b).

Definition month_bounds (now : datetime) : res (datetime * datetime) :=
  let start := replace_first_midnight now in
  end_ <- (if month start =? 12
           then replace_year_month start (year start + 1) 1
           else replace_month start (month start + 1)) ;;
  Ok (start, end_).

Definition month_range (now : datetime) : res (str * str) :=
  b <- month_bounds now ;; Ok (iso_pair b).

(* ================================================================= *)
(** ** The store *)

Definition bytes : Type := list Byte.byte.

Definition byte_of_N (n : N) : Byte.byte :=
  match Byte.of_N (n mod 256) with
  | Some b => b
  | None => Byte.x00
  end.

(** UTF-8 of one code point. *)
Definition utf8_char (c : char) : bytes :=
  (if c <? 0x80 then [byte_of_N c]
   else if c <? 0x800 then
     [byte_of_N (0xC0 + c / 64); byte_of_N (0x80 + c mod 64)]
   else if c <? 0x10000 then
     [byte_of_N (0xE0 + c / 4096); byte_of_N (0x80 + (c / 64) mod 64);
      byte_of_N (0x80 + c mod 64)]
   else
     [byte_of_N (0xF0 + c / 262144); byte_of_N (0x80 + (c / 4096) mod 64);
      byte_of_N (0x80 + (c / 64) mod 64); byte_of_N (0x80 + c mod 64)])%N.

(** [s.encode()] *)
Definition encode (s : str) : bytes := flat_map utf8_char s.

(** The [bcrypt] package.  [bcrypt_hash password salt] is the hash
    function itself, on a password it takes: it reads the salt from the
    front of its second argument, so hashing with a finished hash in the
    place of the salt reproduces that hash when the password is the
    same.  The salts are those of [bcrypt.gensalt()] and the hashes the
    store holds. *)
Class Bcrypt : Type := {
  bcrypt_hash : bytes -> bytes -> bytes;
  bcrypt_rehash : forall password salt : bytes,
    bcrypt_hash password (bcrypt_hash password salt) = bcrypt_hash password salt
}.

(** The longest password [bcrypt] takes, in bytes. *)
Definition BCRYPT_MAX_BYTES : nat := 72.

Section BcryptCalls.
Context {B : Bcrypt}.

(** [bcrypt.hashpw(password, salt)]: a password of more than 72 bytes
    is refused with [ValueError] (by the package from its release 5.0
    on; earlier releases hashed the first 72 bytes). *)
Definition hashpw (password salt : bytes) : res bytes :=
  if (BCRYPT_MAX_BYTES <? List.length password)%nat then Raise ValueError
  else Ok (bcrypt_hash password salt).

(** [bcrypt.checkpw(password, hashed_password)]: the password is hashed
    with the stored hash in the place of the salt and the two hashes
    are compared; what [hashpw] raises, [checkpw] raises. *)
Definition checkpw (password hashed_password : bytes) : res bool :=
  h <- hashpw password hashed_password ;;
  Ok (list_eqb Byte.eqb h hashed_password).

End BcryptCalls.

(** The column [type TEXT CHECK(type IN ('IN','OUT'))]. *)
Inductive tx_type : Type := IN | OUT.

Definition tx_type_eqb (a b : tx_type) : bool :=
  match a, b with
  | IN, IN | OUT, OUT => true
  | _, _ => false
  end.

Record user_row : Type := mkuser {
  u_id : Z;
  u_username : str;
  u_password_hash : bytes;
  u_created_at : str
}.

Record tx_row : Type := mktx {
  t_id : Z;
  t_user_id : Z;
  t_type : tx_type;
  t_amount : Z;
  t_note : option str;
  t_ts : str
}.

(** The two tables, rows in insertion order, each with the largest
    [AUTOINCREMENT] key handed out so far. *)
Record database : Type := mkdb {
  users : list user_row;
  users_seq : Z;
  transactions : list tx_row;
  transactions_seq : Z
}.

Definition empty_db : database := mkdb [] 0 [] 0.

(** SQLite's [INTEGER] is a signed integer of 64 bits. *)
Definition SQLITE_MAX_INTEGER : Z := 9223372036854775807.
Definition SQLITE_MIN_INTEGER : Z := -9223372036854775808.

(** Whether a Python [int] can be bound to a parameter of a statement;
    [sqlite3] raises [OverflowError] for one that cannot. *)
Definition sqlite_integer (n : Z) : bool :=
  (SQLITE_MIN_INTEGER <=? n) && (n <=? SQLITE_MAX_INTEGER).

(** [init_db]: both tables are created when they do not exist, and a
    file that has them keeps its rows.  [None] is no file. *)
Definition init_db (file : option database) : database :=
  match file with
  | Some db => db
  | None => empty_db
  end.

(** [SELECT * FROM users WHERE username = ?] and [fetchone()] *)
Definition find_user (db : database) (username : str) : option user_row :=
  find (fun r => str_eqb (u_username r) username) (users db).

Section Store.
Context {B : Bcrypt}.

(** [create_user]; [salt] is what [bcrypt.gensalt()] returned and [now]
    the clock.  The password is hashed first.  The column [username] is
    [UNIQUE]: the [INSERT] of a name that is present raises
    [sqlite3.IntegrityError]. *)
Definition create_user (salt : bytes) (now : datetime)
    (db : database) (username password : str) : res database :=
  pw_hash <- hashpw (encode password) salt ;;
  match find_user db username with
  | Some _ => Raise IntegrityError
  | None =>
      let id := users_seq db + 1 in
      Ok (mkdb (users db ++ [mkuser id username pw_hash (isoformat now)]) id
               (transactions db) (transactions_seq db))
  end.

Definition verify_user (db : database) (username password : str) : res bool :=
  match find_user db username with
  | None => Ok false
  | Some u => checkpw (encode password) (u_password_hash u)
  end.

End Store.

(** [add_tx].  The amount is bound to the statement as an [INTEGER],
    and the column [amount] carries [CHECK(amount >= 0)].  ([user_id] is
    a key that [login_password] read from the table.) *)
Definition add_tx (now : datetime) (db : database)
    (user_id : Z) (ty : tx_type) (amount : Z) (note : option str)
  : res database :=
  if negb (sqlite_integer amount) then Raise OverflowError
  else if amount <? 0 then Raise IntegrityError
  else
    let id := transactions_seq db + 1 in
    Ok (mkdb (users db) (users_seq db)
             (transactions db ++ [mktx id user_id ty amount note (isoformat now)])
             id).

(** The [WHERE] clause of [sum_tx]. *)
Definition tx_selected (user_id : Z) (ty : tx_type) (start_iso end_iso : str)
    (t : tx_row) : bool :=
  (t_user_id t =? user_id) && tx_type_eqb (t_type t) ty
  && str_leb start_iso (t_ts t) && str_ltb (t_ts t) end_iso.

Definition coalesce (v : option Z) (dflt : Z) : Z :=
  match v with
  | Some x => x
  | None => dflt
  end.

(** One step of SQL's [SUM] over a column of integers: the aggregate is
    NULL until a row arrives, and the query fails with
    [sqlite3.OperationalError] (integer overflow) once the sum of the
    rows seen is not an [INTEGER]. *)
Definition sql_sum_step (acc : res (option Z)) (t : tx_row) : res (option Z) :=
  a <- acc ;;
  let s := coalesce a 0 + t_amount t in
  if sqlite_integer s then Ok (Some s) else Raise OperationalError.

(** [SELECT COALESCE(SUM(amount), 0) FROM transactions WHERE ...] and
    [int(total)] *)
Definition sum_tx (db : database) (user_id : Z) (ty : tx_type)
    (start_iso end_iso : str) : res Z :=
  let rows := filter (tx_selected user_id ty start_iso end_iso) (transactions db) in
  v <- fold_left sql_sum_step rows (Ok None) ;;
  Ok (coalesce v 0).

(* ================================================================= *)
(** ** Session: [context.user_data] *)

(** The dictionary [context.user_data] of one user.  The program reads
    and writes five keys, each with values of one type; a key that is
    absent is [None]. *)
Record user_data : Type := mkud {
  ud_user_id : option Z;
  ud_username : option str;
  ud_reg_username : option str;
  ud_login_username : option str;
  ud_tmp_amount : option Z
}.

Definition empty_user_data : user_data := mkud None None None None None.

Definition set_user_id (v : option Z) (ud : user_data) : user_data :=
  mkud v (ud_username ud) (ud_reg_username ud) (ud_login_username ud) (ud_tmp_amount ud).
Definition set_username (v : option str) (ud : user_data) : user_data :=
  mkud (ud_user_id ud) v (ud_reg_username ud) (ud_login_username ud) (ud_tmp_amount ud).
Definition set_reg_username (v : option str) (ud : user_data) : user_data :=
  mkud (ud_user_id ud) (ud_username ud) v (ud_login_username ud) (ud_tmp_amount ud).
Definition set_login_username (v : option str) (ud : user_data) : user_data :=
  mkud (ud_user_id ud) (ud_username ud) (ud_reg_username ud) v (ud_tmp_amount ud).
Definition set_tmp_amount (v : option Z) (ud : user_data) : user_data :=
  mkud (ud_user_id ud) (ud_username ud) (ud_reg_username ud) (ud_login_username ud) v.

(** [def is_logged_in(context): return "user_id" in context.user_data] *)
Definition is_logged_in (ud : user_data) : bool :=
  match ud_user_id ud with
  | Some _ => true
  | None => false
  end.

(* ================================================================= *)
(** ** Handlers *)

(** What a handler reads besides the message: the clock and, for
    [create_user], the salt [bcrypt.gensalt()] draws. *)
Record env : Type := mkenv {
  env_now : datetime;
  env_salt : bytes
}.

(** The effect of one callback: the store and the dictionary as it
    leaves them, the texts it sent with [reply_text], and the value it
    returned ([None] for a plain [return]) or the exception it raised.
    A callback that raises keeps the writes it made before. *)
Record outcome : Type := mkout {
  o_db : database;
  o_ud : user_data;
  o_replies : list str;
  o_ret : res (option Z)
}.

Definition callback : Type := env -> str -> database -> user_data -> outcome.

(** [REG_USERNAME, REG_PASSWORD = range(2)] and so on;
    [ConversationHandler.END] is [-1]. *)
Definition REG_USERNAME : Z := 0.
Definition REG_PASSWORD : Z := 1.
Definition LOGIN_USERNAME : Z := 2.
Definition LOGIN_PASSWORD : Z := 3.
Definition IN_AMOUNT : Z := 4.
Definition IN_NOTE : Z := 5.
Definition OUT_AMOUNT : Z := 6.
Definition OUT_NOTE : Z := 7.
Definition END : Z := -1.

Definition nl : str := [10%N].
Definition check_mark : str := [0x2705%N].
Definition cross_mark : str := [0x274C%N].

Definition msg_start : str :=
  lit "Halo! Ini bot pencatatan keuangan." ++ nl
  ++ lit "Ketik /register untuk daftar atau /login untuk masuk.".
Definition msg_reg_ask_username : str := lit "Buat username:".
Definition msg_reg_short_username : str := lit "Username minimal 3 karakter. Coba lagi:".
Definition msg_reg_taken : str := lit "Username sudah dipakai. Coba username lain:".
Definition msg_reg_ask_password : str := lit "Buat password (minimal 6 karakter):".
Definition msg_reg_short_password : str := lit "Password minimal 6 karakter. Coba lagi:".
Definition msg_reg_done : str :=
  lit "Registrasi berhasil " ++ check_mark ++ nl
  ++ lit "Sekarang ketik /login untuk masuk.".
Definition msg_login_ask_username : str := lit "Username:".
Definition msg_login_ask_password : str := lit "Password:".
Definition msg_login_failed : str :=
  lit "Login gagal " ++ cross_mark ++ lit " Username/password salah." ++ nl
  ++ lit "Ketik /login untuk coba lagi.".
Definition msg_login_done (username : str) : str :=
  lit "Login berhasil " ++ check_mark ++ lit " Selamat datang, " ++ username ++ lit "!".
Definition msg_logout : str := lit "Kamu sudah logout. Ketik /login untuk masuk lagi.".
Definition msg_not_logged_in : str := lit "Kamu belum login. Ketik /login dulu.".
Definition msg_in_ask_amount : str :=
  lit "Masukkan nominal UANG MASUK (angka saja). Contoh: 50000".
Definition msg_out_ask_amount : str :=
  lit "Masukkan nominal UANG KELUAR (angka saja). Contoh: 25000".
Definition msg_amount_not_digits : str := lit "Nominal harus angka. Coba lagi:".
Definition msg_ask_note : str := lit "Catatan (boleh kosong, ketik '-' untuk skip):".
Definition msg_in_recorded (amount : Z) : str :=
  check_mark ++ lit " Uang masuk tercatat: " ++ rupiah amount.
Definition msg_out_recorded (amount : Z) : str :=
  check_mark ++ lit " Uang keluar tercatat: " ++ rupiah amount.
Definition msg_report_in_today (total : Z) : str :=
  [0x1F4C5%N] ++ lit " Uang MASUK hari ini: " ++ rupiah total.
Definition msg_report_out_week (total : Z) : str :=
  [0x1F5D3%N; 0xFE0F%N] ++ lit " Uang KELUAR minggu ini (Senin" ++ [0x2013%N]
  ++ lit "Minggu): " ++ rupiah total.
Definition msg_report_month (masuk keluar saldo : Z) : str :=
  [0x1F4C6%N] ++ lit " Rekap BULAN ini:" ++ nl
  ++ lit "- Masuk : " ++ rupiah masuk ++ nl
  ++ lit "- Keluar: " ++ rupiah keluar ++ nl
  ++ lit "- Saldo : " ++ rupiah saldo.
Definition msg_cancelled : str := lit "Dibatalkan.".

(** The texts of the menu buttons. *)
Definition btn_in : str := [0x2795%N] ++ lit " Uang Masuk".
Definition btn_out : str := [0x2796%N] ++ lit " Uang Keluar".
Definition btn_in_today : str := [0x1F4C5%N] ++ lit " Masuk Hari Ini".
Definition btn_out_week : str := [0x1F5D3%N; 0xFE0F%N] ++ lit " Keluar Minggu Ini".
Definition btn_month : str := [0x1F4C6%N] ++ lit " Rekap Bulan Ini".
Definition btn_logout : str := [0x1F6AA%N] ++ lit " Logout".

(** [ReplyKeyboardMarkup(rows, resize_keyboard=True)]: the keyboard that
    goes with the confirmations and the reports.  An [outcome] below
    keeps the texts of the replies only. *)
Record reply_keyboard_markup : Type := mkkeyboard {
  keyboard : list (list str);
  resize_keyboard : bool
}.

Definition menu_keyboard : reply_keyboard_markup :=
  mkkeyboard [ [btn_in; btn_out];
               [btn_in_today; btn_out_week];
               [btn_month; btn_logout] ]
             true.

Section Handlers.
Context {U : UnicodeData} {B : Bcrypt}.

Definition start : callback := fun _ _ db ud =>
  mkout db ud [msg_start] (Ok None).

(** *** Register *)

Definition register_cmd : callback := fun _ _ db ud =>
  mkout db ud [msg_reg_ask_username] (Ok (Some REG_USERNAME)).

Definition reg_username : callback := fun _ text db ud =>
  let username := strip text in
  if len_lt username 3 then
    mkout db ud [msg_reg_short_username] (Ok (Some REG_USERNAME))
  else
    match find_user db username with
    | Some _ => mkout db ud [msg_reg_taken] (Ok (Some REG_USERNAME))
    | None =>
        mkout db (set_reg_username (Some username) ud)
              [msg_reg_ask_password] (Ok (Some REG_PASSWORD))
    end.

Definition reg_password : callback := fun e text db ud =>
  let password := strip text in
  if len_lt password 6 then
    mkout db ud [msg_reg_short_password] (Ok (Some REG_PASSWORD))
  else
    match ud_reg_username ud with
    | None => mkout db ud [] (Raise (KeyError "reg_username"))
    | Some username =>
        match create_user (env_salt e) (env_now e) db username password with
        | Raise ex => mkout db ud [] (Raise ex)
        | Ok db' =>
            mkout db' (set_reg_username None ud) [msg_reg_done] (Ok (Some END))
        end
    end.

(** *** Login *)

Definition login_cmd : callback := fun _ _ db ud =>
  mkout db ud [msg_login_ask_username] (Ok (Some LOGIN_USERNAME)).

Definition login_username : callback := fun _ text db ud =>
  mkout db (set_login_username (Some (strip text)) ud)
        [msg_login_ask_password] (Ok (Some LOGIN_PASSWORD)).

Definition login_password : callback := fun _ text db ud =>
  let username := match ud_login_username ud with Some u => u | None => [] end in
  let password := strip text in
  let ud := set_login_username None ud in
  match verify_user db username password with
  | Raise ex => mkout db ud [] (Raise ex)
  | Ok false => mkout db ud [msg_login_failed] (Ok (Some END))
  | Ok true =>
      match find_user db username with
      | None => mkout db ud [] (Raise TypeError)
      | Some u =>
          mkout db (set_username (Some username) (set_user_id (Some (u_id u)) ud))
                [msg_login_done username] (Ok (Some END))
      end
  end.

Definition logout_cmd : callback := fun _ _ db ud =>
  mkout db (set_username None (set_user_id None ud)) [msg_logout] (Ok None).

(** *** Money in *)

Definition in_start : callback := fun _ _ db ud =>
  if negb (is_logged_in ud) then
    mkout db ud [msg_not_logged_in] (Ok (Some END))
  else
    mkout db ud [msg_in_ask_amount] (Ok (Some IN_AMOUNT)).

(** [update.message.text.strip().replace(".", "").replace(",", "")] *)
Definition amount_text (text : str) : str :=
  remove_char 44%N (remove_char 46%N (strip text)).

Definition in_amount : callback := fun _ text db ud =>
  let text := amount_text text in
  if negb (isdigit text) then
    mkout db ud [msg_amount_not_digits] (Ok (Some IN_AMOUNT))
  else
    match int_of_str text with
    | Raise ex => mkout db ud [] (Raise ex)
    | Ok n =>
        mkout db (set_tmp_amount (Some n) ud) [msg_ask_note] (Ok (Some IN_NOTE))
    end.

(** [note = text.strip(); if note == "-": note = None] *)
Definition note_of (text : str) : option str :=
  let note := strip text in
  if str_eqb note (lit "-") then None else Some note.

Definition in_note : callback := fun e text db ud =>
  let note := note_of text in
  let amount := match ud_tmp_amount ud with Some a => a | None => 0 end in
  let ud := set_tmp_amount None ud in
  match ud_user_id ud with
  | None => mkout db ud [] (Raise (KeyError "user_id"))
  | Some uid =>
      match add_tx (env_now e) db uid IN amount note with
      | Raise ex => mkout db ud [] (Raise ex)
      | Ok db' => mkout db' ud [msg_in_recorded amount] (Ok (Some END))
      end
  end.

(** *** Money out *)

Definition out_start : callback := fun _ _ db ud =>
  if negb (is_logged_in ud) then
    mkout db ud [msg_not_logged_in] (Ok (Some END))
  else
    mkout db ud [msg_out_ask_amount] (Ok (Some OUT_AMOUNT)).

Definition out_amount : callback := fun _ text db ud =>
  let text := amount_text text in
  if negb (isdigit text) then
    mkout db ud [msg_amount_not_digits] (Ok (Some OUT_AMOUNT))
  else
    match int_of_str text with
    | Raise ex => mkout db ud [] (Raise ex)
    | Ok n =>
        mkout db (set_tmp_amount (Some n) ud) [msg_ask_note] (Ok (Some OUT_NOTE))
    end.

Definition out_note : callback := fun e text db ud =>
  let note := note_of text in
  let amount := match ud_tmp_amount ud with Some a => a | None => 0 end in
  let ud := set_tmp_amount None ud in
  match ud_user_id ud with
  | None => mkout db ud [] (Raise (KeyError "user_id"))
  | Some uid =>
      match add_tx (env_now e) db uid OUT amount note with
      | Raise ex => mkout db ud [] (Raise ex)
      | Ok db' => mkout db' ud [msg_out_recorded amount] (Ok (Some END))
      end
  end.

(** *** Reports *)

Definition report_in_today : callback := fun e _ db ud =>
  match ud_user_id ud with
  | None => mkout db ud [msg_not_logged_in] (Ok None)
  | Some uid =>
      match today_range (env_now e) with
      | Raise ex => mkout db ud [] (Raise ex)
      | Ok (s, e') =>
          match sum_tx db uid IN s e' with
          | Raise ex => mkout db ud [] (Raise ex)
          | Ok total => mkout db ud [msg_report_in_today total] (Ok None)
          end
      end
  end.

Definition report_out_week : callback := fun e _ db ud =>
  match ud_user_id ud with
  | None => mkout db ud [msg_not_logged_in] (Ok None)
  | Some uid =>
      match week_range_monday (env_now e) with
      | Raise ex => mkout db ud [] (Raise ex)
      | Ok (s, e') =>
          match sum_tx db uid OUT s e' with
          | Raise ex => mkout db ud [] (Raise ex)
          | Ok total => mkout db ud [msg_report_out_week total] (Ok None)
          end
      end
  end.

Definition report_month : callback := fun e _ db ud =>
  match ud_user_id ud with
  | None => mkout db ud [msg_not_logged_in] (Ok None)
  | Some uid =>
      match month_range (env_now e) with
      | Raise ex => mkout db ud [] (Raise ex)
      | Ok (s, e') =>
          match sum_tx db uid IN s e' with
          | Raise ex => mkout db ud [] (Raise ex)
          | Ok masuk =>
              match sum_tx db uid OUT s e' with
              | Raise ex => mkout db ud [] (Raise ex)
              | Ok keluar =>
                  let saldo := masuk - keluar in
                  mkout db ud [msg_report_month masuk keluar saldo] (Ok None)
              end
          end
      end
  end.

Definition menu_router : callback := fun e text db ud =>
  let text' := strip text in
  if str_eqb text' btn_in_today then report_in_today e text db ud
  else if str_eqb text' btn_out_week then report_out_week e text db ud
  else if str_eqb text' btn_month then report_month e text db ud
  else if str_eqb text' btn_logout then logout_cmd e text db ud
  else mkout db ud [] (Ok None).

Definition cancel : callback := fun _ _ db ud =>
  mkout db
        (set_login_username None (set_reg_username None (set_tmp_amount None ud)))
        [msg_cancelled] (Ok (Some END)).

End Handlers.

(* ================================================================= *)
(** ** Dispatch: [Application] and [ConversationHandler] *)

(** An update, as far as the registered filters tell updates apart: a
    message that starts with a bot command (the command's name, in the
    lower case [CommandHandler] compares it in), or a text message that
    does not ([filters.TEXT & ~filters.COMMAND]).  An update is a new
    message, which the callbacks read as [update.message]; updates of
    other kinds (an edited message, a channel post) are not part of
    the model. *)
Inductive update : Type :=
| Command (name : str)
| Text (text : str).

(** [update.message.text] *)
Definition message_text (u : update) : str :=
  match u with
  | Command name => lit "/" ++ name
  | Text text => text
  end.

Inductive trigger : Type :=
| OnCommand (name : str)        (* CommandHandler(name, ...) *)
| OnText                        (* MessageHandler(filters.TEXT & ~filters.COMMAND, ...) *)
| OnRegexLine (pattern : str).  (* MessageHandler(filters.Regex("^pattern$"), ...) *)

(** [re.search("^p$", text)]: [$] also matches before a final newline. *)
Definition regex_line (pattern text : str) : bool :=
  str_eqb text pattern || str_eqb text (pattern ++ nl).

Definition matches (t : trigger) (u : update) : bool :=
  match t, u with
  | OnCommand name, Command name' => str_eqb name' name
  | OnText, Text _ => true
  | OnRegexLine pattern, Text text => regex_line pattern text
  | _, _ => false
  end.

Record handler : Type := mkhandler {
  h_trigger : trigger;
  h_callback : callback
}.

Definition first_match (hs : list handler) (u : update) : option handler :=
  find (fun h => matches (h_trigger h) u) hs.

Record conversation_handler : Type := mkconv {
  entry_points : list handler;
  states : list (Z * list handler);
  fallbacks : list handler
}.

(** [self.states.get(state, [])] *)
Fixpoint states_get (l : list (Z * list handler)) (state : Z) : list handler :=
  match l with
  | [] => []
  | (k, hs) :: l' => if k =? state then hs else states_get l' state
  end.

(** [ConversationHandler.check_update]: outside the conversation only
    the entry points are tried; inside it the handlers of the current
    state, then the fallbacks ([allow_reentry] is off).  [None] means
    the update is not for this conversation. *)
Definition conv_check_update (c : conversation_handler) (state : option Z)
    (u : update) : option handler :=
  match state with
  | None => first_match (entry_points c) u
  | Some s =>
      match first_match (states_get (states c) s) u with
      | Some h => Some h
      | None => first_match (fallbacks c) u
      end
  end.

(** The state after the callback: [END] leaves the conversation, another
    value is the new state, no value or an exception keeps the old one. *)
Definition conv_update_state (old : option Z) (ret : res (option Z)) : option Z :=
  match ret with
  | Ok (Some s) => if s =? END then None else Some s
  | Ok None => old
  | Raise _ => old
  end.

(** The four conversations of [main]. *)
Inductive conv_id : Type := CReg | CLogin | CIn | COut.

(** What the process holds for one user in one chat: the state of each
    [ConversationHandler] ([None]: not in that conversation) and
    [user_data]. *)
Record session : Type := mksession {
  st_reg : option Z;
  st_login : option Z;
  st_in : option Z;
  st_out : option Z;
  s_user_data : user_data
}.

Definition empty_session : session :=
  mksession None None None None empty_user_data.

Definition get_state (i : conv_id) (s : session) : option Z :=
  match i with
  | CReg => st_reg s
  | CLogin => st_login s
  | CIn => st_in s
  | COut => st_out s
  end.

Definition set_state (i : conv_id) (v : option Z) (s : session) : session :=
  match i with
  | CReg => mksession v (st_login s) (st_in s) (st_out s) (s_user_data s)
  | CLogin => mksession (st_reg s) v (st_in s) (st_out s) (s_user_data s)
  | CIn => mksession (st_reg s) (st_login s) v (st_out s) (s_user_data s)
  | COut => mksession (st_reg s) (st_login s) (st_in s) v (s_user_data s)
  end.

Definition set_user_data (ud : user_data) (s : session) : session :=
  mksession (st_reg s) (st_login s) (st_in s) (st_out s) ud.

Record world : Type := mkworld {
  w_db : database;
  w_session : session
}.

Inductive app_handler : Type :=
| Plain (h : handler)
| Conversation (i : conv_id) (c : conversation_handler).

(** [Application.process_update] over one group of handlers: the first
    handler, in the order of [add_handler], whose [check_update] accepts
    the update handles it, and no other. *)
Fixpoint dispatch (hs : list app_handler) (e : env) (u : update) (w : world)
  : world * list str :=
  match hs with
  | [] => (w, [])
  | Plain h :: rest =>
      if matches (h_trigger h) u then
        let o := h_callback h e (message_text u) (w_db w) (s_user_data (w_session w)) in
        (mkworld (o_db o) (set_user_data (o_ud o) (w_session w)), o_replies o)
      else dispatch rest e u w
  | Conversation i c :: rest =>
      let old := get_state i (w_session w) in
      match conv_check_update c old u with
      | Some h =>
          let o := h_callback h e (message_text u) (w_db w) (s_user_data (w_session w)) in
          (mkworld (o_db o)
                   (set_state i (conv_update_state old (o_ret o))
                              (set_user_data (o_ud o) (w_session w))),
           o_replies o)
      | None => dispatch rest e u w
      end
  end.

Section Main.
Context {U : UnicodeData} {B : Bcrypt}.

Definition text_handler (cb : callback) : handler := mkhandler OnText cb.
Definition cancel_fallback : list handler := [mkhandler (OnCommand (lit "cancel")) cancel].

Definition reg_conv : conversation_handler :=
  mkconv [mkhandler (OnCommand (lit "register")) register_cmd]
         [(REG_USERNAME, [text_handler reg_username]);
          (REG_PASSWORD, [text_handler reg_password])]
         cancel_fallback.

Definition login_conv : conversation_handler :=
  mkconv [mkhandler (OnCommand (lit "login")) login_cmd]
         [(LOGIN_USERNAME, [text_handler login_username]);
          (LOGIN_PASSWORD, [text_handler login_password])]
         cancel_fallback.

Definition in_conv : conversation_handler :=
  mkconv [mkhandler (OnRegexLine btn_in) in_start]
         [(IN_AMOUNT, [text_handler in_amount]);
          (IN_NOTE, [text_handler in_note])]
         cancel_fallback.

Definition out_conv : conversation_handler :=
  mkconv [mkhandler (OnRegexLine btn_out) out_start]
         [(OUT_AMOUNT, [text_handler out_amount]);
          (OUT_NOTE, [text_handler out_note])]
         cancel_fallback.

(** The handlers of [main], in the order of its [add_handler] calls. *)
Definition main_handlers : list app_handler :=
  [ Plain (mkhandler (OnCommand (lit "start")) start);
    Conversation CReg reg_conv;
    Conversation CLogin login_conv;
    Conversation CIn in_conv;
    Conversation COut out_conv;
    Plain (text_handler menu_router);
    Plain (mkhandler (OnCommand (lit "logout")) logout_cmd) ].

Definition process_update (e : env) (u : update) (w : world) : world * list str :=
  dispatch main_handlers e u w.

(** The worlds the program can be in: it starts on an empty store with
    no session, handles updates, and may be restarted, which keeps the
    store and forgets the session. *)
Inductive reachable : world -> Prop :=
| reach_init : reachable (mkworld empty_db empty_session)
| reach_update (e : env) (u : update) (w : world) :
    reachable w -> reachable (fst (process_update e u w))
| reach_restart (w : world) :
    reachable w -> reachable (mkworld (w_db w) empty_session).

(** The world after a list of updates, oldest first. *)
Fixpoint run (l : list (env * update)) (w : world) : world :=
  match l with
  | [] => w
  | (e, u) :: l' => run l' (fst (process_update e u w))
  end.

End Main.

(** *** The process and its users

    [context.user_data] is kept per Telegram user and the state of a
    [ConversationHandler] per chat and user.  The users are taken to
    talk to the bot each in their private chat, where the chat and the
    user are one key: the process then holds one [session] per user,
    and all sessions share the store.  Nothing but the store outlives
    the process ([Application.builder()] sets no persistence). *)
Record bot : Type := mkbot {
  b_db : database;
  b_sessions : Z -> session
}.

(** [main], up to [run_polling]: the store is opened on the file there
    is, and no user has a session yet. *)
Definition main (file : option database) : bot :=
  mkbot (init_db file) (fun _ => empty_session).

Section Polling.
Context {U : UnicodeData} {B : Bcrypt}.

(** One update, sent by [user]. *)
Definition bot_update (e : env) (user : Z) (u : update) (b : bot)
  : bot * list str :=
  let r := process_update e u (mkworld (b_db b) (b_sessions b user)) in
  (mkbot (w_db (fst r))
         (fun k => if k =? user then w_session (fst r) else b_sessions b k),
   snd r).

(** [run_polling] over the updates that arrive, oldest first. *)
Fixpoint run_polling (l : list (env * Z * update)) (b : bot) : bot :=
  match l with
  | [] => b
  | (e, user, u) :: l' => run_polling l' (fst (bot_update e user u b))
  end.

(** The states of the process: it starts with no file, handles the
    updates of its users, and may be stopped and started again on the
    file it left. *)
Inductive bot_reachable : bot -> Prop :=
| bot_started : bot_reachable (main None)
| bot_updated (e : env) (user : Z) (u : update) (b : bot) :
    bot_reachable b -> bot_reachable (fst (bot_update e user u b))
| bot_restarted (b : bot) :
    bot_reachable b -> bot_reachable (main (Some (b_db b))).

End Polling.

(** The conversations that are in progress. *)
Definition is_active (o : option Z) : bool :=
  match o with
  | Some _ => true
  | None => false
  end.

Definition active_count (s : session) : nat :=
  List.length (filter (fun i => is_active (get_state i s)) [CReg; CLogin; CIn; COut]).

(** A conversation, when in progress, is at one of the keys of its own
    [states] dictionary. *)
Definition own_state (i : conv_id) (o : option Z) : bool :=
  match o with
  | None => true
  | Some s =>
      match i with
      | CReg => (s =? REG_USERNAME) || (s =? REG_PASSWORD)
      | CLogin => (s =? LOGIN_USERNAME) || (s =? LOGIN_PASSWORD)
      | CIn => (s =? IN_AMOUNT) || (s =? IN_NOTE)
      | COut => (s =? OUT_AMOUNT) || (s =? OUT_NOTE)
      end
  end.

(** *** Reference instances

    Small instances of the two classes, used to run the program on
    concrete inputs.  The Unicode tables are cut down to ASCII, the
    superscript digits of Latin-1 (digits without a decimal value) and
    the Arabic-Indic digits (decimal digits).  The toy hash keeps
    the first byte of the salt and the password. *)

Definition ref_isdigit (c : char) : bool :=
  ((48 <=? c) && (c <=? 57) || (c =? 0xB2) || (c =? 0xB3) || (c =? 0xB9)
   || (0x660 <=? c) && (c <=? 0x669))%N.

Definition ref_todecimal (c : char) : option Z :=
  if ((48 <=? c) && (c <=? 57))%N then Some (Z.of_N c - 48)
  else if ((0x660 <=? c) && (c <=? 0x669))%N then Some (Z.of_N c - 0x660)
  else None.

Definition ref_hash (password salt : bytes) : bytes :=
  hd Byte.x00 salt :: password.

Definition ref_unicode : UnicodeData.
Proof.
  refine (Build_UnicodeData ref_isdigit ref_todecimal _ _ _ _).
  - intros c Hc. unfold ref_isdigit.
    destruct ((48 <=? c) && (c <=? 57))%N eqn:Hd; [reflexivity|].
    assert (H1 : (c =? 0xB2)%N = false) by (apply N.eqb_neq; lia).
    assert (H2 : (c =? 0xB3)%N = false) by (apply N.eqb_neq; lia).
    assert (H3 : (c =? 0xB9)%N = false) by (apply N.eqb_neq; lia).
    assert (H4 : (0x660 <=? c)%N = false) by (apply N.leb_gt; lia).
    rewrite H1, H2, H3, H4. reflexivity.
  - intros c [Hlo Hhi]. unfold ref_todecimal.
    apply N.leb_le in Hlo. apply N.leb_le in Hhi.
    rewrite Hlo, Hhi. reflexivity.
  - intros c v. unfold ref_todecimal.
    destruct ((48 <=? c) && (c <=? 57))%N eqn:Ha.
    + intros [= <-]. apply andb_prop in Ha as [Hlo Hhi].
      apply N.leb_le in Hlo. apply N.leb_le in Hhi. lia.
    + destruct ((0x660 <=? c) && (c <=? 0x669))%N eqn:Hb; [|discriminate].
      intros [= <-]. apply andb_prop in Hb as [Hlo Hhi].
      apply N.leb_le in Hlo. apply N.leb_le in Hhi. lia.
  - intros c v. unfold ref_todecimal, ref_isdigit.
    destruct ((48 <=? c) && (c <=? 57))%N; [reflexivity|].
    destruct ((0x660 <=? c) && (c <=? 0x669))%N; [|discriminate].
    intros _. now rewrite !orb_true_r.
Defined.

Definition ref_bcrypt : Bcrypt.
Proof.
  refine (Build_Bcrypt ref_hash _).
  intros password salt. reflexivity.
Defined.

(* ================================================================= *)
(** * Notions used in the statements *)

(** *** Sample inputs *)

Definition sample_now : datetime := mkdt 2024 12 31 23 59 59 250000.

Definition sample_env : env := mkenv sample_now [Byte.x24].

(** The store after [alice] registered with [secret1]. *)
Definition db_alice : database :=
  mkdb [mkuser 1 (lit "alice")
               (bcrypt_hash (Bcrypt := ref_bcrypt) (encode (lit "secret1")) [Byte.x24])
               (isoformat sample_now)]
       1 [] 0.

(** A password of 73 letters, one byte more than [bcrypt] takes. *)
Definition long_password : str := repeat 97%N 73.

(** *** Registration

    Two facts that hold whenever the store and the session were
    produced by the program ([reachable_ok] below): stored names have
    three characters or more, and so has the name a registration in
    progress keeps in [user_data]. *)
Definition names_ok (db : database) : Prop :=
  Forall (fun u => (3 <= List.length (u_username u))%nat) (users db).

Definition reg_scratch_ok (ud : user_data) : Prop :=
  forall n, ud_reg_username ud = Some n -> (3 <= List.length n)%nat.

(** *** Amounts *)

(** The value of a list of decimal digits, most significant first. *)
Definition digits_value (ds : list Z) : Z :=
  fold_left (fun a d => a * 10 + d) ds 0.

(** The remainder as the specification computes it: the separators are
    removed from the input as it came, nothing is trimmed. *)
Definition untrimmed_amount_text (text : str) : str :=
  remove_char 44%N (remove_char 46%N text).

(** [c] is a decimal digit of value [d]. *)
Definition decimal {U : UnicodeData} (c : char) (d : Z) : Prop :=
  Py_UNICODE_TODECIMAL c = Some d.

Definition is_ascii_digit (c : char) : bool := ((48 <=? c) && (c <=? 57))%N.

(** A string of digits in groups of three separated by [.], read from
    its last character: the leading group may have one to three digits. *)
Fixpoint grouped_le (l : list char) : bool :=
  match l with
  | [] => false
  | [a] => is_ascii_digit a
  | [a; b] => is_ascii_digit a && is_ascii_digit b
  | [a; b; c] => is_ascii_digit a && is_ascii_digit b && is_ascii_digit c
  | a :: b :: c :: s :: rest =>
      is_ascii_digit a && is_ascii_digit b && is_ascii_digit c
      && (s =? 46)%N && grouped_le rest
  end.

(** The value of a list of digits, least significant first. *)
Fixpoint le_value (ds : list Z) : Z :=
  match ds with
  | [] => 0
  | d :: ds' => d + 10 * le_value ds'
  end.

(** The store after one more transaction. *)
Definition with_tx (db : database) (now : datetime) (uid : Z) (ty : tx_type)
    (amount : Z) (note : option str) : database :=
  mkdb (users db) (users_seq db)
       (transactions db
        ++ [mktx (transactions_seq db + 1) uid ty amount note (isoformat now)])
       (transactions_seq db + 1).

(** [context.user_data.pop("tmp_amount", 0)] *)
Definition pending_amount (ud : user_data) : Z :=
  match ud_tmp_amount ud with
  | Some a => a
  | None => 0
  end.

(** A logged-in session with 50000 pending. *)
Definition ud_alice_50000 : user_data :=
  mkud (Some 1) (Some (lit "alice")) None None (Some 50000).

(** A logged-in session with nothing pending. *)
Definition ud_alice : user_data := mkud (Some 1) (Some (lit "alice")) None None None.

(** *** The calendar and the time line *)

Definition year_length (y : Z) : Z := if is_leap y then 366 else 365.

(** The ordinal of the day before the first of month [m]. *)
Definition month_start (y m : Z) : Z := days_before_year y + days_before_month y m.

(** Month [m] of year [y] comes before month [m'] of year [y']. *)
Definition month_before (y m y' m' : Z) : Prop := y < y' \/ (y = y' /\ m < m').

(** The date of [a] comes before the date of [b]. *)
Definition date_before (a b : datetime) : Prop :=
  month_before (year a) (month a) (year b) (month b)
  \/ (year a = year b /\ month a = month b /\ day a < day b).

(** [date.max.toordinal()] *)
Definition MAXORDINAL : Z := 3652059.

Definition same_time (a b : datetime) : Prop :=
  hour a = hour b /\ minute a = minute b /\ second a = second b
  /\ microsecond a = microsecond b.

(** Python compares two [datetime] values of one zone field by field. *)
Definition dt_key (d : datetime) : list Z :=
  [year d; month d; day d; hour d; minute d; second d; microsecond d].

Fixpoint lex_compare (a b : list Z) : comparison :=
  match a, b with
  | [], [] => Eq
  | [], _ :: _ => Lt
  | _ :: _, [] => Gt
  | x :: a', y :: b' =>
      match x ?= y with
      | Eq => lex_compare a' b'
      | c => c
      end
  end.

Definition dt_compare (a b : datetime) : comparison :=
  lex_compare (dt_key a) (dt_key b).

Definition DAY_US : Z := 86400000000.

Definition time_of_day (d : datetime) : Z :=
  ((hour d * 60 + minute d) * 60 + second d) * 1000000 + microsecond d.

(** Microseconds since the midnight that starts 0001-01-01, local time:
    the position of an instant on the time line. *)
Definition timestamp (d : datetime) : Z := toordinal d * DAY_US + time_of_day d.

(** The fraction and the offset that end [isoformat]. *)
Definition iso_tail (us : Z) : str :=
  (if us =? 0 then [] else lit "." ++ zpad 6 us) ++ lit "+08:00".

(** *** Periods *)

(** [t] lies in the half-open period between the two bounds. *)
Definition covers (b : datetime * datetime) (t : datetime) : Prop :=
  timestamp (fst b) <= timestamp t < timestamp (snd b).

(** The test of [sum_tx]'s [WHERE] clause on the time stamp. *)
Definition in_range (r : str * str) (ts : str) : bool :=
  str_leb (fst r) ts && str_ltb ts (snd r).

Definition at_midnight (d : datetime) : Prop :=
  hour d = 0 /\ minute d = 0 /\ second d = 0 /\ microsecond d = 0.

(** What it is for a function from the clock to a period to cut the
    time line into periods: it answers for the instants of [dom] and
    raises for the others (those whose period would end after the last
    [datetime]), the instant lies in its period, every instant of the
    period has that same period, and the period of the instant at which
    a period ends starts there. *)
Record partition (dom : datetime -> Prop)
    (F : datetime -> res (datetime * datetime)) : Prop := {
  part_total : forall now,
    valid_datetime now = true -> dom now -> exists b, F now = Ok b;
  part_fails : forall now,
    valid_datetime now = true -> ~ dom now -> exists e, F now = Raise e;
  part_valid : forall now b,
    valid_datetime now = true -> F now = Ok b ->
    valid_datetime (fst b) = true /\ valid_datetime (snd b) = true;
  part_inside : forall now b,
    valid_datetime now = true -> F now = Ok b -> covers b now;
  part_same : forall now t b,
    valid_datetime now = true -> valid_datetime t = true ->
    F now = Ok b -> covers b t -> F t = Ok b;
  part_abut : forall now b b',
    valid_datetime now = true -> F now = Ok b -> F (snd b) = Ok b' ->
    fst b' = snd b
}.

(** The instants for which each function answers: those whose period
    ends on a day that exists. *)
Definition today_dom (now : datetime) : Prop := toordinal now < MAXORDINAL.

Definition week_dom (now : datetime) : Prop :=
  toordinal now - weekday now + 7 <= MAXORDINAL.

Definition month_dom (now : datetime) : Prop := year now < MAXYEAR \/ month now < 12.

(** The same properties for a function that returns the two ends as
    ISO strings, membership being the comparison of strings that
    [sum_tx] makes.  Two periods that share an instant are one period:
    periods never overlap. *)
Record range_partition (dom : datetime -> Prop)
    (G : datetime -> res (str * str)) : Prop := {
  rp_total : forall now,
    valid_datetime now = true -> dom now -> exists r, G now = Ok r;
  rp_fails : forall now,
    valid_datetime now = true -> ~ dom now -> exists e, G now = Raise e;
  rp_inside : forall now r,
    valid_datetime now = true -> G now = Ok r ->
    in_range r (isoformat now) = true;
  rp_same : forall now t r,
    valid_datetime now = true -> valid_datetime t = true -> G now = Ok r ->
    in_range r (isoformat t) = true -> G t = Ok r;
  rp_overlap : forall now now' x r r',
    valid_datetime now = true -> valid_datetime now' = true ->
    valid_datetime x = true -> G now = Ok r -> G now' = Ok r' ->
    in_range r (isoformat x) = true -> in_range r' (isoformat x) = true ->
    r = r';
  rp_abut : forall now r,
    valid_datetime now = true -> G now = Ok r ->
    exists e, valid_datetime e = true /\ snd r = isoformat e
              /\ forall r', G e = Ok r' -> fst r' = snd r
}.

Definition iso_range (F : datetime -> res (datetime * datetime))
    (now : datetime) : res (str * str) :=
  b <- F now ;; Ok (iso_pair b).

(** The last second of a year and the first instant of the next. *)
Definition new_year_eve (y us : Z) : datetime := mkdt y 12 31 23 59 59 us.

Definition new_year (y : Z) : datetime := mkdt (y + 1) 1 1 0 0 0 0.

Definition first_of (y m : Z) : datetime := mkdt y m 1 0 0 0 0.

(** The last day a [datetime] can hold. *)
Definition last_day : datetime := mkdt 9999 12 31 23 59 59 0.

(** *** The ledger *)

(** The sum of the amounts of a list of rows. *)
Definition total (l : list tx_row) : Z :=
  fold_right (fun t a => t_amount t + a) 0 l.

Definition str_le (a b : str) : Prop := str_compare a b <> Gt.

Definition str_lt (a b : str) : Prop := str_compare a b = Lt.

(** The rows the specification sums: the owner's, of the kind asked
    for, stamped at or after [start_] and before [end_]. *)
Definition in_query (user_id : Z) (ty : tx_type) (start_ end_ : str)
    (t : tx_row) : Prop :=
  t_user_id t = user_id /\ t_type t = ty
  /\ str_le start_ (t_ts t) /\ str_lt (t_ts t) end_.

(** *** Dispatch *)

(** The handlers a conversation can run. *)
Definition conv_handlers (c : conversation_handler) : list handler :=
  entry_points c ++ flat_map snd (states c) ++ fallbacks c.

(** What one update does, whatever the handlers: nothing, or the effect
    of one callback, which is a plain handler's, or a conversation's and
    then moves that conversation and no other. *)
Inductive handled_by (hs : list app_handler) (e : env) (u : update) (w : world)
  : world * list str -> Prop :=
| handled_not :
    handled_by hs e u w (w, [])
| handled_plain (h : handler) :
    In (Plain h) hs ->
    let o := h_callback h e (message_text u) (w_db w) (s_user_data (w_session w)) in
    handled_by hs e u w
      (mkworld (o_db o) (set_user_data (o_ud o) (w_session w)), o_replies o)
| handled_conv (i : conv_id) (c : conversation_handler) (h : handler) :
    In (Conversation i c) hs -> In h (conv_handlers c) ->
    let o := h_callback h e (message_text u) (w_db w) (s_user_data (w_session w)) in
    handled_by hs e u w
      (mkworld (o_db o)
               (set_state i (conv_update_state (get_state i (w_session w)) (o_ret o))
                          (set_user_data (o_ud o) (w_session w))),
       o_replies o).

(** Callbacks that keep a property of the store and the dictionary. *)
Definition keeps (P : database -> user_data -> Prop) (h : handler) : Prop :=
  forall e text db ud,
    P db ud ->
    P (o_db (h_callback h e text db ud)) (o_ud (h_callback h e text db ud)).

Definition app_handler_keeps (P : database -> user_data -> Prop)
    (a : app_handler) : Prop :=
  match a with
  | Plain h => keeps P h
  | Conversation _ c => Forall (keeps P) (conv_handlers c)
  end.

(** Callbacks that return states accepted by [ok], [END] or nothing. *)
Definition returns (ok : Z -> bool) (h : handler) : Prop :=
  forall e text db ud s,
    o_ret (h_callback h e text db ud) = Ok (Some s) -> s = END \/ ok s = true.

Definition states_ok (s : session) : Prop :=
  forall i, own_state i (get_state i s) = true.

Definition app_handler_returns (a : app_handler) : Prop :=
  match a with
  | Plain _ => True
  | Conversation i c => Forall (returns (fun s => own_state i (Some s))) (conv_handlers c)
  end.

(** What holds of the store and the dictionary in every world the
    program reaches: stored names and the name a registration keeps
    have three characters or more, and a pending amount is not
    negative. *)
Definition data_ok (db : database) (ud : user_data) : Prop :=
  names_ok db /\ reg_scratch_ok ud /\ 0 <= pending_amount ud.

Definition world_ok (w : world) : Prop :=
  data_ok (w_db w) (s_user_data (w_session w)) /\ states_ok (w_session w).

Definition cb_keeps (cb : callback) : Prop :=
  forall e text db ud,
    data_ok db ud -> data_ok (o_db (cb e text db ud)) (o_ud (cb e text db ud)).

(** The first conversation in progress, in the order of [main]. *)
Definition first_active (s : session) : option conv_id :=
  find (fun i => is_active (get_state i s)) [CReg; CLogin; CIn; COut].

(** [user_data] after [cancel]. *)
Definition cancelled (ud : user_data) : user_data :=
  set_login_username None (set_reg_username None (set_tmp_amount None ud)).

(** *** Sample runs *)

Definition init_world : world := mkworld empty_db empty_session.

Definition on_sample (u : update) : env * update := (sample_env, u).

(** [/register], then [/login] before a name was sent. *)
Definition trace_two_dialogues : list (env * update) :=
  map on_sample [Command (lit "register"); Command (lit "login")].

(** A registration from start to end. *)
Definition trace_alice_registers : list (env * update) :=
  map on_sample [Command (lit "register"); Text (lit "alice"); Text (lit "secret1")].

(** [alice] registers and logs in. *)
Definition trace_alice_logs_in : list (env * update) :=
  map on_sample
    [Command (lit "register"); Text (lit "alice"); Text (lit "secret1");
     Command (lit "login"); Text (lit "alice"); Text (lit "secret1")].

(** Then she starts an income entry and sends the amount. *)
Definition trace_alice_amount : list (env * update) :=
  trace_alice_logs_in ++ map on_sample [Text btn_in; Text (lit "50.000")].

(** The same, and [/logout] while the dialogue waits for the note. *)
Definition trace_amount_logged_out : list (env * update) :=
  trace_alice_amount ++ map on_sample [Command (lit "logout")].

(** An income entry whose amount is 2^63, one more than the largest
    [INTEGER]. *)
Definition trace_amount_too_large : list (env * update) :=
  trace_alice_logs_in
  ++ map on_sample [Text btn_in; Text (lit "9223372036854775808")].

(** Two incomes of 2^63 - 1, the largest [INTEGER], on one day. *)
Definition trace_two_large_incomes : list (env * update) :=
  trace_alice_logs_in
  ++ map on_sample
       [Text btn_in; Text (lit "9223372036854775807"); Text (lit "-");
        Text btn_in; Text (lit "9223372036854775807"); Text (lit "-")].

(** A registration with a password of 73 letters. *)
Definition trace_long_password : list (env * update) :=
  map on_sample [Command (lit "register"); Text (lit "alice"); Text long_password].

(** A user registers and logs in, starts an income entry and sends the
    amount; then [/register] opens a second dialogue, [/cancel] goes to
    that one and clears the amount, and [/logout] ends the login while
    the income dialogue still waits for its note. *)
Definition trace_note_logged_out : list (env * update) :=
  map on_sample
    [Command (lit "register"); Text (lit "alice"); Text (lit "secret1");
     Command (lit "login"); Text (lit "alice"); Text (lit "secret1");
     Text btn_in; Text (lit "50.000");
     Command (lit "register"); Command (lit "cancel"); Command (lit "logout")].

Definition cancel_handler : handler := mkhandler (OnCommand (lit "cancel")) cancel.

(** *** Routing *)

(** What [dispatch] does with the callback it picked: run as a plain
    handler, or as a handler of the conversation [i], whose state the
    returned value then sets. *)
Definition plain_step (cb : callback) (e : env) (u : update) (w : world)
  : world * list str :=
  let o := cb e (message_text u) (w_db w) (s_user_data (w_session w)) in
  (mkworld (o_db o) (set_user_data (o_ud o) (w_session w)), o_replies o).

Definition conv_step (i : conv_id) (cb : callback) (e : env) (u : update)
    (w : world) : world * list str :=
  let old := get_state i (w_session w) in
  let o := cb e (message_text u) (w_db w) (s_user_data (w_session w)) in
  (mkworld (o_db o)
           (set_state i (conv_update_state old (o_ret o))
                      (set_user_data (o_ud o) (w_session w))),
   o_replies o).

(** The commands for which [main] registers a handler. *)
Definition known_commands : list str :=
  [lit "start"; lit "register"; lit "login"; lit "cancel"; lit "logout"].

(** The texts [menu_router] compares the trimmed message with. *)
Definition router_buttons : list str :=
  [btn_in_today; btn_out_week; btn_month; btn_logout].

(** [user_data] after [logout_cmd]. *)
Definition logged_out (ud : user_data) : user_data :=
  set_username None (set_user_id None ud).

(** [context.user_data.get("login_username", "")] *)
Definition login_name (ud : user_data) : str :=
  match ud_login_username ud with
  | Some u => u
  | None => []
  end.

(** The button that opens the dialogue of each kind. *)
Definition entry_button (ty : tx_type) : str :=
  match ty with
  | IN => btn_in
  | OUT => btn_out
  end.

(** *** What SQLite can hold *)

(** A ledger that SQLite can hold and sum: no amount is negative
    ([CHECK(amount >= 0)]) and the sum of all amounts is an [INTEGER]. *)
Definition ledger_fits (db : database) : Prop :=
  Forall (fun t => 0 <= t_amount t) (transactions db)
  /\ total (transactions db) <= SQLITE_MAX_INTEGER.

(** *** Instants of one period *)





(** *** What the store and the sessions keep *)

(** Keys handed out by [AUTOINCREMENT] to rows that are never deleted:
    the row at position [k] has key [k + 1]. *)
Definition numbered (ids : list Z) : Prop :=
  forall k id, nth_error ids k = Some id -> id = Z.of_nat k + 1.

(** A stored name has three characters or more and no blank at either
    end. *)
Definition user_ok (u : user_row) : Prop :=
  (3 <= List.length (u_username u))%nat /\ strip (u_username u) = u_username u.

Record store_ok (db : database) : Prop := {
  users_counted : users_seq db = Z.of_nat (List.length (users db));
  users_numbered : numbered (map u_id (users db));
  users_distinct : NoDup (map u_username (users db));
  users_named : Forall user_ok (users db);
  tx_counted : transactions_seq db = Z.of_nat (List.length (transactions db));
  tx_numbered : numbered (map t_id (transactions db));
  tx_amounts : Forall (fun t => 0 <= t_amount t) (transactions db);
  tx_owned :
    Forall (fun t => In (t_user_id t) (map u_id (users db))) (transactions db)
}.

(** The login a session holds is the key and the name of one account
    of the store; the two keys are set and removed together. *)
Definition login_ok (db : database) (ud : user_data) : Prop :=
  match ud_user_id ud, ud_username ud with
  | Some id, Some name => exists u, find_user db name = Some u /\ u_id u = id
  | None, None => True
  | _, _ => False
  end.

Record session_ok (db : database) (s : session) : Prop := {
  so_states : forall i, own_state i (get_state i s) = true;
  so_login : login_ok db (s_user_data s);
  so_reg_name :
    forall n, ud_reg_username (s_user_data s) = Some n ->
              (3 <= List.length n)%nat /\ strip n = n;
  so_amount : 0 <= pending_amount (s_user_data s)
}.

(** The store only grows: the rows of [db] are the first rows of [db']. *)
Definition grows (db db' : database) : Prop :=
  (exists us, users db' = users db ++ us)
  /\ (exists ts, transactions db' = transactions db ++ ts).

Definition step_ok (w : world) (r : world * list str) : Prop :=
  store_ok (w_db (fst r)) /\ session_ok (w_db (fst r)) (w_session (fst r))
  /\ grows (w_db w) (w_db (fst r)).

(** The three things one update can do to the store: nothing; the
    insertion of the account a registration waits to create, under the
    next key, with the hash of a password [bcrypt] takes; the insertion
    of a transaction of the account the sender is logged in to, under
    the next key, stamped with the clock and with an amount the column
    takes. *)
Inductive store_change {B : Bcrypt} (e : env) (w : world) : database -> Prop :=
| store_kept : store_change e w (w_db w)
| user_added (name password : str) :
    st_reg (w_session w) = Some REG_PASSWORD ->
    ud_reg_username (s_user_data (w_session w)) = Some name ->
    find_user (w_db w) name = None ->
    (List.length (encode password) <= BCRYPT_MAX_BYTES)%nat ->
    store_change e w
      (mkdb (users (w_db w)
             ++ [mkuser (users_seq (w_db w) + 1) name
                        (bcrypt_hash (encode password) (env_salt e))
                        (isoformat (env_now e))])
            (users_seq (w_db w) + 1)
            (transactions (w_db w)) (transactions_seq (w_db w)))
| tx_added (uid : Z) (ty : tx_type) (amount : Z) (note : option str) :
    ud_user_id (s_user_data (w_session w)) = Some uid ->
    0 <= amount <= SQLITE_MAX_INTEGER ->
    store_change e w (with_tx (w_db w) (env_now e) uid ty amount note).

(** *** More sample inputs *)

(** [alice] logged in, no dialogue in progress. *)
Definition world_alice : world :=
  mkworld db_alice (mksession None None None None ud_alice).

(** [alice] logged in, with 50000 waiting for its note. *)
Definition world_alice_note : world :=
  mkworld db_alice (mksession None None (Some IN_NOTE) None ud_alice_50000).

(** The store of [db_alice] after an income of 50000 at [sample_now]. *)
Definition db_alice_income : database :=
  with_tx db_alice sample_now 1 IN 50000 None.


(** Two users pick the name [alice]; the second one completes the
    registration first. *)
Definition trace_race : list (env * Z * update) :=
  [ (sample_env, 1, Command (lit "register")); (sample_env, 1, Text (lit "alice"));
    (sample_env, 2, Command (lit "register")); (sample_env, 2, Text (lit "alice"));
    (sample_env, 2, Text (lit "secret2")) ].

(** A registration, a login and an income of one user. *)
Definition trace_ledger : list (env * Z * update) :=
  map (fun u => (sample_env, 7, u))
      [Command (lit "register"); Text (lit "alice"); Text (lit "secret1");
       Command (lit "login"); Text (lit "alice"); Text (lit "secret1");
       Text btn_in; Text (lit "50.000"); Text (lit "-")].

(* ================================================================= *)
(** * Properties *)

(** ** Strings *)

Lemma list_eqb_refl {A : Type} (eqb : A -> A -> bool) (l : list A) :
  (forall x, eqb x x = true) -> list_eqb eqb l l = true.
Proof.
  intros Hrefl. induction l as [|x l IH]; simpl.
  - reflexivity.
  - now rewrite Hrefl, IH.
Qed.

Lemma list_eqb_eq {A : Type} (eqb : A -> A -> bool) :
  (forall x y, eqb x y = true -> x = y) ->
  forall a b : list A, list_eqb eqb a b = true -> a = b.
Proof.
  intros Hsound a. induction a as [|x a IH]; intros [|y b]; simpl;
    try discriminate; try reflexivity.
  intros H. apply andb_prop in H as [Hxy Hab].
  f_equal; [now apply Hsound | now apply IH].
Qed.

Lemma str_eqb_refl (s : str) : str_eqb s s = true.
Proof. apply list_eqb_refl, N.eqb_refl. Qed.

Lemma str_eqb_eq (a b : str) : str_eqb a b = true <-> a = b.
Proof.
  split.
  - apply list_eqb_eq. intros x y. apply N.eqb_eq.
  - intros ->. apply str_eqb_refl.
Qed.

Lemma str_eqb_neq (a b : str) : str_eqb a b = false <-> a <> b.
Proof.
  rewrite <- str_eqb_eq. destruct (str_eqb a b); split; congruence.
Qed.

Lemma len_lt_false (s : str) (n : nat) :
  len_lt s n = false <-> (n <= List.length s)%nat.
Proof. unfold len_lt. apply Nat.ltb_ge. Qed.

Lemma len_lt_true (s : str) (n : nat) :
  len_lt s n = true <-> (List.length s < n)%nat.
Proof. unfold len_lt. apply Nat.ltb_lt. Qed.

(** ** The credential store *)

Lemma find_user_some (db : database) (username : str) (u : user_row) :
  find_user db username = Some u -> In u (users db) /\ u_username u = username.
Proof.
  unfold find_user. intros H. apply find_some in H as [Hin Heq].
  split; [exact Hin | now apply str_eqb_eq].
Qed.

Lemma find_user_none (db : database) (username : str) :
  find_user db username = None <->
  forall u, In u (users db) -> u_username u <> username.
Proof.
  unfold find_user. split.
  - intros H u Hin. apply str_eqb_neq. exact (find_none _ _ H u Hin).
  - intros H. induction (users db) as [|r l IH]; simpl; [reflexivity|].
    destruct (str_eqb (u_username r) username) eqn:E.
    + apply str_eqb_eq in E. exfalso. apply (H r); [now left | exact E].
    + apply IH. intros u Hu. apply H. now right.
Qed.

Lemma find_app_new {A : Type} (p : A -> bool) (l : list A) (x : A) :
  find p l = None -> p x = true -> find p (l ++ [x]) = Some x.
Proof.
  intros Hnone Hx. induction l as [|y l IH]; simpl in *.
  - now rewrite Hx.
  - destruct (p y); [discriminate | now apply IH].
Qed.

Lemma find_app_old {A : Type} (p : A -> bool) (l l' : list A) (y : A) :
  find p l = Some y -> find p (l ++ l') = Some y.
Proof.
  induction l as [|z l IH]; simpl; [discriminate|].
  destruct (p z); [trivial | exact IH].
Qed.

Section CredentialStore.
Context {B : Bcrypt}.

Lemma hashpw_short (password salt : bytes) :
  (List.length password <= BCRYPT_MAX_BYTES)%nat ->
  hashpw password salt = Ok (bcrypt_hash password salt).
Proof.
  intros H. unfold hashpw. apply Nat.ltb_ge in H. now rewrite H.
Qed.

Lemma hashpw_long (password salt : bytes) :
  (BCRYPT_MAX_BYTES < List.length password)%nat ->
  hashpw password salt = Raise ValueError.
Proof.
  intros H. unfold hashpw. apply Nat.ltb_lt in H. now rewrite H.
Qed.

Lemma checkpw_short (password hashed_password : bytes) :
  (List.length password <= BCRYPT_MAX_BYTES)%nat ->
  checkpw password hashed_password
  = Ok (list_eqb Byte.eqb (bcrypt_hash password hashed_password) hashed_password).
Proof. intros H. unfold checkpw. now rewrite (hashpw_short _ _ H). Qed.

Lemma checkpw_long (password hashed_password : bytes) :
  (BCRYPT_MAX_BYTES < List.length password)%nat ->
  checkpw password hashed_password = Raise ValueError.
Proof. intros H. unfold checkpw. now rewrite (hashpw_long _ _ H). Qed.

(** [checkpw] raises for the passwords [hashpw] refuses and for no
    other. *)
Lemma checkpw_raises (password hashed_password : bytes) (ex : exn) :
  checkpw password hashed_password = Raise ex ->
  ex = ValueError /\ (BCRYPT_MAX_BYTES < List.length password)%nat.
Proof.
  destruct (Nat.le_gt_cases (List.length password) BCRYPT_MAX_BYTES) as [H|H].
  - now rewrite (checkpw_short _ _ H).
  - rewrite (checkpw_long _ _ H). intros [= <-]. now split.
Qed.

Lemma checkpw_hashpw (password salt : bytes) :
  (List.length password <= BCRYPT_MAX_BYTES)%nat ->
  checkpw password (bcrypt_hash password salt) = Ok true.
Proof.
  intros H. rewrite (checkpw_short _ _ H), bcrypt_rehash. f_equal.
  apply list_eqb_refl. intros x. now apply Byte.byte_dec_lb.
Qed.

Lemma create_user_long (salt : bytes) (now : datetime) (db : database)
    (username password : str) :
  (BCRYPT_MAX_BYTES < List.length (encode password))%nat ->
  create_user salt now db username password = Raise ValueError.
Proof. intros H. unfold create_user. now rewrite (hashpw_long _ _ H). Qed.

Lemma create_user_taken (salt : bytes) (now : datetime) (db : database)
    (username password : str) (u : user_row) :
  find_user db username = Some u ->
  (List.length (encode password) <= BCRYPT_MAX_BYTES)%nat ->
  create_user salt now db username password = Raise IntegrityError.
Proof.
  intros Hf H. unfold create_user. rewrite (hashpw_short _ _ H). cbn [bind].
  now rewrite Hf.
Qed.

Lemma create_user_free (salt : bytes) (now : datetime) (db : database)
    (username password : str) :
  find_user db username = None ->
  (List.length (encode password) <= BCRYPT_MAX_BYTES)%nat ->
  create_user salt now db username password =
  Ok (mkdb (users db ++ [mkuser (users_seq db + 1) username
                                (bcrypt_hash (encode password) salt) (isoformat now)])
           (users_seq db + 1) (transactions db) (transactions_seq db)).
Proof.
  intros Hf H. unfold create_user. rewrite (hashpw_short _ _ H). cbn [bind].
  now rewrite Hf.
Qed.

(** [create_user] inserts only a free name and the hash of a password
    that [bcrypt] takes. *)
Lemma create_user_inserted (salt : bytes) (now : datetime) (db db' : database)
    (username password : str) :
  create_user salt now db username password = Ok db' ->
  find_user db username = None
  /\ (List.length (encode password) <= BCRYPT_MAX_BYTES)%nat
  /\ db' = mkdb (users db ++ [mkuser (users_seq db + 1) username
                                     (bcrypt_hash (encode password) salt)
                                     (isoformat now)])
                (users_seq db + 1) (transactions db) (transactions_seq db).
Proof.
  destruct (Nat.le_gt_cases (List.length (encode password)) BCRYPT_MAX_BYTES) as [H|H].
  - destruct (find_user db username) as [u|] eqn:Hf.
    + now rewrite (create_user_taken _ _ _ _ _ _ Hf H).
    + rewrite (create_user_free _ _ _ _ _ Hf H). intros [= <-]. now repeat split.
  - now rewrite (create_user_long _ _ _ _ _ H).
Qed.

(** C1, as amended: for a name of three characters or more that is not
    taken and a password of six characters or more that [bcrypt] takes
    (at most 72 bytes), the two steps of the registration accept the
    pair and [create_user] adds one row; [verify_user] with the same
    pair then succeeds, and the row that [find_user] returns for the
    name is the row that [create_user] added, carrying the key the
    insertion handed out: the login that follows stores that key as the
    identity of the user. *)
Theorem C1_register_then_verify (salt : bytes) (now : datetime)
    (db : database) (username password : str) :
  (3 <= List.length username)%nat -> (6 <= List.length password)%nat ->
  (List.length (encode password) <= BCRYPT_MAX_BYTES)%nat ->
  find_user db username = None ->
  exists (db' : database) (u : user_row),
    create_user salt now db username password = Ok db'
    /\ users db' = users db ++ [u]
    /\ u_username u = username
    /\ u_id u = users_seq db + 1
    /\ verify_user db' username password = Ok true
    /\ find_user db' username = Some u
    /\ (forall (text : str) (ud : user_data),
         strip text = username ->
         reg_username (mkenv now salt) text db ud
         = mkout db (set_reg_username (Some username) ud)
                 [msg_reg_ask_password] (Ok (Some REG_PASSWORD)))
    /\ (forall (text : str) (ud : user_data),
         strip text = password ->
         reg_password (mkenv now salt) text db (set_reg_username (Some username) ud)
         = mkout db' (set_reg_username None ud) [msg_reg_done] (Ok (Some END)))
    /\ forall (e : env) (text : str) (ud : user_data),
         strip text = password ->
         login_password e text db' (set_login_username (Some username) ud)
         = mkout db'
                 (set_username (Some username)
                    (set_user_id (Some (u_id u)) (set_login_username None ud)))
                 [msg_login_done username] (Ok (Some END)).
Proof.
  intros Hname Hpw Hbytes Hfree.
  set (u := mkuser (users_seq db + 1) username
                   (bcrypt_hash (encode password) salt) (isoformat now)).
  set (db' := mkdb (users db ++ [u]) (users_seq db + 1)
                   (transactions db) (transactions_seq db)).
  exists db', u.
  assert (Hcreate : create_user salt now db username password = Ok db')
    by now apply create_user_free.
  assert (Hfind : find_user db' username = Some u).
  { unfold find_user in *. subst db'. cbn [users].
    apply find_app_new; [exact Hfree|]. cbn [u_username u]. apply str_eqb_refl. }
  assert (Hverify : verify_user db' username password = Ok true).
  { unfold verify_user. rewrite Hfind. cbn [u_password_hash u].
    now apply checkpw_hashpw. }
  split; [exact Hcreate|].
  split; [reflexivity|]. split; [reflexivity|]. split; [reflexivity|].
  split; [exact Hverify|]. split; [exact Hfind|].
  split; [|split].
  - intros text ud Htext. unfold reg_username. rewrite Htext.
    apply len_lt_false in Hname. now rewrite Hname, Hfree.
  - intros text ud Htext. unfold reg_password. rewrite Htext.
    apply len_lt_false in Hpw. rewrite Hpw.
    cbn [ud_reg_username set_reg_username env_salt env_now].
    now rewrite Hcreate.
  - intros e text ud Htext. unfold login_password.
    cbn [ud_login_username set_login_username].
    rewrite Htext, Hverify, Hfind. reflexivity.
Qed.

(** C7, as amended: [verify_user] answers [False] both for a name that
    is not in the store and for a name that is there with a password
    that [bcrypt] takes (at most 72 bytes) and that does not match its
    hash, and the login handler, which is the caller, ends in the same
    outcome in the two cases: same reply, same returned state, same
    [user_data], store untouched. *)
Theorem C7_verify_failures_indistinguishable (db : database)
    (absent present : str) (u : user_row) (p1 p2 : str) :
  find_user db absent = None ->
  find_user db present = Some u ->
  (List.length (encode p2) <= BCRYPT_MAX_BYTES)%nat ->
  checkpw (encode p2) (u_password_hash u) <> Ok true ->
  verify_user db absent p1 = verify_user db present p2
  /\ verify_user db absent p1 = Ok false
  /\ forall (e1 e2 : env) (text1 text2 : str) (ud : user_data),
       strip text1 = p1 -> strip text2 = p2 ->
       login_password e1 text1 db (set_login_username (Some absent) ud)
       = login_password e2 text2 db (set_login_username (Some present) ud)
       /\ login_password e1 text1 db (set_login_username (Some absent) ud)
          = mkout db (set_login_username None ud) [msg_login_failed] (Ok (Some END)).
Proof.
  intros Habsent Hpresent Hbytes Hwrong.
  assert (H1 : verify_user db absent p1 = Ok false).
  { unfold verify_user. now rewrite Habsent. }
  assert (H2 : verify_user db present p2 = Ok false).
  { unfold verify_user. rewrite Hpresent.
    rewrite (checkpw_short _ _ Hbytes) in Hwrong |- *.
    now destruct (list_eqb Byte.eqb _ _). }
  split; [congruence|]. split; [exact H1|].
  intros e1 e2 text1 text2 ud Ht1 Ht2. unfold login_password.
  cbn [ud_login_username set_login_username].
  rewrite Ht1, Ht2, H1, H2. split; reflexivity.
Qed.

End CredentialStore.

Lemma C1_register_then_verify_witness :
  find_user empty_db (lit "alice") = None
  /\ exists (db' : database) (u : user_row),
       create_user (B := ref_bcrypt) [Byte.x24] sample_now empty_db
                   (lit "alice") (lit "secret1") = Ok db'
       /\ users db' = users empty_db ++ [u]
       /\ u_username u = lit "alice"
       /\ u_id u = users_seq empty_db + 1
       /\ verify_user (B := ref_bcrypt) db' (lit "alice") (lit "secret1") = Ok true
       /\ find_user db' (lit "alice") = Some u.
Proof.
  split; [reflexivity|].
  assert (H3 : (3 <= List.length (lit "alice"))%nat) by (vm_compute; lia).
  assert (H6 : (6 <= List.length (lit "secret1"))%nat) by (vm_compute; lia).
  assert (H72 : (List.length (encode (lit "secret1")) <= BCRYPT_MAX_BYTES)%nat)
    by (vm_compute; lia).
  destruct (C1_register_then_verify (B := ref_bcrypt) [Byte.x24] sample_now empty_db
              (lit "alice") (lit "secret1") H3 H6 H72 eq_refl)
    as (db' & u & Hcreate & Husers & Hname & Hid & Hverify & Hfind & _).
  exists db', u. repeat split; assumption.
Defined.

(** C1 as stated fails for a password that [bcrypt] does not take:
    [alice] has three letters or more and is free on the empty store,
    the password has 73 letters, yet [create_user] raises [ValueError],
    and the registration dialogue that is sent the pair gets no answer
    at its password step and creates no account. *)
Lemma C1_counterexample :
  find_user empty_db (lit "alice") = None
  /\ (3 <= List.length (lit "alice"))%nat
  /\ (6 <= List.length long_password)%nat
  /\ create_user (B := ref_bcrypt) [Byte.x24] sample_now empty_db
                 (lit "alice") long_password = Raise ValueError
  /\ (let w := run (U := ref_unicode) (B := ref_bcrypt) trace_long_password init_world in
      users (w_db w) = [] /\ st_reg (w_session w) = Some REG_PASSWORD).
Proof.
  split; [reflexivity|].
  split; [vm_compute; lia|].
  split; [vm_compute; lia|].
  split; [reflexivity|].
  cbv zeta. split; reflexivity.
Qed.

Lemma C7_verify_failures_indistinguishable_witness :
  verify_user (B := ref_bcrypt) db_alice (lit "bob") (lit "secret1")
  = verify_user (B := ref_bcrypt) db_alice (lit "alice") (lit "wrong")
  /\ verify_user (B := ref_bcrypt) db_alice (lit "bob") (lit "secret1") = Ok false.
Proof.
  assert (H72 : (List.length (encode (lit "wrong")) <= BCRYPT_MAX_BYTES)%nat)
    by (vm_compute; lia).
  assert (Hwrong : checkpw (B := ref_bcrypt) (encode (lit "wrong"))
                     (bcrypt_hash (Bcrypt := ref_bcrypt) (encode (lit "secret1"))
                                  [Byte.x24])
                   <> Ok true)
    by (vm_compute; discriminate).
  pose proof (C7_verify_failures_indistinguishable (B := ref_bcrypt) db_alice
                (lit "bob") (lit "alice")
                (mkuser 1 (lit "alice")
                   (bcrypt_hash (Bcrypt := ref_bcrypt) (encode (lit "secret1")) [Byte.x24])
                   (isoformat sample_now))
                (lit "secret1") (lit "wrong")
                eq_refl eq_refl H72 Hwrong) as H.
  split; [exact (proj1 H) | exact (proj1 (proj2 H))].
Defined.

(** C7 as stated fails for a wrong password that [bcrypt] does not
    take: with the same 73 letters, [verify_user] answers [False] for
    [bob], who has no account, and raises [ValueError] for [alice], who
    has one; the login dialogue ends with the notice of a failed login
    for [bob] and, for [alice], sends nothing and stays at its password
    step. *)
Lemma C7_counterexample :
  find_user db_alice (lit "bob") = None
  /\ find_user db_alice (lit "alice") <> None
  /\ long_password <> lit "secret1"
  /\ verify_user (B := ref_bcrypt) db_alice (lit "bob") long_password = Ok false
  /\ verify_user (B := ref_bcrypt) db_alice (lit "alice") long_password
     = Raise ValueError
  /\ (let w := mkworld db_alice
                 (mksession None (Some LOGIN_USERNAME) None None empty_user_data) in
      let bob := run (U := ref_unicode) (B := ref_bcrypt)
                     [(sample_env, Text (lit "bob")); (sample_env, Text long_password)] w in
      let alice := run (U := ref_unicode) (B := ref_bcrypt)
                       [(sample_env, Text (lit "alice")); (sample_env, Text long_password)]
                       w in
      st_login (w_session bob) = None
      /\ st_login (w_session alice) = Some LOGIN_PASSWORD
      /\ snd (process_update (U := ref_unicode) (B := ref_bcrypt) sample_env
                (Text long_password)
                (run (U := ref_unicode) (B := ref_bcrypt)
                     [(sample_env, Text (lit "bob"))] w))
         = [msg_login_failed]
      /\ snd (process_update (U := ref_unicode) (B := ref_bcrypt) sample_env
                (Text long_password)
                (run (U := ref_unicode) (B := ref_bcrypt)
                     [(sample_env, Text (lit "alice"))] w))
         = []).
Proof.
  split; [reflexivity|].
  split; [discriminate|].
  split; [discriminate|].
  split; [reflexivity|].
  split; [reflexivity|].
  cbv zeta. repeat split; reflexivity.
Qed.

(** ** Registration *)

Lemma names_ok_taken (db : database) (username : str) (u : user_row) :
  names_ok db -> find_user db username = Some u ->
  len_lt username 3 = false.
Proof.
  intros Hok Hfind. apply find_user_some in Hfind as [Hin <-].
  apply len_lt_false. unfold names_ok in Hok. rewrite Forall_forall in Hok.
  now apply Hok.
Qed.

Section Registration.
Context {B : Bcrypt}.

Lemma reg_username_db (e : env) (text : str) (db : database) (ud : user_data) :
  o_db (reg_username e text db ud) = db.
Proof.
  unfold reg_username.
  destruct (len_lt (strip text) 3); [reflexivity|].
  destruct (find_user db (strip text)); reflexivity.
Qed.

(** What [reg_password] does to the store: nothing, or the insertion of
    the name kept in [user_data] with the password just read, and that
    only for a password of six characters or more that [bcrypt] takes
    and a name that is free. *)
Lemma reg_password_db (e : env) (text : str) (db : database) (ud : user_data) :
  o_db (reg_password e text db ud) = db
  \/ exists username,
       ud_reg_username ud = Some username
       /\ len_lt (strip text) 6 = false
       /\ (List.length (encode (strip text)) <= BCRYPT_MAX_BYTES)%nat
       /\ find_user db username = None
       /\ create_user (env_salt e) (env_now e) db username (strip text)
          = Ok (o_db (reg_password e text db ud))
       /\ o_ret (reg_password e text db ud) = Ok (Some END).
Proof.
  unfold reg_password.
  destruct (len_lt (strip text) 6) eqn:Hlen; [now left|].
  destruct (ud_reg_username ud) as [username|] eqn:Hscratch; [|now left].
  destruct (create_user (env_salt e) (env_now e) db username (strip text))
    as [db'|ex] eqn:Hcreate; [|now left].
  destruct (create_user_inserted _ _ _ _ _ _ Hcreate) as (Hfree & Hbytes & _).
  right. exists username. now repeat split.
Qed.

(** The errors of registration, on any store and dictionary that
    satisfy the two facts above. *)
Lemma register_errors (e : env) (text : str) (db : database)
    (ud : user_data) :
  names_ok db -> reg_scratch_ok ud ->
  (* InvalidUsername *)
  (len_lt (strip text) 3 = true ->
   reg_username e text db ud
   = mkout db ud [msg_reg_short_username] (Ok (Some REG_USERNAME)))
  (* DuplicateUsername *)
  /\ (forall u, find_user db (strip text) = Some u ->
      reg_username e text db ud
      = mkout db ud [msg_reg_taken] (Ok (Some REG_USERNAME)))
  /\ (forall u username password, find_user db username = Some u ->
      create_user (env_salt e) (env_now e) db username password
      = Raise (if (BCRYPT_MAX_BYTES <? List.length (encode password))%nat
               then ValueError else IntegrityError))
  (* InvalidPassword *)
  /\ (len_lt (strip text) 6 = true ->
      reg_password e text db ud
      = mkout db ud [msg_reg_short_password] (Ok (Some REG_PASSWORD)))
  (* a user is created only when the three are avoided *)
  /\ o_db (reg_username e text db ud) = db
  /\ (o_db (reg_password e text db ud) <> db ->
      exists username,
        ud_reg_username ud = Some username
        /\ (3 <= List.length username)%nat
        /\ (6 <= List.length (strip text))%nat
        /\ find_user db username = None
        /\ users (o_db (reg_password e text db ud))
           = users db ++ [mkuser (users_seq db + 1) username
                                 (bcrypt_hash (encode (strip text)) (env_salt e))
                                 (isoformat (env_now e))]).
Proof.
  intros Hnames Hscratch.
  split; [|split; [|split; [|split; [|split]]]].
  - intros Hshort. unfold reg_username. now rewrite Hshort.
  - intros u Hfind. unfold reg_username.
    rewrite (names_ok_taken _ _ _ Hnames Hfind). now rewrite Hfind.
  - intros u username password Hfind.
    destruct (BCRYPT_MAX_BYTES <? List.length (encode password))%nat eqn:Hlong.
    + apply create_user_long. now apply Nat.ltb_lt.
    + apply create_user_taken with (u := u); [exact Hfind | now apply Nat.ltb_ge].
  - intros Hshort. unfold reg_password. now rewrite Hshort.
  - apply reg_username_db.
  - intros Hchanged.
    destruct (reg_password_db e text db ud)
      as [Hsame | (username & Hud & Hlen & Hbytes & Hfree & Hcreate & _)];
      [contradiction|].
    exists username. repeat split; try assumption.
    + now apply Hscratch.
    + now apply len_lt_false.
    + rewrite (create_user_free _ _ _ _ _ Hfree Hbytes) in Hcreate.
      injection Hcreate as <-. reflexivity.
Qed.

End Registration.

(** ** Reading an amount *)

Lemma remove_char_not_in (c : char) (s : str) : ~ In c (remove_char c s).
Proof.
  unfold remove_char. intros H. apply filter_In in H as [_ H].
  now rewrite N.eqb_refl in H.
Qed.

Lemma remove_char_keeps_out (c d : char) (s : str) :
  ~ In d s -> ~ In d (remove_char c s).
Proof.
  unfold remove_char. intros Hout H. apply filter_In in H as [H _]. now apply Hout.
Qed.

Lemma remove_char_rev (c : char) (s : str) :
  remove_char c (rev s) = rev (remove_char c s).
Proof. unfold remove_char. apply filter_rev. Qed.

Lemma amount_text_no_separator (text : str) :
  ~ In 46%N (amount_text text) /\ ~ In 44%N (amount_text text).
Proof.
  unfold amount_text. split.
  - apply remove_char_keeps_out, remove_char_not_in.
  - apply remove_char_not_in.
Qed.

Section Amount.
Context {U : UnicodeData}.

Lemma int_digits_decimal (s : str) (ds : list Z) :
  Forall2 decimal s ds ->
  forall acc, int_digits acc s = Ok (fold_left (fun a d => a * 10 + d) ds acc).
Proof.
  induction 1 as [|c d s ds Hc _ IH]; intros acc; simpl.
  - reflexivity.
  - unfold decimal in Hc. rewrite Hc. apply IH.
Qed.

Lemma forallb_isdigit_decimal (s : str) (ds : list Z) :
  Forall2 decimal s ds -> forallb Py_UNICODE_ISDIGIT s = true.
Proof.
  induction 1 as [|c d s ds Hc _ IH]; simpl.
  - reflexivity.
  - rewrite (todecimal_isdigit c d Hc). exact IH.
Qed.

Lemma isdigit_decimal (s : str) (ds : list Z) :
  s <> [] -> Forall2 decimal s ds -> isdigit s = true.
Proof.
  intros Hne H. destruct s as [|c s]; [contradiction|].
  unfold isdigit. now apply forallb_isdigit_decimal with (ds := ds).
Qed.

Lemma int_of_str_decimal (s : str) (ds : list Z) :
  s <> [] -> Forall2 decimal s ds -> int_of_str s = Ok (digits_value ds).
Proof.
  intros Hne H. destruct s as [|c s]; [contradiction|].
  unfold int_of_str, digits_value. now apply int_digits_decimal.
Qed.

Lemma ascii_decimal (c : char) :
  (48 <= c <= 57)%N -> decimal c (Z.of_N c - 48).
Proof. intros H. unfold decimal. now apply ascii_todecimal. Qed.

Lemma forallb_false_Exists {A : Type} (f : A -> bool) (l : list A) :
  forallb f l = false <-> Exists (fun c => f c = false) l.
Proof.
  induction l as [|x l IH]; cbn.
  - split; [discriminate | intros H; inversion H].
  - rewrite andb_false_iff, IH. split.
    + intros [H|H]; [now apply Exists_cons_hd | now apply Exists_cons_tl].
    + intros H. inversion H; subst; [now left | now right].
Qed.

(** [isdigit] fails exactly on the empty string and on a string that
    holds a character that is not a digit. *)
Lemma isdigit_false_iff (s : str) :
  isdigit s = false
  <-> s = [] \/ Exists (fun c => Py_UNICODE_ISDIGIT c = false) s.
Proof.
  destruct s as [|c s]; [split; [now left | reflexivity]|].
  change (isdigit (c :: s)) with (forallb Py_UNICODE_ISDIGIT (c :: s)).
  rewrite forallb_false_Exists. split; [now right|].
  intros [H|H]; [discriminate | exact H].
Qed.

Lemma in_amount_rejects (e : env) (text : str) (db : database) (ud : user_data) :
  isdigit (amount_text text) = false ->
  in_amount e text db ud = mkout db ud [msg_amount_not_digits] (Ok (Some IN_AMOUNT)).
Proof. intros H. unfold in_amount. now rewrite H. Qed.

Lemma out_amount_rejects (e : env) (text : str) (db : database) (ud : user_data) :
  isdigit (amount_text text) = false ->
  out_amount e text db ud = mkout db ud [msg_amount_not_digits] (Ok (Some OUT_AMOUNT)).
Proof. intros H. unfold out_amount. now rewrite H. Qed.

Lemma in_amount_accepts (e : env) (text : str) (db : database) (ud : user_data)
    (ds : list Z) :
  amount_text text <> [] -> Forall2 decimal (amount_text text) ds ->
  in_amount e text db ud
  = mkout db (set_tmp_amount (Some (digits_value ds)) ud) [msg_ask_note]
          (Ok (Some IN_NOTE)).
Proof.
  intros Hne Hds. unfold in_amount.
  rewrite (isdigit_decimal _ _ Hne Hds), (int_of_str_decimal _ _ Hne Hds).
  reflexivity.
Qed.

Lemma out_amount_accepts (e : env) (text : str) (db : database) (ud : user_data)
    (ds : list Z) :
  amount_text text <> [] -> Forall2 decimal (amount_text text) ds ->
  out_amount e text db ud
  = mkout db (set_tmp_amount (Some (digits_value ds)) ud) [msg_ask_note]
          (Ok (Some OUT_NOTE)).
Proof.
  intros Hne Hds. unfold out_amount.
  rewrite (isdigit_decimal _ _ Hne Hds), (int_of_str_decimal _ _ Hne Hds).
  reflexivity.
Qed.

(** A digit that has no decimal value (a superscript two, say) passes
    [isdigit] and makes [int] raise: the handler then ends in
    [ValueError], with nothing sent and nothing stored. *)
Lemma in_amount_raises (e : env) (text : str) (db : database) (ud : user_data) :
  isdigit (amount_text text) = true ->
  int_of_str (amount_text text) = Raise ValueError ->
  in_amount e text db ud = mkout db ud [] (Raise ValueError).
Proof. intros Hd Hi. unfold in_amount. now rewrite Hd, Hi. Qed.

Ltac ascii_digits :=
  repeat (first [apply Forall2_nil | apply Forall2_cons]);
  match goal with
  | |- decimal ?c ?d =>
      let c' := eval vm_compute in c in
      change (decimal c' (Z.of_N c' - 48)); apply ascii_decimal; lia
  end.

Lemma amount_50000 (text : str) :
  amount_text text = lit "50000" ->
  amount_text text <> [] /\ Forall2 decimal (amount_text text) [5; 0; 0; 0; 0].
Proof.
  intros ->. split; [discriminate|]. ascii_digits.
Qed.

Lemma amount_50 (text : str) :
  amount_text text = lit "50" ->
  amount_text text <> [] /\ Forall2 decimal (amount_text text) [5; 0].
Proof.
  intros ->. split; [discriminate|]. ascii_digits.
Qed.

Lemma isdigit_50a00 : isdigit (lit "50a00") = false.
Proof.
  cbn. rewrite !ascii_isdigit by lia. reflexivity.
Qed.

Lemma isdigit_padded_50 : isdigit (untrimmed_amount_text (lit " 50 ")) = false.
Proof.
  cbn. rewrite !ascii_isdigit by lia. reflexivity.
Qed.

(** C6, as amended: the handler first trims the input, then removes
    every [.] and [,].  When what remains is empty or holds a character
    that is not a digit, it sends the notice again and stays in the
    amount state, storing nothing.  When what remains is a non-empty
    string of decimal digits, it stores their decimal value and moves
    to the note state.  So ["50.000"] and ["50,000"] both store 50000
    and ["50a00"] is refused.  The same holds for money out. *)
Theorem C6_amount_step (e : env) (text : str) (db : database) (ud : user_data) :
  amount_text text = remove_char 44%N (remove_char 46%N (strip text))
  /\ ~ In 46%N (amount_text text) /\ ~ In 44%N (amount_text text)
  /\ (amount_text text = []
      \/ Exists (fun c => Py_UNICODE_ISDIGIT c = false) (amount_text text) ->
      in_amount e text db ud
      = mkout db ud [msg_amount_not_digits] (Ok (Some IN_AMOUNT))
      /\ out_amount e text db ud
         = mkout db ud [msg_amount_not_digits] (Ok (Some OUT_AMOUNT)))
  /\ (forall ds : list Z,
      amount_text text <> [] -> Forall2 decimal (amount_text text) ds ->
      in_amount e text db ud
      = mkout db (set_tmp_amount (Some (digits_value ds)) ud) [msg_ask_note]
              (Ok (Some IN_NOTE))
      /\ out_amount e text db ud
         = mkout db (set_tmp_amount (Some (digits_value ds)) ud) [msg_ask_note]
                 (Ok (Some OUT_NOTE)))
  /\ in_amount e (lit "50.000") db ud
     = mkout db (set_tmp_amount (Some 50000) ud) [msg_ask_note] (Ok (Some IN_NOTE))
  /\ in_amount e (lit "50,000") db ud
     = mkout db (set_tmp_amount (Some 50000) ud) [msg_ask_note] (Ok (Some IN_NOTE))
  /\ in_amount e (lit "50a00") db ud
     = mkout db ud [msg_amount_not_digits] (Ok (Some IN_AMOUNT)).
Proof.
  split; [reflexivity|].
  destruct (amount_text_no_separator text) as [Hdot Hcomma].
  split; [exact Hdot|]. split; [exact Hcomma|].
  split; [|split; [|split; [|split]]].
  - intros Hd. apply isdigit_false_iff in Hd.
    split; [now apply in_amount_rejects | now apply out_amount_rejects].
  - intros ds Hne Hds.
    split; [now apply in_amount_accepts | now apply out_amount_accepts].
  - destruct (amount_50000 (lit "50.000") eq_refl) as [Hne Hds].
    exact (in_amount_accepts e _ db ud _ Hne Hds).
  - destruct (amount_50000 (lit "50,000") eq_refl) as [Hne Hds].
    exact (in_amount_accepts e _ db ud _ Hne Hds).
  - apply in_amount_rejects. exact isdigit_50a00.
Qed.

(** Blanks around the digits are trimmed before the test: [" 50 "] is
    accepted, though with the separators removed and nothing trimmed it
    is not a string of digits. *)
Lemma in_amount_padded (e : env) (db : database) (ud : user_data) :
  isdigit (untrimmed_amount_text (lit " 50 ")) = false
  /\ in_amount e (lit " 50 ") db ud
     = mkout db (set_tmp_amount (Some 50) ud) [msg_ask_note] (Ok (Some IN_NOTE)).
Proof.
  split; [exact isdigit_padded_50|].
  destruct (amount_50 (lit " 50 ") eq_refl) as [Hne Hds].
  exact (in_amount_accepts e _ db ud _ Hne Hds).
Qed.

End Amount.

(** C6 as stated fails on an input with blanks around the digits. *)
Lemma C6_counterexample :
  isdigit (U := ref_unicode) (untrimmed_amount_text (lit " 50 ")) = false
  /\ in_amount (U := ref_unicode) sample_env (lit " 50 ") empty_db empty_user_data
     = mkout empty_db (set_tmp_amount (Some 50) empty_user_data) [msg_ask_note]
             (Ok (Some IN_NOTE)).
Proof. exact (in_amount_padded (U := ref_unicode) sample_env empty_db empty_user_data). Qed.

(** On the reference tables a superscript two is a digit without a
    decimal value: the handler raises. *)
Lemma in_amount_superscript :
  in_amount (U := ref_unicode) sample_env [0xB2%N] empty_db empty_user_data
  = mkout empty_db empty_user_data [] (Raise ValueError).
Proof. apply (in_amount_raises (U := ref_unicode)); reflexivity. Qed.

(** ** [rupiah] *)

Lemma list_ind3 {A : Type} (P : list A -> Prop) :
  P [] -> (forall a, P [a]) -> (forall a b, P [a; b]) ->
  (forall a b c, P [a; b; c]) ->
  (forall a b c d rest, P (d :: rest) -> P (a :: b :: c :: d :: rest)) ->
  forall l, P l.
Proof.
  intros H0 H1 H2 H3 Hstep l.
  assert (H : P l /\ (forall a, P (a :: l)) /\ (forall a b, P (a :: b :: l))).
  { induction l as [|x l (IH0 & IH1 & IH2)].
    - auto.
    - split; [exact (IH1 x)|]. split; [exact (fun a => IH2 a x)|].
      intros a b. destruct l as [|d rest]; [apply H3 | now apply Hstep]. }
  apply H.
Qed.

Lemma digits_le_spec (fuel : nat) :
  forall n, 0 <= n < 2 ^ Z.of_nat fuel ->
  le_value (digits_le fuel n) = n
  /\ Forall (fun d => 0 <= d <= 9) (digits_le fuel n).
Proof.
  induction fuel as [|fuel IH]; intros n Hn.
  - simpl in *. split; [lia | constructor].
  - cbn [digits_le]. destruct (n <? 10) eqn:Hlt.
    + apply Z.ltb_lt in Hlt. simpl. split; [lia|]. constructor; [lia | constructor].
    + apply Z.ltb_ge in Hlt.
      assert (Hdiv : 0 <= n / 10 < 2 ^ Z.of_nat fuel).
      { rewrite Nat2Z.inj_succ, Z.pow_succ_r in Hn by lia.
        split; [apply Z.div_pos; lia|].
        apply Z.div_lt_upper_bound; lia. }
      destruct (IH _ Hdiv) as [Hval Hall].
      cbn [le_value]. rewrite Hval. split.
      * pose proof (Z.div_mod n 10 ltac:(lia)). lia.
      * constructor; [|exact Hall].
        pose proof (Z.mod_pos_bound n 10 ltac:(lia)). lia.
Qed.

Lemma digits_le_nonempty (fuel : nat) (n : Z) : digits_le (S fuel) n <> [].
Proof. simpl. destruct (n <? 10); discriminate. Qed.

Lemma digit_fuel_enough (n : Z) :
  0 <= n -> 0 <= n < 2 ^ Z.of_nat (digit_fuel n).
Proof.
  intros Hn. split; [exact Hn|]. unfold digit_fuel.
  rewrite Nat2Z.inj_succ, Z2Nat.id by apply Z.log2_nonneg.
  destruct (Z.eq_dec n 0) as [->|Hnz].
  - reflexivity.
  - apply Z.log2_spec. lia.
Qed.

Lemma digit_char_ascii (d : Z) :
  0 <= d <= 9 -> is_ascii_digit (digit_char d) = true.
Proof.
  intros Hd. unfold is_ascii_digit, digit_char.
  apply andb_true_intro. split; apply N.leb_le; lia.
Qed.

Lemma digit_chars_ascii (ds : list Z) :
  Forall (fun d => 0 <= d <= 9) ds ->
  Forall (fun c => is_ascii_digit c = true) (map digit_char ds).
Proof.
  induction 1 as [|d ds Hd _ IH]; simpl; constructor.
  - now apply digit_char_ascii.
  - exact IH.
Qed.

Lemma ascii_digit_range (c : char) :
  is_ascii_digit c = true -> (48 <= c <= 57)%N.
Proof.
  unfold is_ascii_digit. intros H. apply andb_prop in H as [H1 H2].
  apply N.leb_le in H1. apply N.leb_le in H2. lia.
Qed.

Lemma ascii_digit_not (c s : char) :
  is_ascii_digit c = true -> (s < 48)%N -> (c =? s)%N = false.
Proof.
  intros Hc Hs. apply ascii_digit_range in Hc. apply N.eqb_neq. lia.
Qed.

Lemma group3_le_step (sep a b c d : char) (rest : list char) :
  group3_le sep (a :: b :: c :: d :: rest)
  = a :: b :: c :: sep :: group3_le sep (d :: rest).
Proof. reflexivity. Qed.

(** Replacing the separator of a grouped list of digits is grouping
    with the other separator. *)
Lemma replace_group3 (l : list char) :
  Forall (fun c => is_ascii_digit c = true) l ->
  replace_char 44%N 46%N (group3_le 44%N l) = group3_le 46%N l.
Proof.
  assert (Hkeep : forall c, is_ascii_digit c = true ->
                            (if (c =? 44)%N then 46%N else c) = c).
  { intros c Hc. rewrite (ascii_digit_not c 44%N Hc); [reflexivity | lia]. }
  induction l as [| a | a b | a b c | a b c d rest IH] using list_ind3;
    intros Hall; unfold replace_char in *; [simpl .. |].
  - reflexivity.
  - inversion_clear Hall. now rewrite Hkeep.
  - inversion_clear Hall as [|? ? Ha Hall']. inversion_clear Hall'.
    now rewrite !Hkeep.
  - inversion_clear Hall as [|? ? Ha Hall']. inversion_clear Hall' as [|? ? Hb Hall''].
    inversion_clear Hall''. now rewrite !Hkeep.
  - inversion_clear Hall as [|? ? Ha Hall']. inversion_clear Hall' as [|? ? Hb Hall''].
    inversion_clear Hall'' as [|? ? Hc Hrest].
    rewrite !group3_le_step. cbn [map].
    rewrite !Hkeep by assumption. rewrite N.eqb_refl.
    now rewrite (IH Hrest).
Qed.

(** Removing the separator gives the digits back. *)
Lemma remove_group3 (l : list char) :
  Forall (fun c => is_ascii_digit c = true) l ->
  remove_char 46%N (group3_le 46%N l) = l.
Proof.
  assert (Hkeep : forall c, is_ascii_digit c = true -> negb (c =? 46)%N = true).
  { intros c Hc. rewrite (ascii_digit_not c 46%N Hc); [reflexivity | lia]. }
  induction l as [| a | a b | a b c | a b c d rest IH] using list_ind3;
    intros Hall; unfold remove_char in *.
  - reflexivity.
  - inversion_clear Hall. simpl. now rewrite Hkeep.
  - inversion_clear Hall as [|? ? Ha Hall']. inversion_clear Hall'.
    simpl. now rewrite !Hkeep.
  - inversion_clear Hall as [|? ? Ha Hall']. inversion_clear Hall' as [|? ? Hb Hall''].
    inversion_clear Hall''. simpl. now rewrite !Hkeep.
  - inversion_clear Hall as [|? ? Ha Hall']. inversion_clear Hall' as [|? ? Hb Hall''].
    inversion_clear Hall'' as [|? ? Hc Hrest].
    rewrite group3_le_step. cbn [filter]. rewrite !Hkeep by assumption.
    rewrite N.eqb_refl. cbn [negb]. now rewrite (IH Hrest).
Qed.

Lemma grouped_group3 (l : list char) :
  l <> [] -> Forall (fun c => is_ascii_digit c = true) l ->
  grouped_le (group3_le 46%N l) = true.
Proof.
  induction l as [| a | a b | a b c | a b c d rest IH] using list_ind3;
    intros Hne Hall.
  - contradiction.
  - inversion_clear Hall. assumption.
  - inversion_clear Hall as [|? ? Ha Hall']. inversion_clear Hall' as [|? ? Hb _].
    simpl. now rewrite Ha, Hb.
  - inversion_clear Hall as [|? ? Ha Hall']. inversion_clear Hall' as [|? ? Hb Hall''].
    inversion_clear Hall'' as [|? ? Hc _]. simpl. now rewrite Ha, Hb, Hc.
  - inversion_clear Hall as [|? ? Ha Hall']. inversion_clear Hall' as [|? ? Hb Hall''].
    inversion_clear Hall'' as [|? ? Hc Hrest].
    rewrite group3_le_step. cbn [grouped_le].
    rewrite Ha, Hb, Hc, N.eqb_refl. cbn [andb].
    apply IH; [discriminate | exact Hrest].
Qed.

(** For a non-negative amount, [rupiah] is the prefix followed by the
    digits of the amount in groups of three. *)
Lemma rupiah_nonneg (n : Z) :
  0 <= n ->
  rupiah n
  = lit "Rp." ++ rev (group3_le 46%N (map digit_char (digits_le (digit_fuel n) n))).
Proof.
  intros Hn. unfold rupiah, format_comma.
  assert (Hneg : (n <? 0) = false) by (apply Z.ltb_ge; exact Hn).
  rewrite Hneg, Z.abs_eq by exact Hn. cbn [app].
  f_equal. unfold replace_char. rewrite map_rev. f_equal.
  apply replace_group3, digit_chars_ascii.
  apply (digits_le_spec _ _ (digit_fuel_enough n Hn)).
Qed.

Section RupiahReadBack.
Context {U : UnicodeData}.

Lemma int_digits_snoc (s : str) (c : char) (v : Z) :
  Py_UNICODE_TODECIMAL c = Some v ->
  forall acc a, int_digits acc s = Ok a ->
  int_digits acc (s ++ [c]) = Ok (a * 10 + v).
Proof.
  intros Hc. induction s as [|x s IH]; intros acc a; simpl.
  - intros [= <-]. now rewrite Hc.
  - destruct (Py_UNICODE_TODECIMAL x); [apply IH | discriminate].
Qed.

Lemma int_digits_rev (ds : list Z) :
  Forall (fun d => 0 <= d <= 9) ds ->
  int_digits 0 (rev (map digit_char ds)) = Ok (le_value ds).
Proof.
  induction 1 as [|d ds Hd _ IH]; cbn [le_value map rev].
  - reflexivity.
  - assert (Hdec : Py_UNICODE_TODECIMAL (digit_char d) = Some d).
    { unfold digit_char. rewrite ascii_todecimal by lia. f_equal. lia. }
    rewrite (int_digits_snoc _ _ _ Hdec 0 (le_value ds) IH).
    f_equal. lia.
Qed.

(** Reading the digits of [rupiah n] back with [int] gives [n]. *)
Lemma rupiah_read_back (n : Z) :
  0 <= n ->
  exists body,
    rupiah n = lit "Rp." ++ body
    /\ grouped_le (rev body) = true
    /\ int_of_str (remove_char 46%N body) = Ok n.
Proof.
  intros Hn.
  pose proof (digits_le_spec _ _ (digit_fuel_enough n Hn)) as [Hval Hall].
  pose proof (digit_chars_ascii _ Hall) as Hascii.
  set (ds := digits_le (digit_fuel n) n) in *.
  exists (rev (group3_le 46%N (map digit_char ds))).
  split; [now apply rupiah_nonneg|]. split.
  - rewrite rev_involutive. apply grouped_group3; [|exact Hascii].
    subst ds. unfold digit_fuel. intros Hnil. apply map_eq_nil in Hnil.
    now apply digits_le_nonempty in Hnil.
  - rewrite remove_char_rev, (remove_group3 _ Hascii).
    unfold int_of_str.
    destruct (rev (map digit_char ds)) eqn:Hrev.
    + exfalso. apply (f_equal (@List.length _)) in Hrev.
      rewrite length_rev, length_map in Hrev. subst ds. unfold digit_fuel in Hrev.
      destruct (digits_le _ n) eqn:Hd; [now apply digits_le_nonempty in Hd | discriminate].
    + rewrite <- Hrev, (int_digits_rev _ Hall). now rewrite Hval.
Qed.

End RupiahReadBack.

(** ** The note step *)

Lemma note_of_dash (text : str) : strip text = lit "-" -> note_of text = None.
Proof. intros H. unfold note_of. now rewrite H. Qed.

Lemma note_of_text (text : str) :
  strip text <> lit "-" -> note_of text = Some (strip text).
Proof.
  intros H. unfold note_of. apply str_eqb_neq in H. now rewrite H.
Qed.

Lemma sqlite_integer_spec (n : Z) :
  sqlite_integer n = true <-> SQLITE_MIN_INTEGER <= n <= SQLITE_MAX_INTEGER.
Proof. unfold sqlite_integer. rewrite andb_true_iff, !Z.leb_le. tauto. Qed.

Lemma sqlite_integer_nonneg (n : Z) :
  0 <= n <= SQLITE_MAX_INTEGER -> sqlite_integer n = true.
Proof.
  intros H. apply sqlite_integer_spec. unfold SQLITE_MIN_INTEGER. lia.
Qed.

Lemma add_tx_records (now : datetime) (db : database) (uid : Z) (ty : tx_type)
    (amount : Z) (note : option str) :
  0 <= amount <= SQLITE_MAX_INTEGER ->
  add_tx now db uid ty amount note = Ok (with_tx db now uid ty amount note).
Proof.
  intros H. unfold add_tx. rewrite (sqlite_integer_nonneg _ H). cbn [negb].
  destruct H as [H _]. apply Z.ltb_ge in H. now rewrite H.
Qed.

Lemma add_tx_overflow (now : datetime) (db : database) (uid : Z) (ty : tx_type)
    (amount : Z) (note : option str) :
  SQLITE_MAX_INTEGER < amount ->
  add_tx now db uid ty amount note = Raise OverflowError.
Proof.
  intros H. unfold add_tx.
  destruct (sqlite_integer amount) eqn:Hfit; [|reflexivity].
  apply sqlite_integer_spec in Hfit. lia.
Qed.

(** [add_tx] inserts only an amount that the column takes. *)
Lemma add_tx_inserted (now : datetime) (db db' : database) (uid : Z) (ty : tx_type)
    (amount : Z) (note : option str) :
  add_tx now db uid ty amount note = Ok db' ->
  0 <= amount <= SQLITE_MAX_INTEGER /\ db' = with_tx db now uid ty amount note.
Proof.
  unfold add_tx. destruct (sqlite_integer amount) eqn:Hfit; [|discriminate].
  cbn [negb]. destruct (amount <? 0) eqn:Hneg; [discriminate|].
  intros [= <-]. apply sqlite_integer_spec in Hfit. apply Z.ltb_ge in Hneg.
  split; [lia | reflexivity].
Qed.

Lemma in_note_records (e : env) (text : str) (db : database) (ud : user_data)
    (uid : Z) :
  ud_user_id ud = Some uid -> 0 <= pending_amount ud <= SQLITE_MAX_INTEGER ->
  in_note e text db ud
  = mkout (with_tx db (env_now e) uid IN (pending_amount ud) (note_of text))
          (set_tmp_amount None ud)
          [msg_in_recorded (pending_amount ud)] (Ok (Some END)).
Proof.
  intros Huid Hamount. unfold in_note. cbn [set_tmp_amount ud_user_id].
  rewrite Huid. fold (pending_amount ud).
  now rewrite (add_tx_records _ _ _ _ _ _ Hamount).
Qed.

Lemma out_note_records (e : env) (text : str) (db : database) (ud : user_data)
    (uid : Z) :
  ud_user_id ud = Some uid -> 0 <= pending_amount ud <= SQLITE_MAX_INTEGER ->
  out_note e text db ud
  = mkout (with_tx db (env_now e) uid OUT (pending_amount ud) (note_of text))
          (set_tmp_amount None ud)
          [msg_out_recorded (pending_amount ud)] (Ok (Some END)).
Proof.
  intros Huid Hamount. unfold out_note. cbn [set_tmp_amount ud_user_id].
  rewrite Huid. fold (pending_amount ud).
  now rewrite (add_tx_records _ _ _ _ _ _ Hamount).
Qed.

(** Without a login the handler raises after it has dropped the amount. *)
Lemma in_note_logged_out (e : env) (text : str) (db : database) (ud : user_data) :
  ud_user_id ud = None ->
  in_note e text db ud
  = mkout db (set_tmp_amount None ud) [] (Raise (KeyError "user_id")).
Proof.
  intros Huid. unfold in_note. cbn [set_tmp_amount ud_user_id]. now rewrite Huid.
Qed.

(** C10, as amended: when the note step runs for a logged-in user with
    no pending amount in [user_data], it does not fail: it records a
    transaction of amount 0 with the note read, confirms it with
    [Rp.0] and ends the dialogue. *)
Theorem C10_note_without_amount (e : env) (text : str) (db : database)
    (ud : user_data) (uid : Z) :
  ud_tmp_amount ud = None -> ud_user_id ud = Some uid ->
  in_note e text db ud
  = mkout (with_tx db (env_now e) uid IN 0 (note_of text))
          (set_tmp_amount None ud)
          [check_mark ++ lit " Uang masuk tercatat: Rp.0"] (Ok (Some END))
  /\ out_note e text db ud
     = mkout (with_tx db (env_now e) uid OUT 0 (note_of text))
             (set_tmp_amount None ud)
             [check_mark ++ lit " Uang keluar tercatat: Rp.0"] (Ok (Some END)).
Proof.
  intros Hnone Huid.
  assert (Hpending : pending_amount ud = 0).
  { unfold pending_amount. now rewrite Hnone. }
  assert (Hamount : 0 <= pending_amount ud <= SQLITE_MAX_INTEGER).
  { rewrite Hpending. unfold SQLITE_MAX_INTEGER. lia. }
  split.
  - rewrite (in_note_records e text db ud uid Huid Hamount), Hpending. reflexivity.
  - rewrite (out_note_records e text db ud uid Huid Hamount), Hpending. reflexivity.
Qed.

Lemma C10_note_without_amount_witness :
  in_note sample_env (lit "lunch") db_alice ud_alice
  = mkout (with_tx db_alice sample_now 1 IN 0 (Some (lit "lunch")))
          ud_alice
          [check_mark ++ lit " Uang masuk tercatat: Rp.0"] (Ok (Some END)).
Proof.
  exact (proj1 (C10_note_without_amount sample_env (lit "lunch") db_alice ud_alice 1
                  eq_refl eq_refl)).
Defined.

(* ================================================================= *)
(** ** The calendar *)

Ltac bool_cases :=
  repeat match goal with
  | |- context [?a =? ?b] => destruct (Z.eqb_spec a b)
  | |- context [?a <? ?b] => destruct (Z.ltb_spec a b)
  | |- context [?a <=? ?b] => destruct (Z.leb_spec a b)
  end.

(** Splits a month known to lie in [1..12] into its twelve values. *)
Ltac month_cases m :=
  let H := fresh "Hm" in
  assert (H : m = 1 \/ m = 2 \/ m = 3 \/ m = 4 \/ m = 5 \/ m = 6 \/ m = 7
              \/ m = 8 \/ m = 9 \/ m = 10 \/ m = 11 \/ m = 12) by lia;
  repeat (destruct H as [H | H]; [subst m |]); [.. | subst m].

Lemma days_before_year_succ (y : Z) :
  days_before_year (y + 1) = days_before_year y + year_length y.
Proof.
  unfold days_before_year, year_length, is_leap.
  replace (y + 1 - 1) with y by lia.
  bool_cases; cbn [negb orb andb]; Z.div_mod_to_equations; lia.
Qed.

Lemma year_length_bounds (y : Z) : 365 <= year_length y <= 366.
Proof. unfold year_length. destruct (is_leap y); lia. Qed.

Lemma days_before_year_mono (y y' : Z) :
  y <= y' -> days_before_year y + 365 * (y' - y) <= days_before_year y'.
Proof.
  intros Hle. replace y' with (y + Z.of_nat (Z.to_nat (y' - y))) by lia.
  induction (Z.to_nat (y' - y)) as [|k IH].
  - rewrite Z.add_0_r. lia.
  - rewrite Nat2Z.inj_succ.
    replace (y + Z.succ (Z.of_nat k)) with (y + Z.of_nat k + 1) by lia.
    rewrite days_before_year_succ.
    pose proof (year_length_bounds (y + Z.of_nat k)). lia.
Qed.

Lemma days_in_month_bounds (y m : Z) : 28 <= days_in_month y m <= 31.
Proof.
  unfold days_in_month.
  destruct ((m =? 2) && is_leap y); [lia|].
  destruct (m =? 2); [lia|].
  destruct ((m =? 4) || (m =? 6) || (m =? 9) || (m =? 11)); lia.
Qed.

Lemma days_before_month_succ (y m : Z) :
  1 <= m <= 11 ->
  days_before_month y (m + 1) = days_before_month y m + days_in_month y m.
Proof.
  intros Hm. unfold days_before_month, days_in_month.
  month_cases m; try lia; destruct (is_leap y); reflexivity.
Qed.

Lemma days_before_month_december (y : Z) :
  days_before_month y 12 + days_in_month y 12 = year_length y.
Proof.
  unfold days_before_month, days_in_month, year_length.
  destruct (is_leap y); reflexivity.
Qed.

Lemma days_before_month_january (y : Z) : days_before_month y 1 = 0.
Proof. unfold days_before_month. simpl. reflexivity. Qed.

Lemma month_start_next (y m : Z) :
  1 <= m <= 12 ->
  month_start y m + days_in_month y m
  = if m <? 12 then month_start y (m + 1) else month_start (y + 1) 1.
Proof.
  intros Hm. unfold month_start. destruct (Z.ltb_spec m 12).
  - rewrite days_before_month_succ by lia. lia.
  - replace m with 12 by lia.
    rewrite days_before_year_succ, days_before_month_january.
    pose proof (days_before_month_december y). lia.
Qed.

(** Months in lexicographic order start in chronological order. *)
Lemma month_start_steps (y m : Z) (k : nat) :
  1 <= m -> m + 1 + Z.of_nat k <= 12 ->
  month_start y m + days_in_month y m <= month_start y (m + 1 + Z.of_nat k).
Proof.
  intros Hlo. induction k as [|k IH]; intros Hhi.
  - rewrite Z.add_0_r. rewrite month_start_next by lia.
    destruct (Z.ltb_spec m 12); lia.
  - rewrite Nat2Z.inj_succ in *.
    assert (Hk : m + 1 + Z.of_nat k <= 12) by lia.
    specialize (IH Hk).
    pose proof (month_start_next y (m + 1 + Z.of_nat k) ltac:(lia)) as Hnext.
    destruct (Z.ltb_spec (m + 1 + Z.of_nat k) 12); [|lia].
    replace (m + 1 + Z.succ (Z.of_nat k)) with (m + 1 + Z.of_nat k + 1) by lia.
    pose proof (days_in_month_bounds y (m + 1 + Z.of_nat k)). lia.
Qed.

Lemma month_start_same_year (y m m' : Z) :
  1 <= m -> m < m' -> m' <= 12 ->
  month_start y m + days_in_month y m <= month_start y m'.
Proof.
  intros Hlo Hlt Hhi.
  pose proof (month_start_steps y m (Z.to_nat (m' - m - 1)) Hlo) as H.
  replace (m + 1 + Z.of_nat (Z.to_nat (m' - m - 1))) with m' in H by lia.
  apply H. lia.
Qed.

Lemma month_start_year_end (y m : Z) :
  1 <= m <= 12 -> month_start y m + days_in_month y m <= month_start (y + 1) 1.
Proof.
  intros Hm. destruct (Z.eq_dec m 12) as [->|Hne].
  - rewrite month_start_next by lia. simpl. lia.
  - pose proof (month_start_same_year y m 12 ltac:(lia) ltac:(lia) ltac:(lia)).
    pose proof (month_start_next y 12 ltac:(lia)) as H12. simpl in H12.
    pose proof (days_in_month_bounds y 12). lia.
Qed.

Lemma month_start_january_le (y m : Z) :
  1 <= m <= 12 -> month_start y 1 <= month_start y m.
Proof.
  intros Hm. destruct (Z.eq_dec m 1) as [->|Hne]; [lia|].
  pose proof (month_start_same_year y 1 m ltac:(lia) ltac:(lia) ltac:(lia)).
  pose proof (days_in_month_bounds y 1). lia.
Qed.

Lemma month_start_mono (y m y' m' : Z) :
  1 <= m <= 12 -> 1 <= m' <= 12 -> month_before y m y' m' ->
  month_start y m + days_in_month y m <= month_start y' m'.
Proof.
  intros Hm Hm' [Hy | [-> Hlt]].
  - pose proof (month_start_year_end y m Hm).
    pose proof (month_start_january_le y' m' Hm').
    pose proof (days_before_year_mono (y + 1) y' ltac:(lia)).
    unfold month_start in *. rewrite !days_before_month_january in *. lia.
  - apply month_start_same_year; lia.
Qed.

(** *** Validity *)

Lemma valid_date_spec (y m d : Z) :
  valid_date y m d = true <->
  MINYEAR <= y <= MAXYEAR /\ 1 <= m <= 12 /\ 1 <= d <= days_in_month y m.
Proof.
  unfold valid_date. rewrite !andb_true_iff, !Z.leb_le. lia.
Qed.

Lemma valid_time_spec (h mi s us : Z) :
  valid_time h mi s us = true <->
  0 <= h < 24 /\ 0 <= mi < 60 /\ 0 <= s < 60 /\ 0 <= us < 1000000.
Proof.
  unfold valid_time. rewrite !andb_true_iff, !Z.leb_le, !Z.ltb_lt. lia.
Qed.

Lemma valid_datetime_spec (d : datetime) :
  valid_datetime d = true <->
  (MINYEAR <= year d <= MAXYEAR /\ 1 <= month d <= 12
   /\ 1 <= day d <= days_in_month (year d) (month d))
  /\ (0 <= hour d < 24 /\ 0 <= minute d < 60 /\ 0 <= second d < 60
      /\ 0 <= microsecond d < 1000000).
Proof.
  unfold valid_datetime. now rewrite andb_true_iff, valid_date_spec, valid_time_spec.
Qed.

(** *** Ordinals *)

Lemma toordinal_month_start (d : datetime) :
  toordinal d = month_start (year d) (month d) + day d.
Proof. reflexivity. Qed.

(** Dates in lexicographic order have ordinals in the same order. *)
Lemma toordinal_lt (a b : datetime) :
  valid_datetime a = true -> valid_datetime b = true ->
  date_before a b -> toordinal a < toordinal b.
Proof.
  intros Ha Hb Hlt.
  apply valid_datetime_spec in Ha as [(_ & Hma & Hda) _].
  apply valid_datetime_spec in Hb as [(_ & Hmb & Hdb) _].
  rewrite !toordinal_month_start.
  destruct Hlt as [Hmonth | (Hy & Hm & Hd)].
  - pose proof (month_start_mono _ _ _ _ Hma Hmb Hmonth). lia.
  - rewrite Hy, Hm. lia.
Qed.

Lemma date_trichotomy (a b : datetime) :
  date_before a b \/ date_before b a
  \/ (year a = year b /\ month a = month b /\ day a = day b).
Proof. unfold date_before, month_before. lia. Qed.

Lemma toordinal_inj (a b : datetime) :
  valid_datetime a = true -> valid_datetime b = true ->
  toordinal a = toordinal b ->
  year a = year b /\ month a = month b /\ day a = day b.
Proof.
  intros Ha Hb Heq.
  destruct (date_trichotomy a b) as [Hlt | [Hgt | Hsame]].
  - pose proof (toordinal_lt a b Ha Hb Hlt). lia.
  - pose proof (toordinal_lt b a Hb Ha Hgt). lia.
  - exact Hsame.
Qed.

Lemma toordinal_bounds (d : datetime) :
  valid_datetime d = true -> 1 <= toordinal d <= MAXORDINAL.
Proof.
  intros Hd. pose proof Hd as Hv.
  apply valid_datetime_spec in Hv as [(Hy & Hm & Hday) _].
  rewrite toordinal_month_start. unfold MINYEAR, MAXYEAR in Hy. split.
  - pose proof (month_start_january_le (year d) (month d) Hm) as H1.
    pose proof (days_before_year_mono 1 (year d) ltac:(lia)) as H2.
    unfold month_start in *. rewrite days_before_month_january in H1.
    change (days_before_year 1) with 0 in H2. lia.
  - pose proof (month_start_year_end (year d) (month d) Hm) as H1.
    pose proof (days_before_year_mono (year d + 1) 10000 ltac:(lia)) as H2.
    unfold month_start in H1 at 2. rewrite days_before_month_january in H1.
    change (days_before_year 10000) with 3652059 in H2. unfold MAXORDINAL. lia.
Qed.

(** *** One day later, one day earlier *)

Lemma next_day_ok (d d' : datetime) :
  valid_datetime d = true -> next_day d = Ok d' ->
  valid_datetime d' = true /\ toordinal d' = toordinal d + 1 /\ same_time d' d.
Proof.
  intros Hd. pose proof Hd as Hv.
  apply valid_datetime_spec in Hv as [(Hy & Hm & Hday) Ht].
  pose proof (days_in_month_bounds (year d) (month d + 1)).
  pose proof (days_in_month_bounds (year d + 1) 1).
  unfold next_day, MINYEAR, MAXYEAR in *.
  destruct (Z.ltb_spec (day d) (days_in_month (year d) (month d)));
    [|destruct (Z.ltb_spec (month d) 12); [|destruct (Z.ltb_spec (year d) 9999)]];
    intros [= <-]; (split; [|split]);
    try (apply valid_datetime_spec; cbn; unfold MINYEAR, MAXYEAR; lia);
    try (unfold same_time; cbn; tauto);
    rewrite !toordinal_month_start; cbn [year month day].
  - lia.
  - pose proof (month_start_next (year d) (month d) Hm) as Hn.
    destruct (Z.ltb_spec (month d) 12); lia.
  - pose proof (month_start_next (year d) (month d) Hm) as Hn.
    destruct (Z.ltb_spec (month d) 12); lia.
Qed.

Lemma next_day_total (d : datetime) :
  valid_datetime d = true -> toordinal d < MAXORDINAL ->
  exists d', next_day d = Ok d'.
Proof.
  intros Hd Hlt. pose proof Hd as Hv.
  apply valid_datetime_spec in Hv as [(Hy & Hm & Hday) Ht].
  unfold next_day, MINYEAR, MAXYEAR in *.
  destruct (Z.ltb_spec (day d) (days_in_month (year d) (month d)));
    [eexists; reflexivity|].
  destruct (Z.ltb_spec (month d) 12); [eexists; reflexivity|].
  destruct (Z.ltb_spec (year d) 9999); [eexists; reflexivity|].
  exfalso. rewrite toordinal_month_start in Hlt.
  replace (year d) with 9999 in * by lia. replace (month d) with 12 in * by lia.
  change (days_in_month 9999 12) with 31 in *.
  change (month_start 9999 12) with 3652028 in Hlt. unfold MAXORDINAL in Hlt. lia.
Qed.

Lemma prev_day_ok (d d' : datetime) :
  valid_datetime d = true -> prev_day d = Ok d' ->
  valid_datetime d' = true /\ toordinal d' = toordinal d - 1 /\ same_time d' d.
Proof.
  intros Hd. pose proof Hd as Hv.
  apply valid_datetime_spec in Hv as [(Hy & Hm & Hday) Ht].
  pose proof (days_in_month_bounds (year d) (month d - 1)).
  unfold prev_day, MINYEAR, MAXYEAR in *.
  destruct (Z.ltb_spec 1 (day d));
    [|destruct (Z.ltb_spec 1 (month d)); [|destruct (Z.ltb_spec 1 (year d))]];
    intros [= <-]; (split; [|split]);
    try (apply valid_datetime_spec; cbn; unfold MINYEAR, MAXYEAR;
         change (days_in_month (year d - 1) 12) with 31; lia);
    try (unfold same_time; cbn; tauto);
    rewrite !toordinal_month_start; cbn [year month day].
  - lia.
  - pose proof (month_start_next (year d) (month d - 1) ltac:(lia)) as Hn.
    replace (month d - 1 + 1) with (month d) in Hn by lia.
    destruct (Z.ltb_spec (month d - 1) 12); lia.
  - pose proof (month_start_next (year d - 1) 12 ltac:(lia)) as Hn.
    change (12 <? 12) with false in Hn. cbv iota in Hn.
    replace (year d - 1 + 1) with (year d) in Hn by lia.
    change (days_in_month (year d - 1) 12) with 31 in Hn.
    replace (month d) with 1 by lia. lia.
Qed.

Lemma prev_day_total (d : datetime) :
  valid_datetime d = true -> 1 < toordinal d ->
  exists d', prev_day d = Ok d'.
Proof.
  intros Hd Hlt. pose proof Hd as Hv.
  apply valid_datetime_spec in Hv as [(Hy & Hm & Hday) Ht].
  unfold prev_day, MINYEAR, MAXYEAR in *.
  destruct (Z.ltb_spec 1 (day d)); [eexists; reflexivity|].
  destruct (Z.ltb_spec 1 (month d)); [eexists; reflexivity|].
  destruct (Z.ltb_spec 1 (year d)); [eexists; reflexivity|].
  exfalso. rewrite toordinal_month_start in Hlt.
  replace (year d) with 1 in * by lia. replace (month d) with 1 in * by lia.
  change (month_start 1 1) with 0 in Hlt. lia.
Qed.

Lemma iter_next_day_ok (k : nat) :
  forall d d', valid_datetime d = true -> iter_res k next_day d = Ok d' ->
  valid_datetime d' = true /\ toordinal d' = toordinal d + Z.of_nat k
  /\ same_time d' d.
Proof.
  induction k as [|k IH]; intros d d' Hd; cbn [iter_res].
  - intros [= <-]. unfold same_time. repeat split; try assumption; lia.
  - destruct (next_day d) as [d1|] eqn:Hnext; [|discriminate]. cbn [bind].
    destruct (next_day_ok d d1 Hd Hnext) as (Hv1 & Ho1 & Ht1).
    intros Hiter. destruct (IH d1 d' Hv1 Hiter) as (Hv & Ho & Ht).
    unfold same_time in *. repeat split; try assumption; try lia; congruence.
Qed.

Lemma iter_next_day_total (k : nat) :
  forall d, valid_datetime d = true -> toordinal d + Z.of_nat k <= MAXORDINAL ->
  exists d', iter_res k next_day d = Ok d'.
Proof.
  induction k as [|k IH]; intros d Hd Hle; cbn [iter_res].
  - eexists; reflexivity.
  - destruct (next_day_total d Hd ltac:(lia)) as [d1 Hnext].
    rewrite Hnext. cbn [bind].
    destruct (next_day_ok d d1 Hd Hnext) as (Hv1 & Ho1 & _).
    apply IH; [exact Hv1 | lia].
Qed.

Lemma iter_prev_day_ok (k : nat) :
  forall d d', valid_datetime d = true -> iter_res k prev_day d = Ok d' ->
  valid_datetime d' = true /\ toordinal d' = toordinal d - Z.of_nat k
  /\ same_time d' d.
Proof.
  induction k as [|k IH]; intros d d' Hd; cbn [iter_res].
  - intros [= <-]. unfold same_time. repeat split; try assumption; lia.
  - destruct (prev_day d) as [d1|] eqn:Hprev; [|discriminate]. cbn [bind].
    destruct (prev_day_ok d d1 Hd Hprev) as (Hv1 & Ho1 & Ht1).
    intros Hiter. destruct (IH d1 d' Hv1 Hiter) as (Hv & Ho & Ht).
    unfold same_time in *. repeat split; try assumption; try lia; congruence.
Qed.

Lemma iter_prev_day_total (k : nat) :
  forall d, valid_datetime d = true -> 1 <= toordinal d - Z.of_nat k ->
  exists d', iter_res k prev_day d = Ok d'.
Proof.
  induction k as [|k IH]; intros d Hd Hle; cbn [iter_res].
  - eexists; reflexivity.
  - destruct (prev_day_total d Hd ltac:(lia)) as [d1 Hprev].
    rewrite Hprev. cbn [bind].
    destruct (prev_day_ok d d1 Hd Hprev) as (Hv1 & Ho1 & _).
    apply IH; [exact Hv1 | lia].
Qed.

(** [d + timedelta(days=n)] is addition on ordinals. *)
Lemma toordinal_add_days (d d' : datetime) (n : Z) :
  valid_datetime d = true -> add_days d n = Ok d' ->
  valid_datetime d' = true /\ toordinal d' = toordinal d + n /\ same_time d' d.
Proof.
  intros Hd. unfold add_days. destruct (Z.leb_spec 0 n); intros Hadd.
  - destruct (iter_next_day_ok _ _ _ Hd Hadd) as (Hv & Ho & Ht).
    unfold same_time in *. repeat split; try assumption; lia.
  - destruct (iter_prev_day_ok _ _ _ Hd Hadd) as (Hv & Ho & Ht).
    unfold same_time in *. repeat split; try assumption; lia.
Qed.

Lemma add_days_total (d : datetime) (n : Z) :
  valid_datetime d = true -> 1 <= toordinal d + n <= MAXORDINAL ->
  exists d', add_days d n = Ok d'.
Proof.
  intros Hd Hn. unfold add_days. destruct (Z.leb_spec 0 n).
  - apply iter_next_day_total; [exact Hd | lia].
  - apply iter_prev_day_total; [exact Hd | lia].
Qed.

(** *** The order of instants *)

Lemma time_of_day_bounds (d : datetime) :
  valid_datetime d = true -> 0 <= time_of_day d < DAY_US.
Proof.
  intros Hd. apply valid_datetime_spec in Hd as [_ Ht].
  unfold time_of_day, DAY_US. lia.
Qed.

Lemma date_before_compare (a b : datetime) :
  date_before a b -> dt_compare a b = Lt.
Proof.
  unfold date_before, month_before, dt_compare, dt_key. cbn [lex_compare].
  intros [[Hy | [Hy Hm]] | (Hy & Hm & Hd)].
  - apply Z.compare_lt_iff in Hy. now rewrite Hy.
  - rewrite Hy, Z.compare_refl. apply Z.compare_lt_iff in Hm. now rewrite Hm.
  - rewrite Hy, Hm, !Z.compare_refl. apply Z.compare_lt_iff in Hd. now rewrite Hd.
Qed.

Lemma date_after_compare (a b : datetime) :
  date_before b a -> dt_compare a b = Gt.
Proof.
  unfold date_before, month_before, dt_compare, dt_key. cbn [lex_compare].
  intros [[Hy | [Hy Hm]] | (Hy & Hm & Hd)].
  - apply Z.compare_gt_iff in Hy. now rewrite Hy.
  - rewrite Hy, Z.compare_refl. apply Z.compare_gt_iff in Hm. now rewrite Hm.
  - rewrite Hy, Hm, !Z.compare_refl. apply Z.compare_gt_iff in Hd. now rewrite Hd.
Qed.

Ltac compare_field x y :=
  destruct (Z.compare_spec x y);
  [ | symmetry; apply Z.compare_lt_iff; lia | symmetry; apply Z.compare_gt_iff; lia ].

(** The field-wise order is the order of the time line. *)
Lemma dt_compare_timestamp (a b : datetime) :
  valid_datetime a = true -> valid_datetime b = true ->
  dt_compare a b = (timestamp a ?= timestamp b).
Proof.
  intros Ha Hb.
  pose proof (time_of_day_bounds a Ha) as Hta.
  pose proof (time_of_day_bounds b Hb) as Htb.
  destruct (date_trichotomy a b) as [Hlt | [Hgt | (Hy & Hm & Hd)]].
  - rewrite (date_before_compare a b Hlt).
    pose proof (toordinal_lt a b Ha Hb Hlt).
    symmetry. apply Z.compare_lt_iff. unfold timestamp, DAY_US in *. lia.
  - rewrite (date_after_compare a b Hgt).
    pose proof (toordinal_lt b a Hb Ha Hgt).
    symmetry. apply Z.compare_gt_iff. unfold timestamp, DAY_US in *. lia.
  - assert (Hord : toordinal a = toordinal b).
    { unfold toordinal. now rewrite Hy, Hm, Hd. }
    apply valid_datetime_spec in Ha as [_ Hva].
    apply valid_datetime_spec in Hb as [_ Hvb].
    unfold dt_compare, dt_key. cbn [lex_compare].
    rewrite Hy, Hm, Hd, !Z.compare_refl.
    unfold timestamp, time_of_day. rewrite Hord.
    compare_field (hour a) (hour b).
    compare_field (minute a) (minute b).
    compare_field (second a) (second b).
    compare_field (microsecond a) (microsecond b).
    symmetry. apply Z.compare_eq_iff. lia.
Qed.

(** *** [isoformat] keeps the order *)

Lemma str_compare_refl (s : str) : str_compare s s = Eq.
Proof.
  induction s as [|c s IH]; simpl; [reflexivity|].
  now rewrite N.compare_refl.
Qed.

Lemma str_ltb_irrefl (s : str) : str_ltb s s = false.
Proof. unfold str_ltb. now rewrite str_compare_refl. Qed.

Lemma str_leb_refl (s : str) : str_leb s s = true.
Proof. unfold str_leb. now rewrite str_compare_refl. Qed.

Lemma str_compare_cons_same (c : char) (r r' : str) :
  str_compare (c :: r) (c :: r') = str_compare r r'.
Proof. simpl. now rewrite N.compare_refl. Qed.

Lemma str_compare_app (x x' y y' : str) :
  List.length x = List.length x' ->
  str_compare (x ++ y) (x' ++ y')
  = match str_compare x x' with
    | Eq => str_compare y y'
    | c => c
    end.
Proof.
  revert x'. induction x as [|c x IH]; intros [|c' x'] Hlen;
    try discriminate Hlen; cbn [app str_compare].
  - reflexivity.
  - destruct (N.compare c c'); try reflexivity.
    apply IH. now injection Hlen.
Qed.

Lemma zpad_length (w : nat) (n : Z) : List.length (zpad w n) = w.
Proof.
  revert n. induction w as [|w IH]; intros n; cbn [zpad List.length].
  - reflexivity.
  - now rewrite IH.
Qed.

Lemma digit_char_compare (p q : Z) :
  0 <= p -> 0 <= q -> N.compare (digit_char p) (digit_char q) = (p ?= q).
Proof.
  intros Hp Hq. unfold digit_char.
  destruct (Z.compare_spec p q).
  - subst. apply N.compare_refl.
  - apply N.compare_lt_iff. lia.
  - apply N.compare_gt_iff. lia.
Qed.

Lemma zpad_compare (w : nat) :
  forall a b, 0 <= a < 10 ^ Z.of_nat w -> 0 <= b < 10 ^ Z.of_nat w ->
  str_compare (zpad w a) (zpad w b) = (a ?= b).
Proof.
  induction w as [|w IH]; intros a b Ha Hb.
  - simpl in *. symmetry. apply Z.compare_eq_iff. lia.
  - cbn [zpad str_compare].
    assert (Hp : 0 < 10 ^ Z.of_nat w) by (apply Z.pow_pos_nonneg; lia).
    set (p := 10 ^ Z.of_nat w) in *.
    rewrite digit_char_compare by (apply Z.div_pos; lia).
    pose proof (Z.div_mod a p ltac:(lia)) as Hda.
    pose proof (Z.div_mod b p ltac:(lia)) as Hdb.
    pose proof (Z.mod_pos_bound a p Hp) as Hma.
    pose proof (Z.mod_pos_bound b p Hp) as Hmb.
    destruct (Z.compare_spec (a / p) (b / p)) as [Heq | Hlt | Hgt].
    + rewrite (IH _ _ Hma Hmb).
      rewrite Heq in Hda.
      destruct (Z.compare_spec (a mod p) (b mod p)); symmetry.
      * apply Z.compare_eq_iff. lia.
      * apply Z.compare_lt_iff. lia.
      * apply Z.compare_gt_iff. lia.
    + symmetry. apply Z.compare_lt_iff.
      destruct (Z.lt_ge_cases a b) as [|Hge]; [assumption|].
      pose proof (Z.div_le_mono b a p Hp Hge). lia.
    + symmetry. apply Z.compare_gt_iff.
      destruct (Z.lt_ge_cases b a) as [|Hge]; [lia|].
      pose proof (Z.div_le_mono a b p Hp Hge). lia.
Qed.

Lemma iso_tail_compare (a b : Z) :
  0 <= a < 1000000 -> 0 <= b < 1000000 ->
  str_compare (iso_tail a) (iso_tail b) = (a ?= b).
Proof.
  intros Ha Hb. unfold iso_tail.
  destruct (Z.eqb_spec a 0) as [-> | Hna]; destruct (Z.eqb_spec b 0) as [-> | Hnb].
  - reflexivity.
  - transitivity Lt; [reflexivity | symmetry; apply Z.compare_lt_iff; lia].
  - transitivity Gt; [reflexivity | symmetry; apply Z.compare_gt_iff; lia].
  - change (lit "." ++ zpad 6 a) with (46%N :: zpad 6 a).
    change (lit "." ++ zpad 6 b) with (46%N :: zpad 6 b).
    cbn [app]. rewrite str_compare_cons_same.
    rewrite str_compare_app by now rewrite !zpad_length.
    rewrite zpad_compare by (change (10 ^ Z.of_nat 6) with 1000000; lia).
    rewrite str_compare_refl. now destruct (a ?= b).
Qed.

Lemma isoformat_tail (d : datetime) :
  isoformat d
  = zpad 4 (year d) ++ 45%N :: zpad 2 (month d) ++ 45%N :: zpad 2 (day d)
    ++ 84%N :: zpad 2 (hour d) ++ 58%N :: zpad 2 (minute d)
    ++ 58%N :: zpad 2 (second d) ++ iso_tail (microsecond d).
Proof. reflexivity. Qed.

Ltac iso_field :=
  rewrite str_compare_app by (now rewrite !zpad_length);
  rewrite zpad_compare by
    (first [change (10 ^ Z.of_nat 4) with 10000 | change (10 ^ Z.of_nat 2) with 100];
     lia);
  try rewrite str_compare_cons_same.

(** The strings [isoformat] writes compare as the instants do. *)
Lemma isoformat_compare (a b : datetime) :
  valid_datetime a = true -> valid_datetime b = true ->
  str_compare (isoformat a) (isoformat b) = dt_compare a b.
Proof.
  intros Ha Hb.
  apply valid_datetime_spec in Ha as [(Hya & Hma & Hda) (Hha & Hmia & Hsa & Husa)].
  apply valid_datetime_spec in Hb as [(Hyb & Hmb & Hdb) (Hhb & Hmib & Hsb & Husb)].
  pose proof (days_in_month_bounds (year a) (month a)).
  pose proof (days_in_month_bounds (year b) (month b)).
  unfold MINYEAR, MAXYEAR in *.
  rewrite !isoformat_tail. unfold dt_compare, dt_key. cbn [lex_compare].
  do 6 iso_field.
  rewrite iso_tail_compare by lia.
  now destruct (microsecond a ?= microsecond b).
Qed.

Lemma isoformat_timestamp (a b : datetime) :
  valid_datetime a = true -> valid_datetime b = true ->
  str_compare (isoformat a) (isoformat b) = (timestamp a ?= timestamp b).
Proof.
  intros Ha Hb. rewrite isoformat_compare by assumption.
  now apply dt_compare_timestamp.
Qed.

Lemma str_leb_isoformat (a b : datetime) :
  valid_datetime a = true -> valid_datetime b = true ->
  str_leb (isoformat a) (isoformat b) = (timestamp a <=? timestamp b).
Proof.
  intros Ha Hb. unfold str_leb, Z.leb. now rewrite isoformat_timestamp.
Qed.

Lemma str_ltb_isoformat (a b : datetime) :
  valid_datetime a = true -> valid_datetime b = true ->
  str_ltb (isoformat a) (isoformat b) = (timestamp a <? timestamp b).
Proof.
  intros Ha Hb. unfold str_ltb, Z.ltb. now rewrite isoformat_timestamp.
Qed.

(** *** Periods *)

Lemma datetime_eq (a b : datetime) :
  year a = year b -> month a = month b -> day a = day b -> same_time a b ->
  a = b.
Proof.
  destruct a, b. unfold same_time. cbn. intros -> -> -> (-> & -> & -> & ->).
  reflexivity.
Qed.

Lemma at_midnight_timestamp (d : datetime) :
  at_midnight d -> timestamp d = toordinal d * DAY_US.
Proof.
  intros (Hh & Hm & Hs & Hus). unfold timestamp, time_of_day.
  rewrite Hh, Hm, Hs, Hus. lia.
Qed.

Lemma covers_midnight (s e t : datetime) :
  at_midnight s -> at_midnight e -> valid_datetime t = true ->
  covers (s, e) t <-> toordinal s <= toordinal t < toordinal e.
Proof.
  intros Hs He Ht. unfold covers. cbn [fst snd].
  rewrite (at_midnight_timestamp s Hs), (at_midnight_timestamp e He).
  pose proof (time_of_day_bounds t Ht). unfold timestamp, DAY_US in *. lia.
Qed.

Lemma replace_midnight_valid (d : datetime) :
  valid_datetime d = true ->
  valid_datetime (replace_midnight d) = true
  /\ toordinal (replace_midnight d) = toordinal d
  /\ at_midnight (replace_midnight d).
Proof.
  intros Hd. apply valid_datetime_spec in Hd as [Hdate _].
  split; [|split].
  - apply valid_datetime_spec. cbn. lia.
  - reflexivity.
  - unfold at_midnight. cbn. tauto.
Qed.

Lemma replace_midnight_same_day (a b : datetime) :
  valid_datetime a = true -> valid_datetime b = true ->
  toordinal a = toordinal b -> replace_midnight a = replace_midnight b.
Proof.
  intros Ha Hb Hord. destruct (toordinal_inj a b Ha Hb Hord) as (Hy & Hm & Hd).
  unfold replace_midnight. now rewrite Hy, Hm, Hd.
Qed.

Lemma replace_midnight_fixed (d : datetime) :
  at_midnight d -> replace_midnight d = d.
Proof.
  intros Hmid. apply datetime_eq; try reflexivity.
  unfold same_time, at_midnight in *. cbn. lia.
Qed.

Lemma same_time_midnight (a b : datetime) :
  same_time a b -> at_midnight b -> at_midnight a.
Proof. unfold same_time, at_midnight. lia. Qed.

Lemma toordinal_before_maxyear (d : datetime) :
  valid_datetime d = true -> year d < MAXYEAR -> toordinal d <= 3651694.
Proof.
  intros Hd Hy. apply valid_datetime_spec in Hd as [(_ & Hm & Hday) _].
  rewrite toordinal_month_start. unfold MAXYEAR in Hy.
  pose proof (month_start_year_end (year d) (month d) Hm) as H1.
  pose proof (days_before_year_mono (year d + 1) 9999 ltac:(lia)) as H2.
  unfold month_start in H1 at 2. rewrite days_before_month_january in H1.
  change (days_before_year 9999) with 3651694 in H2. lia.
Qed.

(** *** Days *)

Lemma today_bounds_ok (now : datetime) (b : datetime * datetime) :
  valid_datetime now = true -> today_bounds now = Ok b ->
  fst b = replace_midnight now
  /\ valid_datetime (snd b) = true /\ at_midnight (snd b)
  /\ toordinal (snd b) = toordinal now + 1.
Proof.
  intros Hnow. unfold today_bounds.
  destruct (replace_midnight_valid now Hnow) as (Hv & Hord & Hmid).
  destruct (add_days (replace_midnight now) 1) as [e|] eqn:Hadd; [|discriminate].
  intros [= <-]. cbn [fst snd bind].
  destruct (toordinal_add_days _ _ _ Hv Hadd) as (Hve & Hoe & Hte).
  repeat split; try assumption; try lia.
  all: destruct Hmid as (? & ? & ? & ?); destruct Hte as (? & ? & ? & ?); lia.
Qed.

Lemma add_days_fails (d : datetime) (n : Z) :
  valid_datetime d = true -> MAXORDINAL < toordinal d + n ->
  exists e, add_days d n = Raise e.
Proof.
  intros Hd Hn. destruct (add_days d n) as [d'|e] eqn:Hadd; [|now exists e].
  destruct (toordinal_add_days d d' n Hd Hadd) as (Hv & Ho & _).
  pose proof (toordinal_bounds d' Hv). lia.
Qed.

Lemma today_partition : partition today_dom today_bounds.
Proof.
  constructor.
  - intros now Hnow Hdom. unfold today_bounds, today_dom in *.
    destruct (replace_midnight_valid now Hnow) as (Hv & Hord & _).
    pose proof (toordinal_bounds now Hnow).
    destruct (add_days_total (replace_midnight now) 1 Hv) as [e He]; [lia|].
    rewrite He. eexists; reflexivity.
  - intros now Hnow Hdom. unfold today_bounds, today_dom in *.
    destruct (replace_midnight_valid now Hnow) as (Hv & Hord & _).
    destruct (add_days_fails (replace_midnight now) 1 Hv) as [e He]; [lia|].
    rewrite He. now exists e.
  - intros now b Hnow Hb.
    destruct (today_bounds_ok now b Hnow Hb) as (Hs & Hve & _).
    rewrite Hs. split; [apply (replace_midnight_valid now Hnow) | exact Hve].
  - intros now [s e] Hnow Hb.
    destruct (today_bounds_ok now _ Hnow Hb) as (Hs & Hve & Hme & Hoe).
    cbn [fst snd] in *. subst s.
    destruct (replace_midnight_valid now Hnow) as (_ & Hord & Hmid).
    apply covers_midnight; try assumption. lia.
  - intros now t [s e] Hnow Ht Hb Hcov.
    destruct (today_bounds_ok now _ Hnow Hb) as (Hs & Hve & Hme & Hoe).
    cbn [fst snd] in *. subst s.
    destruct (replace_midnight_valid now Hnow) as (_ & Hord & Hmid).
    apply covers_midnight in Hcov; try assumption.
    assert (Hsame : replace_midnight t = replace_midnight now).
    { apply replace_midnight_same_day; try assumption. lia. }
    unfold today_bounds in *. now rewrite Hsame.
  - intros now b b' Hnow Hb Hb'.
    destruct (today_bounds_ok now b Hnow Hb) as (_ & Hve & Hme & _).
    destruct (today_bounds_ok (snd b) b' Hve Hb') as (Hs' & _).
    rewrite Hs'. now apply replace_midnight_fixed.
Qed.

(** *** Weeks *)

Lemma week_bounds_ok (now : datetime) (b : datetime * datetime) :
  valid_datetime now = true -> week_bounds_monday now = Ok b ->
  valid_datetime (fst b) = true /\ at_midnight (fst b)
  /\ toordinal (fst b) = toordinal now - weekday now
  /\ add_days (fst b) 7 = Ok (snd b)
  /\ valid_datetime (snd b) = true /\ at_midnight (snd b)
  /\ toordinal (snd b) = toordinal (fst b) + 7.
Proof.
  intros Hnow. unfold week_bounds_monday.
  destruct (replace_midnight_valid now Hnow) as (Hv & Hord & Hmid).
  change (weekday (replace_midnight now)) with (weekday now).
  destruct (add_days (replace_midnight now) (- weekday now)) as [s|] eqn:Hs;
    [|discriminate].
  cbn [bind]. destruct (add_days s 7) as [e|] eqn:He; [|discriminate].
  intros [= <-]. cbn [fst snd bind].
  destruct (toordinal_add_days _ _ _ Hv Hs) as (Hvs & Hos & Hts).
  destruct (toordinal_add_days _ _ _ Hvs He) as (Hve & Hoe & Hte).
  pose proof (same_time_midnight _ _ Hts Hmid) as Hms.
  pose proof (same_time_midnight _ _ Hte Hms) as Hme.
  repeat split; try assumption; try lia;
    try apply Hms; try apply Hme.
Qed.

Lemma weekday_bounds (d : datetime) : 0 <= weekday d <= 6.
Proof. unfold weekday. pose proof (Z.mod_pos_bound (toordinal d + 6) 7). lia. Qed.

Lemma weekday_le_ordinal (d : datetime) :
  valid_datetime d = true -> weekday d <= toordinal d - 1.
Proof.
  intros Hd. pose proof (toordinal_bounds d Hd). unfold weekday.
  Z.div_mod_to_equations. lia.
Qed.

(** The week of [t] starts at the Monday [s] when [t] is one of the
    seven days from [s]. *)
Lemma weekday_in_week (s t : Z) :
  (s + 6) mod 7 = 0 -> s <= t < s + 7 -> (t + 6) mod 7 = t - s.
Proof. intros Hs Ht. Z.div_mod_to_equations. lia. Qed.

Lemma week_start_monday (now : datetime) :
  (toordinal now - weekday now + 6) mod 7 = 0.
Proof. unfold weekday. Z.div_mod_to_equations. lia. Qed.

Lemma week_start_total (now : datetime) :
  valid_datetime now = true ->
  exists s, add_days (replace_midnight now) (- weekday now) = Ok s
            /\ valid_datetime s = true
            /\ toordinal s = toordinal now - weekday now.
Proof.
  intros Hnow.
  destruct (replace_midnight_valid now Hnow) as (Hv & Hord & _).
  pose proof (toordinal_bounds now Hnow).
  pose proof (weekday_le_ordinal now Hnow).
  pose proof (weekday_bounds now).
  destruct (add_days_total (replace_midnight now) (- weekday now) Hv) as [s Hs];
    [lia|].
  destruct (toordinal_add_days _ _ _ Hv Hs) as (Hvs & Hos & _).
  exists s. repeat split; try assumption; lia.
Qed.

Lemma week_partition : partition week_dom week_bounds_monday.
Proof.
  constructor.
  - intros now Hnow Hdom. unfold week_bounds_monday, week_dom in *.
    change (weekday (replace_midnight now)) with (weekday now).
    destruct (week_start_total now Hnow) as (s & Hs & Hvs & Hos).
    rewrite Hs. cbn [bind].
    pose proof (toordinal_bounds s Hvs).
    destruct (add_days_total s 7 Hvs) as [e He]; [lia|].
    rewrite He. eexists; reflexivity.
  - intros now Hnow Hdom. unfold week_bounds_monday, week_dom in *.
    change (weekday (replace_midnight now)) with (weekday now).
    destruct (week_start_total now Hnow) as (s & Hs & Hvs & Hos).
    rewrite Hs. cbn [bind].
    destruct (add_days_fails s 7 Hvs) as [e He]; [lia|].
    rewrite He. now exists e.
  - intros now b Hnow Hb.
    destruct (week_bounds_ok now b Hnow Hb) as (Hvs & _ & _ & _ & Hve & _).
    now split.
  - intros now [s e] Hnow Hb.
    destruct (week_bounds_ok now _ Hnow Hb) as (Hvs & Hms & Hos & _ & Hve & Hme & Hoe).
    cbn [fst snd] in *. pose proof (weekday_bounds now).
    apply covers_midnight; try assumption. lia.
  - intros now t [s e] Hnow Ht Hb Hcov.
    destruct (week_bounds_ok now _ Hnow Hb) as (Hvs & Hms & Hos & Hadd & Hve & Hme & Hoe).
    cbn [fst snd] in *.
    apply covers_midnight in Hcov; try assumption.
    assert (Hwd : weekday t = toordinal t - toordinal s).
    { unfold weekday at 1. apply weekday_in_week; [|lia].
      rewrite Hos. apply week_start_monday. }
    destruct (replace_midnight_valid t Ht) as (Hvt & Hot & Hmt).
    unfold week_bounds_monday.
    change (weekday (replace_midnight t)) with (weekday t).
    pose proof (toordinal_bounds s Hvs).
    destruct (add_days_total (replace_midnight t) (- weekday t) Hvt) as [s' Hs'].
    { pose proof (toordinal_bounds t Ht). lia. }
    rewrite Hs'. cbn [bind].
    destruct (toordinal_add_days _ _ _ Hvt Hs') as (Hvs' & Hos' & Hts').
    assert (Heq : s' = s).
    { destruct (toordinal_inj s' s Hvs' Hvs ltac:(lia)) as (Hy & Hm & Hd).
      apply datetime_eq; try assumption.
      pose proof (same_time_midnight _ _ Hts' Hmt) as Hms'.
      unfold same_time, at_midnight in *. lia. }
    subst s'. now rewrite Hadd.
  - intros now b b' Hnow Hb Hb'.
    destruct (week_bounds_ok now b Hnow Hb) as (_ & _ & Hos & _ & Hve & Hme & Hoe).
    destruct (week_bounds_ok (snd b) b' Hve Hb') as (Hvs' & Hms' & Hos' & _).
    assert (Hwd : weekday (snd b) = 0).
    { unfold weekday. rewrite Hoe, Hos.
      pose proof (week_start_monday now). Z.div_mod_to_equations. lia. }
    destruct (toordinal_inj (fst b') (snd b) Hvs' Hve ltac:(lia)) as (Hy & Hm & Hd).
    apply datetime_eq; try assumption.
    unfold same_time, at_midnight in *. lia.
Qed.

(** *** Months *)

Lemma replace_first_midnight_valid (d : datetime) :
  valid_datetime d = true ->
  valid_datetime (replace_first_midnight d) = true
  /\ toordinal (replace_first_midnight d) = month_start (year d) (month d) + 1
  /\ at_midnight (replace_first_midnight d).
Proof.
  intros Hd. apply valid_datetime_spec in Hd as [(Hy & Hm & Hday) _].
  pose proof (days_in_month_bounds (year d) (month d)).
  split; [|split].
  - apply valid_datetime_spec. cbn. lia.
  - reflexivity.
  - unfold at_midnight. cbn. tauto.
Qed.

Lemma month_bounds_ok (now : datetime) (b : datetime * datetime) :
  valid_datetime now = true -> month_bounds now = Ok b ->
  fst b = replace_first_midnight now
  /\ valid_datetime (snd b) = true /\ at_midnight (snd b) /\ day (snd b) = 1
  /\ toordinal (snd b)
     = month_start (year now) (month now) + days_in_month (year now) (month now) + 1.
Proof.
  intros Hnow. pose proof Hnow as Hv.
  apply valid_datetime_spec in Hv as [(Hy & Hm & Hday) _].
  unfold month_bounds, replace_month, replace_year_month, replace_first_midnight.
  cbn [year month day hour minute second microsecond].
  pose proof (month_start_next (year now) (month now) Hm) as Hnext.
  destruct (Z.eqb_spec (month now) 12) as [H12 | H12].
  - destruct (valid_date (year now + 1) 1 1) eqn:Hvd; cbn [bind]; [|discriminate].
    intros [= <-]. cbn [fst snd].
    apply valid_date_spec in Hvd.
    destruct (Z.ltb_spec (month now) 12); [lia|].
    repeat split; try reflexivity.
    + apply valid_datetime_spec. cbn. lia.
    + rewrite toordinal_month_start. cbn [year month day]. lia.
  - destruct (valid_date (year now) (month now + 1) 1) eqn:Hvd; cbn [bind];
      [|discriminate].
    intros [= <-]. cbn [fst snd].
    apply valid_date_spec in Hvd.
    destruct (Z.ltb_spec (month now) 12); [|lia].
    repeat split; try reflexivity.
    + apply valid_datetime_spec. cbn. lia.
    + rewrite toordinal_month_start. cbn [year month day]. lia.
Qed.

Lemma month_bounds_same_month (a b : datetime) :
  year a = year b -> month a = month b -> month_bounds a = month_bounds b.
Proof.
  intros Hy Hm. unfold month_bounds, replace_first_midnight. now rewrite Hy, Hm.
Qed.

Lemma month_partition : partition month_dom month_bounds.
Proof.
  constructor.
  - intros now Hnow Hdom. pose proof Hnow as Hv.
    apply valid_datetime_spec in Hv as [(Hyr & Hm & Hday) _].
    unfold month_bounds, replace_month, replace_year_month, month_dom in *.
    cbn [month year day replace_first_midnight].
    pose proof (days_in_month_bounds (year now + 1) 1).
    pose proof (days_in_month_bounds (year now) (month now + 1)).
    unfold MINYEAR, MAXYEAR in *.
    destruct (Z.eqb_spec (month now) 12).
    + assert (Hvd : valid_date (year now + 1) 1 1 = true).
      { apply valid_date_spec. unfold MINYEAR, MAXYEAR. lia. }
      rewrite Hvd. eexists; reflexivity.
    + assert (Hvd : valid_date (year now) (month now + 1) 1 = true).
      { apply valid_date_spec. unfold MINYEAR, MAXYEAR. lia. }
      rewrite Hvd. eexists; reflexivity.
  - intros now Hnow Hdom. pose proof Hnow as Hv.
    apply valid_datetime_spec in Hv as [(Hyr & Hm & Hday) _].
    unfold month_bounds, replace_month, replace_year_month, month_dom in *.
    cbn [month year day replace_first_midnight].
    unfold MINYEAR, MAXYEAR in *.
    destruct (Z.eqb_spec (month now) 12); [|lia].
    assert (Hvd : valid_date (year now + 1) 1 1 = false).
    { destruct (valid_date (year now + 1) 1 1) eqn:Hvd; [|reflexivity].
      apply valid_date_spec in Hvd. unfold MINYEAR, MAXYEAR in Hvd. lia. }
    rewrite Hvd. eexists; reflexivity.
  - intros now b Hnow Hb.
    destruct (month_bounds_ok now b Hnow Hb) as (Hs & Hve & _).
    rewrite Hs. split; [apply (replace_first_midnight_valid now Hnow) | exact Hve].
  - intros now [s e] Hnow Hb.
    destruct (month_bounds_ok now _ Hnow Hb) as (Hs & Hve & Hme & _ & Hoe).
    cbn [fst snd] in *. subst s.
    destruct (replace_first_midnight_valid now Hnow) as (_ & Hos & Hms).
    apply valid_datetime_spec in Hnow as Hv. destruct Hv as [(_ & _ & Hday) _].
    apply covers_midnight; try assumption.
    rewrite Hos, Hoe, toordinal_month_start. lia.
  - intros now t [s e] Hnow Ht Hb Hcov.
    destruct (month_bounds_ok now _ Hnow Hb) as (Hs & Hve & Hme & _ & Hoe).
    cbn [fst snd] in *. subst s.
    destruct (replace_first_midnight_valid now Hnow) as (_ & Hos & Hms).
    apply covers_midnight in Hcov; try assumption.
    rewrite Hos, Hoe in Hcov. rewrite (toordinal_month_start t) in Hcov.
    apply valid_datetime_spec in Hnow as Hv. destruct Hv as [(_ & Hmn & _) _].
    apply valid_datetime_spec in Ht as Hv. destruct Hv as [(_ & Hmt & Hdt) _].
    assert (Hmonth : year t = year now /\ month t = month now).
    { destruct (Z.lt_trichotomy (year t) (year now)) as [Hlt | [Heq | Hgt]].
      - pose proof (month_start_mono (year t) (month t) (year now) (month now)
                      Hmt Hmn (or_introl Hlt)). lia.
      - destruct (Z.lt_trichotomy (month t) (month now)) as [Hlt | [Heqm | Hgt]].
        + pose proof (month_start_mono (year t) (month t) (year now) (month now)
                        Hmt Hmn (or_intror (conj Heq Hlt))). lia.
        + now split.
        + pose proof (month_start_mono (year now) (month now) (year t) (month t)
                        Hmn Hmt (or_intror (conj (eq_sym Heq) Hgt))). lia.
      - pose proof (month_start_mono (year now) (month now) (year t) (month t)
                      Hmn Hmt (or_introl Hgt)). lia. }
    destruct Hmonth as [Hy Hm].
    now rewrite (month_bounds_same_month t now Hy Hm).
  - intros now b b' Hnow Hb Hb'.
    destruct (month_bounds_ok now b Hnow Hb) as (_ & Hve & Hme & Hd1 & _).
    destruct (month_bounds_ok (snd b) b' Hve Hb') as (Hs' & _).
    rewrite Hs'. apply datetime_eq; cbn; try reflexivity; try (symmetry; exact Hd1).
    unfold same_time, at_midnight in *. cbn. lia.
Qed.

(** *** Periods as the strings the reports use *)

Lemma in_range_covers (b : datetime * datetime) (t : datetime) :
  valid_datetime (fst b) = true -> valid_datetime (snd b) = true ->
  valid_datetime t = true ->
  in_range (iso_pair b) (isoformat t) = true <-> covers b t.
Proof.
  intros Hs He Ht. unfold in_range, iso_pair, covers. cbn [fst snd].
  rewrite str_leb_isoformat, str_ltb_isoformat by assumption.
  rewrite andb_true_iff, Z.leb_le, Z.ltb_lt. tauto.
Qed.

Lemma iso_range_ok (F : datetime -> res (datetime * datetime))
    (now : datetime) (r : str * str) :
  iso_range F now = Ok r -> exists b, F now = Ok b /\ r = iso_pair b.
Proof.
  unfold iso_range. destruct (F now) as [b|]; cbn [bind]; [|discriminate].
  intros [= <-]. now exists b.
Qed.

Lemma range_partition_of (dom : datetime -> Prop)
    (F : datetime -> res (datetime * datetime)) :
  partition dom F -> range_partition dom (iso_range F).
Proof.
  intros [Htotal Hfails Hvalid Hinside Hsame Habut].
  assert (Hsame' : forall now t r,
             valid_datetime now = true -> valid_datetime t = true ->
             iso_range F now = Ok r -> in_range r (isoformat t) = true ->
             iso_range F t = Ok r).
  { intros now t r Hnow Ht Hr Hin.
    destruct (iso_range_ok F now r Hr) as (b & Hb & ->).
    destruct (Hvalid now b Hnow Hb) as [Hvs Hve].
    apply in_range_covers in Hin; try assumption.
    unfold iso_range. now rewrite (Hsame now t b Hnow Ht Hb Hin). }
  constructor.
  - intros now Hnow Hdom. destruct (Htotal now Hnow Hdom) as [b Hb].
    exists (iso_pair b). unfold iso_range. now rewrite Hb.
  - intros now Hnow Hdom. destruct (Hfails now Hnow Hdom) as [e He].
    exists e. unfold iso_range. now rewrite He.
  - intros now r Hnow Hr.
    destruct (iso_range_ok F now r Hr) as (b & Hb & ->).
    destruct (Hvalid now b Hnow Hb) as [Hvs Hve].
    apply in_range_covers; try assumption. now apply Hinside.
  - exact Hsame'.
  - intros now now' x r r' Hnow Hnow' Hx Hr Hr' Hin Hin'.
    pose proof (Hsame' now x r Hnow Hx Hr Hin) as H1.
    pose proof (Hsame' now' x r' Hnow' Hx Hr' Hin') as H2.
    congruence.
  - intros now r Hnow Hr.
    destruct (iso_range_ok F now r Hr) as (b & Hb & ->).
    destruct (Hvalid now b Hnow Hb) as [Hvs Hve].
    exists (snd b). split; [exact Hve|]. split; [reflexivity|].
    intros r' Hr'.
    destruct (iso_range_ok F (snd b) r' Hr') as (b' & Hb' & ->).
    cbn [iso_pair fst snd]. now rewrite (Habut now b b' Hnow Hb Hb').
Qed.

Lemma month_range_rollover (y us : Z) :
  MINYEAR <= y < MAXYEAR -> 0 <= us < 1000000 ->
  month_range (new_year_eve y us)
  = Ok (isoformat (first_of y 12), isoformat (first_of (y + 1) 1))
  /\ month_range (new_year y)
     = Ok (isoformat (first_of (y + 1) 1), isoformat (first_of (y + 1) 2))
  /\ in_range (isoformat (first_of y 12), isoformat (first_of (y + 1) 1))
              (isoformat (new_year y)) = false
  /\ in_range (isoformat (first_of (y + 1) 1), isoformat (first_of (y + 1) 2))
              (isoformat (new_year_eve y us)) = false.
Proof.
  intros Hy Hus. unfold MINYEAR, MAXYEAR in Hy.
  assert (Hv1 : valid_date (y + 1) 1 1 = true).
  { apply valid_date_spec. unfold MINYEAR, MAXYEAR. cbn. lia. }
  assert (Hv2 : valid_date (y + 1) 2 1 = true).
  { apply valid_date_spec. unfold MINYEAR, MAXYEAR.
    pose proof (days_in_month_bounds (y + 1) 2). lia. }
  split; [|split; [|split]].
  - unfold month_range, month_bounds, replace_year_month, new_year_eve.
    cbn [replace_first_midnight year month day hour minute second microsecond].
    change (12 =? 12) with true. cbv iota. now rewrite Hv1.
  - unfold month_range, month_bounds, replace_month, replace_year_month, new_year.
    cbn [replace_first_midnight year month day hour minute second microsecond].
    change (1 =? 12) with false. cbv iota. change (1 + 1) with 2. now rewrite Hv2.
  - unfold in_range. cbn [fst snd].
    rewrite str_ltb_irrefl. apply andb_false_r.
  - unfold in_range. cbn [fst snd].
    assert (Hgt : str_compare (isoformat (first_of (y + 1) 1))
                              (isoformat (new_year_eve y us)) = Gt).
    { rewrite isoformat_compare.
      - apply date_after_compare. left. left. cbn. lia.
      - apply valid_datetime_spec. unfold MINYEAR, MAXYEAR. cbn. lia.
      - apply valid_datetime_spec. unfold MINYEAR, MAXYEAR. cbn. lia. }
    unfold str_leb. now rewrite Hgt.
Qed.

Lemma before_maxyear_dom (now : datetime) :
  valid_datetime now = true -> year now < MAXYEAR ->
  today_dom now /\ week_dom now /\ month_dom now.
Proof.
  intros Hnow Hy. pose proof (toordinal_before_maxyear now Hnow Hy).
  pose proof (weekday_bounds now).
  unfold today_dom, week_dom, month_dom, MAXORDINAL. lia.
Qed.

(** C4, as amended: [today_range], [week_range_monday] and [month_range]
    each cut the time line into half-open periods.  Each answers for
    every instant [now] whose period ends on a day that exists, which
    is every instant but those of the last day, the last week and the
    last month of the year 9999 respectively, and raises for those.
    The period returned contains [now]; every instant of that period
    gets the same period, so two periods that share an instant are one
    and the same and periods never overlap; and the period of the
    instant at which a period ends starts exactly there, so consecutive
    periods leave no gap.  A week starts on a Monday at midnight and
    ends seven days later.  The last second of December 31 and the
    first instant of January 1 fall in different months: the December
    period ends, and the January period starts, at January 1, 00:00:00
    of the new year. *)
Theorem C4_ranges_partition :
  range_partition today_dom today_range
  /\ range_partition week_dom week_range_monday
  /\ range_partition month_dom month_range
  /\ (forall now,
        valid_datetime now = true -> year now < MAXYEAR ->
        today_dom now /\ week_dom now /\ month_dom now)
  /\ (forall now b,
        valid_datetime now = true -> week_bounds_monday now = Ok b ->
        weekday (fst b) = 0 /\ at_midnight (fst b)
        /\ toordinal (snd b) = toordinal (fst b) + 7 /\ at_midnight (snd b))
  /\ (forall y us,
        MINYEAR <= y < MAXYEAR -> 0 <= us < 1000000 ->
        month_range (new_year_eve y us)
        = Ok (isoformat (first_of y 12), isoformat (first_of (y + 1) 1))
        /\ month_range (new_year y)
           = Ok (isoformat (first_of (y + 1) 1), isoformat (first_of (y + 1) 2))
        /\ in_range (isoformat (first_of y 12), isoformat (first_of (y + 1) 1))
                    (isoformat (new_year y)) = false
        /\ in_range (isoformat (first_of (y + 1) 1), isoformat (first_of (y + 1) 2))
                    (isoformat (new_year_eve y us)) = false).
Proof.
  split; [exact (range_partition_of _ _ today_partition)|].
  split; [exact (range_partition_of _ _ week_partition)|].
  split; [exact (range_partition_of _ _ month_partition)|].
  split; [exact before_maxyear_dom|].
  split.
  - intros now b Hnow Hb.
    destruct (week_bounds_ok now b Hnow Hb) as (_ & Hms & Hos & _ & _ & Hme & Hoe).
    repeat split; try apply Hms; try apply Hme; try exact Hoe.
    unfold weekday. rewrite Hos. apply week_start_monday.
  - exact month_range_rollover.
Qed.

Lemma C4_ranges_partition_witness :
  month_range sample_now
  = Ok (lit "2024-12-01T00:00:00+08:00", lit "2025-01-01T00:00:00+08:00")
  /\ in_range (lit "2024-12-01T00:00:00+08:00", lit "2025-01-01T00:00:00+08:00")
              (isoformat sample_now) = true.
Proof.
  pose proof (rp_inside _ _ (proj1 (proj2 (proj2 C4_ranges_partition))) sample_now
                (lit "2024-12-01T00:00:00+08:00", lit "2025-01-01T00:00:00+08:00")
                eq_refl eq_refl) as H.
  split; [reflexivity | exact H].
Defined.

(** C4 as stated fails at the end of the year 9999: the period would
    end after the last [datetime], and the three functions raise. *)
Lemma C4_counterexample :
  valid_datetime last_day = true
  /\ today_range last_day = Raise OverflowError
  /\ week_range_monday last_day = Raise OverflowError
  /\ month_range last_day = Raise ValueError.
Proof. repeat split; reflexivity. Qed.

(** ** The ledger *)

Lemma tx_type_eqb_eq (a b : tx_type) : tx_type_eqb a b = true <-> a = b.
Proof. destruct a, b; simpl; split; congruence. Qed.

Lemma str_leb_le (a b : str) : str_leb a b = true <-> str_le a b.
Proof.
  unfold str_leb, str_le. destruct (str_compare a b); split; congruence.
Qed.

Lemma str_ltb_lt (a b : str) : str_ltb a b = true <-> str_lt a b.
Proof.
  unfold str_ltb, str_lt. destruct (str_compare a b); split; congruence.
Qed.

Lemma tx_selected_iff (user_id : Z) (ty : tx_type) (start_ end_ : str)
    (t : tx_row) :
  tx_selected user_id ty start_ end_ t = true <-> in_query user_id ty start_ end_ t.
Proof.
  unfold tx_selected, in_query.
  rewrite !andb_true_iff, Z.eqb_eq, tx_type_eqb_eq, str_leb_le, str_ltb_lt.
  tauto.
Qed.

Lemma total_cons (t : tx_row) (l : list tx_row) :
  total (t :: l) = t_amount t + total l.
Proof. reflexivity. Qed.

Lemma total_app (l l' : list tx_row) : total (l ++ l') = total l + total l'.
Proof.
  induction l as [|t l IH]; simpl; [reflexivity|]. rewrite IH. lia.
Qed.

Lemma total_none_selected (p : tx_row -> bool) (l : list tx_row) :
  (forall t, In t l -> p t = false) -> total (filter p l) = 0.
Proof.
  induction l as [|t l IH]; intros Hnone; simpl; [reflexivity|].
  rewrite (Hnone t (or_introl eq_refl)). apply IH.
  intros t' Ht'. apply Hnone. now right.
Qed.

Lemma total_filter_nonneg (p : tx_row -> bool) (l : list tx_row) :
  Forall (fun t => 0 <= t_amount t) l -> 0 <= total (filter p l) <= total l.
Proof.
  induction 1 as [|t l Ht _ IH]; [cbn; lia|].
  cbn [filter]. destruct (p t); rewrite ?total_cons; lia.
Qed.

Lemma total_nonneg (l : list tx_row) :
  Forall (fun t => 0 <= t_amount t) l -> 0 <= total l.
Proof.
  induction 1 as [|t l Ht _ IH]; [cbn; lia|]. rewrite total_cons. lia.
Qed.

Lemma filter_nonneg (p : tx_row -> bool) (l : list tx_row) :
  Forall (fun t => 0 <= t_amount t) l ->
  Forall (fun t => 0 <= t_amount t) (filter p l).
Proof.
  rewrite !Forall_forall. intros H t Ht. apply filter_In in Ht as [Ht _]. now apply H.
Qed.

(** Once [SUM] has failed it stays failed. *)
Lemma sql_sum_raise (l : list tx_row) (ex : exn) :
  fold_left sql_sum_step l (Raise ex) = Raise ex.
Proof. induction l as [|t l IH]; [reflexivity | exact IH]. Qed.

(** [SUM] over rows whose amounts are not negative, from a partial sum
    [a]: the sum, or a failure when the sum is not an [INTEGER]. *)
Lemma sql_sum_some (l : list tx_row) :
  Forall (fun t => 0 <= t_amount t) l ->
  forall a, 0 <= a <= SQLITE_MAX_INTEGER ->
  fold_left sql_sum_step l (Ok (Some a))
  = if a + total l <=? SQLITE_MAX_INTEGER then Ok (Some (a + total l))
    else Raise OperationalError.
Proof.
  induction 1 as [|t l Ht Hl IH]; intros a Ha.
  - cbn [fold_left total fold_right]. rewrite Z.add_0_r.
    destruct Ha as [_ Ha]. apply Z.leb_le in Ha. now rewrite Ha.
  - cbn [fold_left]. unfold sql_sum_step at 2. cbn [bind coalesce].
    rewrite total_cons. pose proof (total_nonneg l Hl) as Hpos.
    destruct (sqlite_integer (a + t_amount t)) eqn:Hfit.
    + apply sqlite_integer_spec in Hfit. rewrite IH by lia.
      now rewrite Z.add_assoc.
    + rewrite sql_sum_raise.
      destruct (a + (t_amount t + total l) <=? SQLITE_MAX_INTEGER) eqn:Hle;
        [|reflexivity].
      apply Z.leb_le in Hle.
      assert (Hyes : sqlite_integer (a + t_amount t) = true)
        by (apply sqlite_integer_nonneg; lia).
      congruence.
Qed.

Lemma sql_sum_none (l : list tx_row) :
  Forall (fun t => 0 <= t_amount t) l ->
  (v <- fold_left sql_sum_step l (Ok None) ;; Ok (coalesce v 0))
  = if total l <=? SQLITE_MAX_INTEGER then Ok (total l) else Raise OperationalError.
Proof.
  intros Hl. destruct Hl as [|t l Ht Hl]; [reflexivity|].
  cbn [fold_left]. unfold sql_sum_step at 2. cbn [bind coalesce Z.add].
  rewrite total_cons. pose proof (total_nonneg l Hl) as Hpos.
  destruct (sqlite_integer (t_amount t)) eqn:Hfit.
  - apply sqlite_integer_spec in Hfit. rewrite (sql_sum_some l Hl) by lia.
    now destruct (t_amount t + total l <=? SQLITE_MAX_INTEGER).
  - rewrite sql_sum_raise. cbn [bind].
    destruct (t_amount t + total l <=? SQLITE_MAX_INTEGER) eqn:Hle; [|reflexivity].
    apply Z.leb_le in Hle.
    assert (Hyes : sqlite_integer (t_amount t) = true)
      by (apply sqlite_integer_nonneg; lia).
    congruence.
Qed.

(** [sum_tx] on a table whose amounts are not negative. *)
Lemma sum_tx_total (db : database) (user_id : Z) (ty : tx_type)
    (start_ end_ : str) :
  Forall (fun t => 0 <= t_amount t) (transactions db) ->
  sum_tx db user_id ty start_ end_
  = if total (filter (tx_selected user_id ty start_ end_) (transactions db))
       <=? SQLITE_MAX_INTEGER
    then Ok (total (filter (tx_selected user_id ty start_ end_) (transactions db)))
    else Raise OperationalError.
Proof.
  intros Hpos. unfold sum_tx. apply sql_sum_none. now apply filter_nonneg.
Qed.

(** On a ledger that SQLite can sum, [sum_tx] returns the sum of the
    rows selected. *)
Lemma sum_tx_fits (db : database) (user_id : Z) (ty : tx_type)
    (start_ end_ : str) :
  ledger_fits db ->
  sum_tx db user_id ty start_ end_
  = Ok (total (filter (tx_selected user_id ty start_ end_) (transactions db))).
Proof.
  intros [Hpos Hfit]. rewrite (sum_tx_total _ _ _ _ _ Hpos).
  pose proof (total_filter_nonneg (tx_selected user_id ty start_ end_) _ Hpos) as H.
  assert (Hle : (total (filter (tx_selected user_id ty start_ end_) (transactions db))
                 <=? SQLITE_MAX_INTEGER) = true) by (apply Z.leb_le; lia).
  now rewrite Hle.
Qed.

(** The rows selected after one more transaction. *)
Lemma total_with_tx (db : database) (now : datetime) (uid' : Z) (ty' : tx_type)
    (amount : Z) (note : option str)
    (user_id : Z) (ty : tx_type) (start_ end_ : str) :
  total (filter (tx_selected user_id ty start_ end_)
                (transactions (with_tx db now uid' ty' amount note)))
  = total (filter (tx_selected user_id ty start_ end_) (transactions db))
    + (if (uid' =? user_id) && tx_type_eqb ty' ty
          && str_leb start_ (isoformat now) && str_ltb (isoformat now) end_
       then amount else 0).
Proof.
  unfold with_tx. cbn [transactions].
  rewrite filter_app, total_app. f_equal. cbn [filter].
  unfold tx_selected at 1. cbn [t_user_id t_type t_ts].
  destruct ((uid' =? user_id) && tx_type_eqb ty' ty
            && str_leb start_ (isoformat now) && str_ltb (isoformat now) end_);
    simpl; lia.
Qed.

Lemma with_tx_nonneg (db : database) (now : datetime) (uid : Z) (ty : tx_type)
    (amount : Z) (note : option str) :
  Forall (fun t => 0 <= t_amount t) (transactions db) -> 0 <= amount ->
  Forall (fun t => 0 <= t_amount t) (transactions (with_tx db now uid ty amount note)).
Proof.
  intros Hpos Ham. unfold with_tx. cbn [transactions].
  apply Forall_app. split; [exact Hpos|]. now repeat constructor.
Qed.

(** C3, as amended: on a table whose amounts are not negative, as the
    column's [CHECK] has them, [sum_tx] returns the sum of the amounts
    of exactly the rows of the given owner and kind whose time stamp
    [ts] satisfies [start <= ts < end] whenever that sum is an
    [INTEGER] of SQLite, and fails when it is not; it is the integer 0
    when no row matches.  A row stamped at [start] counts and a row
    stamped at [end] does not; recording a transaction adds its amount
    to the sums of the ranges that contain its time stamp, once, and
    leaves every other sum as it was.  The comparison is the one of the
    stored strings, which for the stamps and the bounds the program
    writes is the order of the instants. *)
Theorem C3_sum_in_range (db : database) (user_id : Z) (ty : tx_type)
    (start_ end_ : str) :
  Forall (fun t => 0 <= t_amount t) (transactions db) ->
  let rows := filter (tx_selected user_id ty start_ end_) (transactions db) in
  (total rows <= SQLITE_MAX_INTEGER ->
   sum_tx db user_id ty start_ end_ = Ok (total rows))
  /\ (SQLITE_MAX_INTEGER < total rows ->
      sum_tx db user_id ty start_ end_ = Raise OperationalError)
  /\ (forall t, In t rows <-> In t (transactions db) /\ in_query user_id ty start_ end_ t)
  /\ ((forall t, In t (transactions db) -> ~ in_query user_id ty start_ end_ t) ->
      sum_tx db user_id ty start_ end_ = Ok 0)
  /\ (forall t, t_ts t = end_ -> tx_selected user_id ty start_ end_ t = false)
  /\ (forall t, t_user_id t = user_id -> t_type t = ty -> t_ts t = start_ ->
                str_lt start_ end_ -> tx_selected user_id ty start_ end_ t = true)
  /\ (forall now uid' ty' amount note db',
        add_tx now db uid' ty' amount note = Ok db' ->
        let added := if (uid' =? user_id) && tx_type_eqb ty' ty
                        && str_leb start_ (isoformat now)
                        && str_ltb (isoformat now) end_
                     then amount else 0 in
        total rows + added <= SQLITE_MAX_INTEGER ->
        sum_tx db user_id ty start_ end_ = Ok (total rows)
        /\ sum_tx db' user_id ty start_ end_ = Ok (total rows + added))
  /\ (forall (b : datetime * datetime) (t : tx_row) (d : datetime),
        valid_datetime (fst b) = true -> valid_datetime (snd b) = true ->
        valid_datetime d = true -> t_ts t = isoformat d ->
        in_query user_id ty (isoformat (fst b)) (isoformat (snd b)) t
        <-> t_user_id t = user_id /\ t_type t = ty /\ covers b d).
Proof.
  intros Hpos. cbv zeta.
  pose proof (sum_tx_total db user_id ty start_ end_ Hpos) as Hsum.
  split; [|split; [|split; [|split; [|split; [|split; [|split]]]]]].
  - intros Hle. apply Z.leb_le in Hle. now rewrite Hsum, Hle.
  - intros Hgt. apply Z.leb_gt in Hgt. now rewrite Hsum, Hgt.
  - intros t. rewrite filter_In, tx_selected_iff. tauto.
  - intros Hnone. rewrite Hsum.
    rewrite total_none_selected; [reflexivity|].
    intros t Hin. destruct (tx_selected user_id ty start_ end_ t) eqn:Hsel;
      [|reflexivity].
    apply tx_selected_iff in Hsel. now destruct (Hnone t Hin).
  - intros t Hts. unfold tx_selected. rewrite Hts, str_ltb_irrefl.
    apply andb_false_r.
  - intros t Huid Hty Hts Hlt. apply tx_selected_iff. unfold in_query.
    rewrite Hts. repeat split; try assumption.
    apply str_leb_le, str_leb_refl.
  - intros now uid' ty' amount note db' Hadd Hfit.
    destruct (add_tx_inserted _ _ _ _ _ _ _ Hadd) as [Ham ->].
    pose proof (total_filter_nonneg (tx_selected user_id ty start_ end_) _ Hpos) as Hrows.
    assert (Hadded : 0 <= (if (uid' =? user_id) && tx_type_eqb ty' ty
                              && str_leb start_ (isoformat now)
                              && str_ltb (isoformat now) end_
                           then amount else 0)).
    { destruct ((uid' =? user_id) && tx_type_eqb ty' ty
                && str_leb start_ (isoformat now) && str_ltb (isoformat now) end_);
        lia. }
    split.
    + rewrite Hsum.
      assert (Hle : (total (filter (tx_selected user_id ty start_ end_) (transactions db))
                     <=? SQLITE_MAX_INTEGER) = true) by (apply Z.leb_le; lia).
      now rewrite Hle.
    + rewrite sum_tx_total by (apply with_tx_nonneg; [exact Hpos | lia]).
      rewrite total_with_tx. apply Z.leb_le in Hfit. now rewrite Hfit.
  - intros b t d Hs He Hd Hts. unfold in_query. rewrite Hts.
    rewrite <- str_leb_le, <- str_ltb_lt.
    pose proof (in_range_covers b d Hs He Hd) as Hcov.
    unfold in_range, iso_pair in Hcov. cbn [fst snd] in Hcov.
    rewrite andb_true_iff in Hcov. tauto.
Qed.

(* ================================================================= *)
(** ** Dispatch *)

Lemma get_set_state_same (i : conv_id) (v : option Z) (s : session) :
  get_state i (set_state i v s) = v.
Proof. destruct i; reflexivity. Qed.

Lemma get_set_state_other (i j : conv_id) (v : option Z) (s : session) :
  j <> i -> get_state j (set_state i v s) = get_state j s.
Proof. destruct i, j; intros H; try reflexivity; now destruct H. Qed.

Lemma get_state_set_user_data (i : conv_id) (ud : user_data) (s : session) :
  get_state i (set_user_data ud s) = get_state i s.
Proof. destruct i; reflexivity. Qed.

Lemma user_data_set_state (i : conv_id) (v : option Z) (s : session) :
  s_user_data (set_state i v s) = s_user_data s.
Proof. destruct i; reflexivity. Qed.

Lemma conv_id_eq_dec (i j : conv_id) : {i = j} + {i <> j}.
Proof. decide equality. Defined.

Lemma first_match_in (hs : list handler) (u : update) (h : handler) :
  first_match hs u = Some h -> In h hs.
Proof. unfold first_match. intros H. now apply find_some in H. Qed.

Lemma states_get_in (l : list (Z * list handler)) (state : Z) (h : handler) :
  In h (states_get l state) -> In h (flat_map snd l).
Proof.
  induction l as [|[k hs] l IH]; simpl; [trivial|].
  intros Hin. apply in_or_app. destruct (k =? state); [now left | right; auto].
Qed.

Lemma conv_check_update_in (c : conversation_handler) (state : option Z)
    (u : update) (h : handler) :
  conv_check_update c state u = Some h -> In h (conv_handlers c).
Proof.
  unfold conv_check_update, conv_handlers. destruct state as [s|].
  - destruct (first_match (states_get (states c) s) u) as [h'|] eqn:Hstate.
    + intros [= <-]. apply in_or_app. right. apply in_or_app. left.
      apply states_get_in with (state := s). now apply first_match_in with (u := u).
    + intros H. apply in_or_app. right. apply in_or_app. right.
      now apply first_match_in with (u := u).
  - intros H. apply in_or_app. left. now apply first_match_in with (u := u).
Qed.

Lemma handled_by_cons (a : app_handler) (hs : list app_handler) (e : env)
    (u : update) (w : world) (r : world * list str) :
  handled_by hs e u w r -> handled_by (a :: hs) e u w r.
Proof.
  intros H. destruct H as [| h Hin | i c h Hin Hh].
  - apply handled_not.
  - apply handled_plain. now right.
  - apply handled_conv with (c := c); [now right | exact Hh].
Qed.

Lemma dispatch_handled (hs : list app_handler) (e : env) (u : update) (w : world) :
  handled_by hs e u w (dispatch hs e u w).
Proof.
  induction hs as [|a hs IH]; cbn [dispatch].
  - apply handled_not.
  - destruct a as [h | i c].
    + destruct (matches (h_trigger h) u).
      * apply handled_plain. now left.
      * now apply handled_by_cons.
    + destruct (conv_check_update c (get_state i (w_session w)) u) as [h|] eqn:Hcheck.
      * apply handled_conv with (c := c); [now left|].
        now apply conv_check_update_in in Hcheck.
      * now apply handled_by_cons.
Qed.

(** An update moves at most one conversation. *)
Lemma handled_by_frame (hs : list app_handler) (e : env) (u : update)
    (w : world) (r : world * list str) :
  handled_by hs e u w r ->
  exists i, forall j, j <> i ->
    get_state j (w_session (fst r)) = get_state j (w_session w).
Proof.
  intros H. destruct H as [| h Hin | i c h Hin Hh]; cbn [fst w_session].
  - exists CReg. reflexivity.
  - exists CReg. intros j _. apply get_state_set_user_data.
  - exists i. intros j Hj.
    now rewrite get_set_state_other, get_state_set_user_data.
Qed.

(** *** Invariants of the data *)

Lemma handled_by_keeps (P : database -> user_data -> Prop)
    (hs : list app_handler) (e : env) (u : update) (w : world)
    (r : world * list str) :
  Forall (app_handler_keeps P) hs ->
  handled_by hs e u w r ->
  P (w_db w) (s_user_data (w_session w)) ->
  P (w_db (fst r)) (s_user_data (w_session (fst r))).
Proof.
  intros Hall H HP. rewrite Forall_forall in Hall.
  destruct H as [| h Hin | i c h Hin Hh]; cbn [fst w_db w_session].
  - exact HP.
  - apply (Hall _ Hin). exact HP.
  - rewrite user_data_set_state. cbn [s_user_data set_user_data].
    pose proof (Hall _ Hin) as Hc. cbn [app_handler_keeps] in Hc.
    rewrite Forall_forall in Hc. apply (Hc h Hh). exact HP.
Qed.

Lemma conv_update_state_own (i : conv_id) (old : option Z) (ret : res (option Z)) :
  own_state i old = true ->
  (forall s, ret = Ok (Some s) -> s = END \/ own_state i (Some s) = true) ->
  own_state i (conv_update_state old ret) = true.
Proof.
  intros Hold Hret. unfold conv_update_state.
  destruct ret as [[s|]|]; try exact Hold.
  destruct (Z.eqb_spec s END) as [->|Hne]; [reflexivity|].
  destruct (Hret s eq_refl) as [Hend | Hown]; [contradiction | exact Hown].
Qed.

Lemma handled_by_states_ok (hs : list app_handler) (e : env) (u : update)
    (w : world) (r : world * list str) :
  Forall app_handler_returns hs ->
  handled_by hs e u w r ->
  states_ok (w_session w) -> states_ok (w_session (fst r)).
Proof.
  intros Hall H Hok. rewrite Forall_forall in Hall.
  destruct H as [| h Hin | i c h Hin Hh]; cbn [fst w_session].
  - exact Hok.
  - intros j. rewrite get_state_set_user_data. apply Hok.
  - intros j. destruct (conv_id_eq_dec j i) as [->|Hne].
    + rewrite get_set_state_same.
      apply conv_update_state_own; [apply Hok|].
      pose proof (Hall _ Hin) as Hc. cbn [app_handler_returns] in Hc.
      rewrite Forall_forall in Hc. intros s Hs. exact (Hc h Hh _ _ _ _ _ Hs).
    + rewrite get_set_state_other, get_state_set_user_data by exact Hne.
      apply Hok.
Qed.

(** *** The invariants of [main] *)

Section MainInvariants.
Context {U : UnicodeData} {B : Bcrypt}.

Lemma int_digits_nonneg (s : str) :
  forall acc n, 0 <= acc -> int_digits acc s = Ok n -> 0 <= n.
Proof.
  induction s as [|c s IH]; intros acc n Hacc; cbn [int_digits].
  - intros [= <-]. exact Hacc.
  - destruct (Py_UNICODE_TODECIMAL c) as [v|] eqn:Hc; [|discriminate].
    pose proof (todecimal_range c v Hc). apply IH. lia.
Qed.

Lemma int_of_str_nonneg (s : str) (n : Z) : int_of_str s = Ok n -> 0 <= n.
Proof.
  unfold int_of_str. destruct s as [|c s]; [discriminate|].
  apply int_digits_nonneg. lia.
Qed.

Lemma create_user_names_ok (salt : bytes) (now : datetime) (db db' : database)
    (username password : str) :
  names_ok db -> (3 <= List.length username)%nat ->
  create_user salt now db username password = Ok db' -> names_ok db'.
Proof.
  intros Hnames Hlen Hcreate.
  destruct (create_user_inserted _ _ _ _ _ _ Hcreate) as (_ & _ & ->).
  unfold names_ok in *. cbn [users]. apply Forall_app. split; [exact Hnames|].
  constructor; [exact Hlen | constructor].
Qed.

Lemma add_tx_users (now : datetime) (db db' : database) (uid : Z) (ty : tx_type)
    (amount : Z) (note : option str) :
  add_tx now db uid ty amount note = Ok db' -> users db' = users db.
Proof.
  intros Hadd. now destruct (add_tx_inserted _ _ _ _ _ _ _ Hadd) as [_ ->].
Qed.

(** Closes the goal [data_ok] of a callback that leaves the store and
    the two scratch keys alone, or clears them. *)
Ltac data_ok_same :=
  match goal with
  | H : data_ok _ _ |- _ =>
      destruct H as (Hnames & Hscratch & Hamount);
      unfold data_ok, reg_scratch_ok, pending_amount in *; cbn;
      repeat split; try assumption; try lia; try discriminate
  end.

Lemma start_keeps : cb_keeps start.
Proof. intros e text db ud H. unfold start. data_ok_same. Qed.

Lemma register_cmd_keeps : cb_keeps register_cmd.
Proof. intros e text db ud H. unfold register_cmd. data_ok_same. Qed.

Lemma reg_username_keeps : cb_keeps reg_username.
Proof.
  intros e text db ud H. unfold reg_username.
  destruct (len_lt (strip text) 3) eqn:Hlen; [data_ok_same|].
  destruct (find_user db (strip text)); [data_ok_same|].
  apply len_lt_false in Hlen. data_ok_same.
  intros n [= <-]. exact Hlen.
Qed.

Lemma reg_password_keeps : cb_keeps reg_password.
Proof.
  intros e text db ud H. unfold reg_password.
  destruct (len_lt (strip text) 6); [data_ok_same|].
  destruct (ud_reg_username ud) as [username|] eqn:Hname; [|data_ok_same].
  destruct (create_user (env_salt e) (env_now e) db username (strip text))
    as [db'|] eqn:Hcreate; [|data_ok_same].
  destruct H as (Hnames & Hscratch & Hamount).
  pose proof (create_user_names_ok _ _ _ _ _ _ Hnames (Hscratch _ Hname) Hcreate).
  unfold data_ok, reg_scratch_ok, pending_amount in *. cbn.
  repeat split; try assumption. discriminate.
Qed.

Lemma login_cmd_keeps : cb_keeps login_cmd.
Proof. intros e text db ud H. unfold login_cmd. data_ok_same. Qed.

Lemma login_username_keeps : cb_keeps login_username.
Proof. intros e text db ud H. unfold login_username. data_ok_same. Qed.

Lemma login_password_keeps : cb_keeps login_password.
Proof.
  intros e text db ud H. unfold login_password.
  destruct (verify_user db _ (strip text)) as [[|]|ex]; [|data_ok_same..].
  destruct (find_user db _); data_ok_same.
Qed.

Lemma logout_cmd_keeps : cb_keeps logout_cmd.
Proof. intros e text db ud H. unfold logout_cmd. data_ok_same. Qed.

Lemma in_start_keeps : cb_keeps in_start.
Proof.
  intros e text db ud H. unfold in_start.
  destruct (negb (is_logged_in ud)); data_ok_same.
Qed.

Lemma out_start_keeps : cb_keeps out_start.
Proof.
  intros e text db ud H. unfold out_start.
  destruct (negb (is_logged_in ud)); data_ok_same.
Qed.

Lemma in_amount_keeps : cb_keeps in_amount.
Proof.
  intros e text db ud H. unfold in_amount.
  destruct (negb (isdigit (amount_text text))); [data_ok_same|].
  destruct (int_of_str (amount_text text)) as [n|] eqn:Hint; [|data_ok_same].
  apply int_of_str_nonneg in Hint. data_ok_same.
Qed.

Lemma out_amount_keeps : cb_keeps out_amount.
Proof.
  intros e text db ud H. unfold out_amount.
  destruct (negb (isdigit (amount_text text))); [data_ok_same|].
  destruct (int_of_str (amount_text text)) as [n|] eqn:Hint; [|data_ok_same].
  apply int_of_str_nonneg in Hint. data_ok_same.
Qed.

Lemma in_note_keeps : cb_keeps in_note.
Proof.
  intros e text db ud H. unfold in_note. cbn [ud_user_id set_tmp_amount].
  destruct (ud_user_id ud); [|data_ok_same].
  destruct (add_tx _ db _ IN _ _) as [db'|] eqn:Hadd; [|data_ok_same].
  apply add_tx_users in Hadd.
  destruct H as (Hnames & Hscratch & Hamount).
  unfold data_ok, names_ok, reg_scratch_ok, pending_amount in *. cbn.
  rewrite Hadd. repeat split; try assumption. lia.
Qed.

Lemma out_note_keeps : cb_keeps out_note.
Proof.
  intros e text db ud H. unfold out_note. cbn [ud_user_id set_tmp_amount].
  destruct (ud_user_id ud); [|data_ok_same].
  destruct (add_tx _ db _ OUT _ _) as [db'|] eqn:Hadd; [|data_ok_same].
  apply add_tx_users in Hadd.
  destruct H as (Hnames & Hscratch & Hamount).
  unfold data_ok, names_ok, reg_scratch_ok, pending_amount in *. cbn.
  rewrite Hadd. repeat split; try assumption. lia.
Qed.

Lemma report_in_today_keeps : cb_keeps report_in_today.
Proof.
  intros e text db ud H. unfold report_in_today.
  destruct (ud_user_id ud); [|data_ok_same].
  destruct (today_range (env_now e)) as [[s e']|]; [|data_ok_same].
  destruct (sum_tx db _ IN s e'); data_ok_same.
Qed.

Lemma report_out_week_keeps : cb_keeps report_out_week.
Proof.
  intros e text db ud H. unfold report_out_week.
  destruct (ud_user_id ud); [|data_ok_same].
  destruct (week_range_monday (env_now e)) as [[s e']|]; [|data_ok_same].
  destruct (sum_tx db _ OUT s e'); data_ok_same.
Qed.

Lemma report_month_keeps : cb_keeps report_month.
Proof.
  intros e text db ud H. unfold report_month.
  destruct (ud_user_id ud); [|data_ok_same].
  destruct (month_range (env_now e)) as [[s e']|]; [|data_ok_same].
  destruct (sum_tx db _ IN s e'); [|data_ok_same].
  destruct (sum_tx db _ OUT s e'); data_ok_same.
Qed.

Lemma menu_router_keeps : cb_keeps menu_router.
Proof.
  intros e text db ud H. unfold menu_router.
  destruct (str_eqb (strip text) btn_in_today); [now apply report_in_today_keeps|].
  destruct (str_eqb (strip text) btn_out_week); [now apply report_out_week_keeps|].
  destruct (str_eqb (strip text) btn_month); [now apply report_month_keeps|].
  destruct (str_eqb (strip text) btn_logout); [now apply logout_cmd_keeps|].
  data_ok_same.
Qed.

Lemma cancel_keeps : cb_keeps cancel.
Proof. intros e text db ud H. unfold cancel. data_ok_same. Qed.

Lemma main_handlers_keep : Forall (app_handler_keeps data_ok) main_handlers.
Proof.
  unfold main_handlers.
  repeat (apply Forall_cons || apply Forall_nil);
    cbn [app_handler_keeps conv_handlers reg_conv login_conv in_conv out_conv
         entry_points states fallbacks flat_map app snd cancel_fallback];
    repeat (apply Forall_cons || apply Forall_nil);
    intros e text db ud; cbn [h_callback text_handler].
  - apply start_keeps.
  - apply register_cmd_keeps.
  - apply reg_username_keeps.
  - apply reg_password_keeps.
  - apply cancel_keeps.
  - apply login_cmd_keeps.
  - apply login_username_keeps.
  - apply login_password_keeps.
  - apply cancel_keeps.
  - apply in_start_keeps.
  - apply in_amount_keeps.
  - apply in_note_keeps.
  - apply cancel_keeps.
  - apply out_start_keeps.
  - apply out_amount_keeps.
  - apply out_note_keeps.
  - apply cancel_keeps.
  - apply menu_router_keeps.
  - apply logout_cmd_keeps.
Qed.

(** Every callback of a conversation returns one of the conversation's
    own states or [END]. *)
Ltac returns_own :=
  intros e text db ud s;
  cbn [h_callback text_handler];
  unfold register_cmd, reg_username, reg_password, login_cmd, login_username,
    login_password, in_start, in_amount, in_note, out_start, out_amount, out_note,
    cancel;
  repeat match goal with
  | |- context [if ?c then _ else _] => destruct c
  | |- context [match ?c with _ => _ end] => destruct c
  end;
  cbn [o_ret]; intros Hret; try discriminate Hret;
  injection Hret as <-; first [now left | now right].

Lemma main_handlers_return : Forall app_handler_returns main_handlers.
Proof.
  unfold main_handlers.
  repeat (apply Forall_cons || apply Forall_nil);
    cbn [app_handler_returns conv_handlers reg_conv login_conv in_conv out_conv
         entry_points states fallbacks flat_map app snd cancel_fallback];
    try exact I;
    repeat (apply Forall_cons || apply Forall_nil); returns_own.
Qed.

Lemma process_update_ok (e : env) (u : update) (w : world) :
  world_ok w -> world_ok (fst (process_update e u w)).
Proof.
  intros [Hdata Hstates]. unfold process_update.
  pose proof (dispatch_handled main_handlers e u w) as Hh.
  split.
  - exact (handled_by_keeps data_ok _ _ _ _ _ main_handlers_keep Hh Hdata).
  - exact (handled_by_states_ok _ _ _ _ _ main_handlers_return Hh Hstates).
Qed.

Lemma empty_session_ok (db : database) :
  names_ok db -> world_ok (mkworld db empty_session).
Proof.
  intros Hnames. split.
  - unfold data_ok, reg_scratch_ok, pending_amount. cbn.
    repeat split; try assumption; try lia. discriminate.
  - intros i. destruct i; reflexivity.
Qed.

(** The invariants hold in every world the program reaches. *)
Lemma reachable_ok (w : world) : reachable w -> world_ok w.
Proof.
  induction 1 as [| e u w _ IH | w _ IH].
  - apply empty_session_ok. constructor.
  - now apply process_update_ok.
  - apply empty_session_ok. apply IH.
Qed.

Lemma run_reachable (l : list (env * update)) :
  forall w, reachable w -> reachable (run l w).
Proof.
  induction l as [|[e u] l IH]; intros w Hw; cbn [run].
  - exact Hw.
  - apply IH. now apply reach_update.
Qed.

End MainInvariants.

(** *** Several dialogues at once *)

Section Dialogues.
Context {U : UnicodeData} {B : Bcrypt}.

(** C2, as amended: in every world the program reaches, each of the four
    dialogues is on its own either idle or at one of its own two
    states; an update moves at most one of them; and when an update
    starts a dialogue, every other dialogue keeps the state it had, so
    a dialogue in progress is not replaced by the new one and several
    can be in progress together. *)
Theorem C2_dialogues_independent (w : world) :
  reachable w ->
  (forall i, own_state i (get_state i (w_session w)) = true)
  /\ (forall e u, exists i, forall j, j <> i ->
        get_state j (w_session (fst (process_update e u w)))
        = get_state j (w_session w))
  /\ (forall e u i j,
        get_state i (w_session w) = None ->
        get_state i (w_session (fst (process_update e u w))) <> None ->
        j <> i ->
        get_state j (w_session (fst (process_update e u w)))
        = get_state j (w_session w)).
Proof.
  intros Hreach.
  assert (Hframe : forall e u, exists i, forall j, j <> i ->
             get_state j (w_session (fst (process_update e u w)))
             = get_state j (w_session w)).
  { intros e u. unfold process_update.
    apply handled_by_frame with (hs := main_handlers) (e := e) (u := u).
    apply dispatch_handled. }
  split; [|split].
  - apply (reachable_ok w Hreach).
  - exact Hframe.
  - intros e u i j Hidle Hstarted Hj.
    destruct (Hframe e u) as [k Hk].
    destruct (conv_id_eq_dec i k) as [->|Hik].
    + now apply Hk.
    + exfalso. apply Hstarted. rewrite (Hk i Hik). exact Hidle.
Qed.

(** *** Registration, in the worlds the program reaches *)

(** C5: in every world the program reaches, registration is refused
    with the notice for a short name when the trimmed name has fewer
    than three characters, with the notice for a taken name when the
    store holds the name, and with the notice for a short password when
    the trimmed password has fewer than six characters; each refusal
    leaves the store, [user_data] and the state of the dialogue as they
    were.  At the store, inserting a taken name always raises: the
    [UNIQUE] column refuses the row, unless [bcrypt] has refused the
    password before.  A user is created only for a name of three
    characters or more that is free and a password of six characters
    or more. *)
Theorem C5_register_errors (w : world) (e : env) (text : str) :
  reachable w ->
  let db := w_db w in
  let ud := s_user_data (w_session w) in
  (* InvalidUsername *)
  (len_lt (strip text) 3 = true ->
   reg_username e text db ud
   = mkout db ud [msg_reg_short_username] (Ok (Some REG_USERNAME)))
  (* DuplicateUsername *)
  /\ (forall u, find_user db (strip text) = Some u ->
      reg_username e text db ud
      = mkout db ud [msg_reg_taken] (Ok (Some REG_USERNAME)))
  /\ (forall u username password, find_user db username = Some u ->
      create_user (env_salt e) (env_now e) db username password
      = Raise (if (BCRYPT_MAX_BYTES <? List.length (encode password))%nat
               then ValueError else IntegrityError))
  (* InvalidPassword *)
  /\ (len_lt (strip text) 6 = true ->
      reg_password e text db ud
      = mkout db ud [msg_reg_short_password] (Ok (Some REG_PASSWORD)))
  (* a user is created only when the three are avoided *)
  /\ o_db (reg_username e text db ud) = db
  /\ (o_db (reg_password e text db ud) <> db ->
      exists username,
        ud_reg_username ud = Some username
        /\ (3 <= List.length username)%nat
        /\ (6 <= List.length (strip text))%nat
        /\ find_user db username = None
        /\ users (o_db (reg_password e text db ud))
           = users db ++ [mkuser (users_seq db + 1) username
                                 (bcrypt_hash (encode (strip text)) (env_salt e))
                                 (isoformat (env_now e))]).
Proof.
  intros Hreach. cbv zeta.
  destruct (reachable_ok w Hreach) as [(Hnames & Hscratch & _) _].
  exact (register_errors e text (w_db w) (s_user_data (w_session w)) Hnames Hscratch).
Qed.

(** *** The note step, in the worlds the program reaches *)

(** C9, as amended: at the note step the trimmed input [-] is stored as
    no note and any other trimmed input as the note.  In every world
    the program reaches, for a session that is logged in and a pending
    amount that is an [INTEGER] of SQLite, the transaction recorded
    carries the pending amount and that note, and the confirmation is
    the notice followed by [rupiah] of the amount: the prefix [Rp.] and
    the digits of the amount in groups of three separated by [.], which
    read back to the amount; 50000 gives [Rp.50.000]. *)
Theorem C9_note_and_confirmation (w : world) (e : env) (text : str) :
  reachable w ->
  let db := w_db w in
  let ud := s_user_data (w_session w) in
  (strip text = lit "-" -> note_of text = None)
  /\ (strip text <> lit "-" -> note_of text = Some (strip text))
  /\ (forall uid, ud_user_id ud = Some uid ->
      pending_amount ud <= SQLITE_MAX_INTEGER ->
      in_note e text db ud
      = mkout (with_tx db (env_now e) uid IN (pending_amount ud) (note_of text))
              (set_tmp_amount None ud)
              [check_mark ++ lit " Uang masuk tercatat: " ++ rupiah (pending_amount ud)]
              (Ok (Some END))
      /\ out_note e text db ud
         = mkout (with_tx db (env_now e) uid OUT (pending_amount ud) (note_of text))
                 (set_tmp_amount None ud)
                 [check_mark ++ lit " Uang keluar tercatat: "
                  ++ rupiah (pending_amount ud)]
                 (Ok (Some END)))
  /\ (forall n, 0 <= n ->
      exists body,
        rupiah n = lit "Rp." ++ body
        /\ grouped_le (rev body) = true
        /\ int_of_str (remove_char 46%N body) = Ok n)
  /\ rupiah 50000 = lit "Rp.50.000".
Proof.
  intros Hreach. cbv zeta.
  destruct (reachable_ok w Hreach) as [(_ & _ & Hpos) _].
  split; [apply note_of_dash|].
  split; [apply note_of_text|].
  split; [|split].
  - intros uid Huid Hmax.
    split; [now apply in_note_records | now apply out_note_records].
  - intros n Hn. now apply rupiah_read_back.
  - reflexivity.
Qed.

(** *** Cancel *)

Ltac conv_cancel :=
  unfold conv_check_update, reg_conv, login_conv, in_conv, out_conv;
  cbn [states states_get entry_points fallbacks];
  repeat match goal with
  | |- context [?k =? ?s] => destruct (k =? s)
  end; reflexivity.

Lemma reg_conv_cancel (o : option Z) :
  conv_check_update reg_conv o (Command (lit "cancel"))
  = if is_active o then Some cancel_handler else None.
Proof. destruct o as [s|]; conv_cancel. Qed.

Lemma login_conv_cancel (o : option Z) :
  conv_check_update login_conv o (Command (lit "cancel"))
  = if is_active o then Some cancel_handler else None.
Proof. destruct o as [s|]; conv_cancel. Qed.

Lemma in_conv_cancel (o : option Z) :
  conv_check_update in_conv o (Command (lit "cancel"))
  = if is_active o then Some cancel_handler else None.
Proof. destruct o as [s|]; conv_cancel. Qed.

Lemma out_conv_cancel (o : option Z) :
  conv_check_update out_conv o (Command (lit "cancel"))
  = if is_active o then Some cancel_handler else None.
Proof. destruct o as [s|]; conv_cancel. Qed.

(** [/cancel] goes to the first dialogue in progress, which ends; with
    none in progress no handler takes it. *)
Lemma process_cancel (e : env) (w : world) :
  process_update e (Command (lit "cancel")) w
  = match first_active (w_session w) with
    | Some i =>
        (mkworld (w_db w)
                 (set_state i None
                    (set_user_data (cancelled (s_user_data (w_session w)))
                                   (w_session w))),
         [msg_cancelled])
    | None => (w, [])
    end.
Proof.
  unfold process_update, main_handlers. cbn [dispatch h_trigger].
  change (matches (OnCommand (lit "start")) (Command (lit "cancel"))) with false.
  change (matches (OnCommand (lit "logout")) (Command (lit "cancel"))) with false.
  cbv iota.
  rewrite reg_conv_cancel, login_conv_cancel, in_conv_cancel, out_conv_cancel.
  destruct w as [db [r l i o ud]]. unfold first_active.
  cbn [w_session w_db get_state find s_user_data].
  destruct r; [reflexivity|]. destruct l; [reflexivity|].
  destruct i; [reflexivity|]. destruct o; reflexivity.
Qed.

Lemma first_active_some (s : session) (i : conv_id) :
  first_active s = Some i ->
  S (active_count (set_state i None s)) = active_count s
  /\ forall ud, first_active (set_user_data ud s) = Some i.
Proof.
  destruct s as [r l n o ud]. unfold first_active, active_count.
  destruct r, l, n, o; cbn; intros [= <-]; split; reflexivity.
Qed.

Lemma first_active_none (s : session) :
  first_active s = None -> active_count s = 0%nat.
Proof.
  destruct s as [r l n o ud]. unfold first_active, active_count.
  destruct r, l, n, o; cbn; try discriminate; reflexivity.
Qed.

Lemma active_count_set_user_data (ud : user_data) (s : session) :
  active_count (set_user_data ud s) = active_count s.
Proof. reflexivity. Qed.

(** C8, as amended: whatever the state of the session, [/cancel]
    leaves the login ([user_id], [username]) and the store as they
    were.  When a dialogue is in progress it clears the three scratch
    keys, sends the notice and ends one dialogue, the first in progress
    in the order register, login, money in, money out, leaving the
    others where they were; so from every state of a session with one
    dialogue in progress the session is back to no dialogue in
    progress. *)
Theorem C8_cancel (e : env) (w : world) :
  let r := process_update e (Command (lit "cancel")) w in
  let ud := s_user_data (w_session w) in
  let ud' := s_user_data (w_session (fst r)) in
  ud_user_id ud' = ud_user_id ud
  /\ ud_username ud' = ud_username ud
  /\ w_db (fst r) = w_db w
  /\ (active_count (w_session w) <> 0%nat ->
      ud_tmp_amount ud' = None /\ ud_reg_username ud' = None
      /\ ud_login_username ud' = None
      /\ snd r = [msg_cancelled]
      /\ S (active_count (w_session (fst r))) = active_count (w_session w)
      /\ exists i,
           first_active (w_session w) = Some i
           /\ get_state i (w_session (fst r)) = None
           /\ forall j, j <> i ->
                get_state j (w_session (fst r)) = get_state j (w_session w))
  /\ (active_count (w_session w) = 1%nat -> active_count (w_session (fst r)) = 0%nat).
Proof.
  cbv zeta. rewrite process_cancel.
  destruct (first_active (w_session w)) as [i|] eqn:Hfirst; cbn [fst snd w_db w_session].
  - rewrite user_data_set_state. cbn [s_user_data set_user_data].
    destruct (first_active_some _ _ Hfirst) as [Hcount _].
    assert (Hcount' :
      S (active_count (set_state i None
           (set_user_data (cancelled (s_user_data (w_session w))) (w_session w))))
      = active_count (w_session w)).
    { destruct (first_active_some (set_user_data (cancelled (s_user_data (w_session w)))
                                                 (w_session w)) i) as [H _].
      - now apply first_active_some.
      - exact H. }
    split; [reflexivity|]. split; [reflexivity|]. split; [reflexivity|]. split.
    + intros _. split; [reflexivity|]. split; [reflexivity|]. split; [reflexivity|].
      split; [reflexivity|]. split; [exact Hcount'|].
      exists i. split; [reflexivity|]. split; [apply get_set_state_same|].
      intros j Hj. now rewrite get_set_state_other, get_state_set_user_data.
    + intros Hone. rewrite Hone in Hcount'. now injection Hcount'.
  - pose proof (first_active_none _ Hfirst) as Hzero.
    split; [reflexivity|]. split; [reflexivity|]. split; [reflexivity|]. split.
    + intros Hne. contradiction.
    + intros Hone. rewrite Hone in Hzero. discriminate.
Qed.

End Dialogues.

Lemma C3_sum_in_range_witness :
  sum_tx db_alice_income 1 IN (lit "2024-12-31T00:00:00+08:00")
         (lit "2025-01-01T00:00:00+08:00")
  = Ok 50000.
Proof.
  assert (Hpos : Forall (fun t => 0 <= t_amount t) (transactions db_alice_income)).
  { repeat constructor. cbn. lia. }
  apply (proj1 (C3_sum_in_range db_alice_income 1 IN (lit "2024-12-31T00:00:00+08:00")
                  (lit "2025-01-01T00:00:00+08:00") Hpos)).
  vm_compute. discriminate.
Defined.

(** C3 as stated fails when the sum is not an [INTEGER] of SQLite: the
    program reaches a store with two incomes of 2^63 - 1 of one user on
    one day; both rows are in the range of that day, and [sum_tx] over
    it raises instead of returning their sum, so that the report of the
    day gets no answer. *)
Lemma C3_counterexample :
  let w := run (U := ref_unicode) (B := ref_bcrypt) trace_two_large_incomes init_world in
  let day := lit "2024-12-31T00:00:00+08:00" in
  let next := lit "2025-01-01T00:00:00+08:00" in
  reachable (U := ref_unicode) (B := ref_bcrypt) w
  /\ map t_amount (transactions (w_db w)) = [SQLITE_MAX_INTEGER; SQLITE_MAX_INTEGER]
  /\ forallb (tx_selected 1 IN day next) (transactions (w_db w)) = true
  /\ today_range sample_now = Ok (day, next)
  /\ sum_tx (w_db w) 1 IN day next = Raise OperationalError
  /\ process_update (U := ref_unicode) (B := ref_bcrypt) sample_env
       (Text btn_in_today) w = (w, []).
Proof.
  cbv zeta. split.
  - apply run_reachable. apply reach_init.
  - repeat split; reflexivity.
Qed.

Lemma C9_note_and_confirmation_witness :
  let w := run (U := ref_unicode) (B := ref_bcrypt) trace_alice_amount init_world in
  w_db w = db_alice
  /\ in_note sample_env (lit " - ") (w_db w) (s_user_data (w_session w))
     = mkout (with_tx db_alice sample_now 1 IN 50000 None)
             (set_tmp_amount None (s_user_data (w_session w)))
             [check_mark ++ lit " Uang masuk tercatat: " ++ lit "Rp.50.000"]
             (Ok (Some END)).
Proof.
  cbv zeta. split; [reflexivity|].
  assert (Hreach : reachable (U := ref_unicode) (B := ref_bcrypt)
                     (run (U := ref_unicode) (B := ref_bcrypt)
                          trace_alice_amount init_world)).
  { apply run_reachable. apply reach_init. }
  assert (Hmax : pending_amount
                   (s_user_data
                      (w_session (run (U := ref_unicode) (B := ref_bcrypt)
                                      trace_alice_amount init_world)))
                 <= SQLITE_MAX_INTEGER).
  { vm_compute. discriminate. }
  pose proof (C9_note_and_confirmation (U := ref_unicode) (B := ref_bcrypt) _ sample_env
                (lit " - ") Hreach) as H.
  exact (proj1 (proj1 (proj2 (proj2 H)) 1 eq_refl Hmax)).
Defined.

(** C9 as stated fails in two worlds the program reaches where the
    income dialogue waits for its note.  In the first the user has
    logged out with 50000 pending: the note step raises [KeyError],
    sends nothing and records nothing.  In the second the user is
    logged in and the amount read is 2^63: the note step raises
    [OverflowError], sends nothing and records nothing. *)
Lemma C9_counterexample :
  let w := run (U := ref_unicode) (B := ref_bcrypt) trace_amount_logged_out init_world in
  let w' := run (U := ref_unicode) (B := ref_bcrypt) trace_amount_too_large init_world in
  let step := process_update (U := ref_unicode) (B := ref_bcrypt) sample_env
                (Text (lit "lunch")) in
  reachable (U := ref_unicode) (B := ref_bcrypt) w
  /\ st_in (w_session w) = Some IN_NOTE
  /\ ud_tmp_amount (s_user_data (w_session w)) = Some 50000
  /\ o_ret (in_note sample_env (lit "lunch") (w_db w) (s_user_data (w_session w)))
     = Raise (KeyError "user_id")
  /\ transactions (w_db (fst (step w))) = []
  /\ snd (step w) = []
  /\ reachable (U := ref_unicode) (B := ref_bcrypt) w'
  /\ st_in (w_session w') = Some IN_NOTE
  /\ ud_user_id (s_user_data (w_session w')) = Some 1
  /\ ud_tmp_amount (s_user_data (w_session w')) = Some (SQLITE_MAX_INTEGER + 1)
  /\ o_ret (in_note sample_env (lit "lunch") (w_db w') (s_user_data (w_session w')))
     = Raise OverflowError
  /\ transactions (w_db (fst (step w'))) = []
  /\ snd (step w') = [].
Proof.
  cbv zeta.
  split; [apply run_reachable; apply reach_init|].
  do 5 (split; [reflexivity|]).
  split; [apply run_reachable; apply reach_init|].
  repeat split; reflexivity.
Qed.

Lemma C5_register_errors_witness :
  let w := run (U := ref_unicode) (B := ref_bcrypt) trace_alice_registers init_world in
  w_db w = db_alice
  /\ reg_username sample_env (lit " alice ") (w_db w) (s_user_data (w_session w))
     = mkout (w_db w) (s_user_data (w_session w)) [msg_reg_taken]
             (Ok (Some REG_USERNAME)).
Proof.
  cbv zeta. split; [reflexivity|].
  assert (Hreach : reachable (U := ref_unicode) (B := ref_bcrypt)
                     (run (U := ref_unicode) (B := ref_bcrypt)
                          trace_alice_registers init_world)).
  { apply run_reachable. apply reach_init. }
  pose proof (C5_register_errors (U := ref_unicode) (B := ref_bcrypt) _ sample_env
                (lit " alice ") Hreach) as H.
  exact (proj1 (proj2 H) _ eq_refl).
Defined.

(** C2 as stated fails: after [/register] and [/login] two dialogues
    are in progress, and the registration is still at its first state,
    not replaced by the login. *)
Lemma C2_counterexample :
  let w := run (U := ref_unicode) (B := ref_bcrypt) trace_two_dialogues init_world in
  reachable (U := ref_unicode) (B := ref_bcrypt) w
  /\ st_reg (w_session w) = Some REG_USERNAME
  /\ st_login (w_session w) = Some LOGIN_USERNAME
  /\ active_count (w_session w) = 2%nat.
Proof.
  cbv zeta. split.
  - apply run_reachable. apply reach_init.
  - repeat split; reflexivity.
Qed.

(** C8 as stated fails: with two dialogues in progress [/cancel] ends
    the registration only, and the login dialogue is still in progress. *)
Lemma C8_counterexample :
  let w := run (U := ref_unicode) (B := ref_bcrypt) trace_two_dialogues init_world in
  let w' := fst (process_update (U := ref_unicode) (B := ref_bcrypt)
                   sample_env (Command (lit "cancel")) w) in
  reachable (U := ref_unicode) (B := ref_bcrypt) w
  /\ st_login (w_session w') = Some LOGIN_USERNAME
  /\ active_count (w_session w') = 1%nat.
Proof.
  cbv zeta. split.
  - apply run_reachable. apply reach_init.
  - split; reflexivity.
Qed.

Lemma C8_cancel_witness :
  active_count
    (w_session (fst (process_update (U := ref_unicode) (B := ref_bcrypt) sample_env
                       (Command (lit "cancel"))
                       (mkworld db_alice
                          (mksession None None (Some IN_NOTE) None ud_alice_50000)))))
  = 0%nat.
Proof.
  apply (C8_cancel (U := ref_unicode) (B := ref_bcrypt) sample_env
           (mkworld db_alice (mksession None None (Some IN_NOTE) None ud_alice_50000))).
  reflexivity.
Defined.

Lemma C2_dialogues_independent_witness :
  own_state CReg
    (get_state CReg
       (w_session (run (U := ref_unicode) (B := ref_bcrypt)
                       trace_two_dialogues init_world))) = true.
Proof.
  apply (C2_dialogues_independent (U := ref_unicode) (B := ref_bcrypt)).
  apply run_reachable. apply reach_init.
Defined.

(** C10 as stated fails when the login was ended as well: the program
    reaches a world where the income dialogue waits for its note, no
    amount is pending and nobody is logged in; there the note step
    raises [KeyError], sends nothing and records nothing. *)
Lemma C10_counterexample :
  let w := run (U := ref_unicode) (B := ref_bcrypt) trace_note_logged_out init_world in
  reachable (U := ref_unicode) (B := ref_bcrypt) w
  /\ st_in (w_session w) = Some IN_NOTE
  /\ ud_tmp_amount (s_user_data (w_session w)) = None
  /\ o_ret (in_note sample_env (lit "lunch") (w_db w) (s_user_data (w_session w)))
     = Raise (KeyError "user_id")
  /\ process_update (U := ref_unicode) (B := ref_bcrypt)
       sample_env (Text (lit "lunch")) w = (w, [])
  /\ transactions (w_db w) = [].
Proof.
  cbv zeta. split.
  - apply run_reachable. apply reach_init.
  - repeat split; reflexivity.
Qed.

(* ================================================================= *)
(** * Further properties of the program *)

(** ** Routing of updates *)

Lemma world_eta (w : world) :
  mkworld (w_db w) (set_user_data (s_user_data (w_session w)) (w_session w)) = w.
Proof. now destruct w as [db [r l i o ud]]. Qed.

Ltac simpl_world :=
  cbn [fst snd w_db w_session s_user_data st_reg st_login st_in st_out set_state
       set_user_data get_state o_db o_ud o_ret o_replies message_text
       conv_update_state].

(** [check_update] of a conversation of the shape [main] builds: one
    entry point, two states with one text handler each, and [/cancel]
    as the fallback. *)
Lemma conv_check_shape (trig : trigger) (entry : callback) (k1 k2 : Z)
    (cb1 cb2 : callback) (o : option Z) (u : update) :
  conv_check_update
    (mkconv [mkhandler trig entry]
            [(k1, [text_handler cb1]); (k2, [text_handler cb2])]
            cancel_fallback) o u
  = match o with
    | None => if matches trig u then Some (mkhandler trig entry) else None
    | Some s =>
        match u with
        | Text _ =>
            if k1 =? s then Some (text_handler cb1)
            else if k2 =? s then Some (text_handler cb2) else None
        | Command n =>
            if str_eqb n (lit "cancel") then Some cancel_handler else None
        end
    end.
Proof.
  unfold conv_check_update. cbn [entry_points states fallbacks states_get].
  destruct o as [s|].
  - destruct u as [n|t]; destruct (k1 =? s); destruct (k2 =? s); try reflexivity.
  - unfold first_match. cbn [find h_trigger]. now destruct (matches trig u).
Qed.

Section Routing.
Context {U : UnicodeData} {B : Bcrypt}.

Lemma process_update_unfold (e : env) (u : update) (w : world) :
  process_update e u w
  = if matches (OnCommand (lit "start")) u then plain_step start e u w
    else match conv_check_update reg_conv (st_reg (w_session w)) u with
    | Some h => conv_step CReg (h_callback h) e u w
    | None =>
    match conv_check_update login_conv (st_login (w_session w)) u with
    | Some h => conv_step CLogin (h_callback h) e u w
    | None =>
    match conv_check_update in_conv (st_in (w_session w)) u with
    | Some h => conv_step CIn (h_callback h) e u w
    | None =>
    match conv_check_update out_conv (st_out (w_session w)) u with
    | Some h => conv_step COut (h_callback h) e u w
    | None =>
      if matches OnText u then plain_step menu_router e u w
      else if matches (OnCommand (lit "logout")) u then plain_step logout_cmd e u w
      else (w, [])
    end end end end.
Proof. reflexivity. Qed.

Lemma conv_check_command (o : option Z) (name : str) :
  conv_check_update reg_conv o (Command name)
  = match o with
    | None => if str_eqb name (lit "register")
              then Some (mkhandler (OnCommand (lit "register")) register_cmd) else None
    | Some _ => if str_eqb name (lit "cancel") then Some cancel_handler else None
    end
  /\ conv_check_update login_conv o (Command name)
  = match o with
    | None => if str_eqb name (lit "login")
              then Some (mkhandler (OnCommand (lit "login")) login_cmd) else None
    | Some _ => if str_eqb name (lit "cancel") then Some cancel_handler else None
    end
  /\ conv_check_update in_conv o (Command name)
  = match o with
    | None => None
    | Some _ => if str_eqb name (lit "cancel") then Some cancel_handler else None
    end
  /\ conv_check_update out_conv o (Command name)
  = match o with
    | None => None
    | Some _ => if str_eqb name (lit "cancel") then Some cancel_handler else None
    end.
Proof.
  unfold reg_conv, login_conv, in_conv, out_conv.
  rewrite !conv_check_shape. destruct o; repeat split; reflexivity.
Qed.

Lemma conv_check_text (o : option Z) (t : str) :
  conv_check_update reg_conv o (Text t)
  = match o with
    | None => None
    | Some s => if REG_USERNAME =? s then Some (text_handler reg_username)
                else if REG_PASSWORD =? s then Some (text_handler reg_password)
                else None
    end
  /\ conv_check_update login_conv o (Text t)
  = match o with
    | None => None
    | Some s => if LOGIN_USERNAME =? s then Some (text_handler login_username)
                else if LOGIN_PASSWORD =? s then Some (text_handler login_password)
                else None
    end
  /\ conv_check_update in_conv o (Text t)
  = match o with
    | None => if regex_line btn_in t
              then Some (mkhandler (OnRegexLine btn_in) in_start) else None
    | Some s => if IN_AMOUNT =? s then Some (text_handler in_amount)
                else if IN_NOTE =? s then Some (text_handler in_note)
                else None
    end
  /\ conv_check_update out_conv o (Text t)
  = match o with
    | None => if regex_line btn_out t
              then Some (mkhandler (OnRegexLine btn_out) out_start) else None
    | Some s => if OUT_AMOUNT =? s then Some (text_handler out_amount)
                else if OUT_NOTE =? s then Some (text_handler out_note)
                else None
    end.
Proof.
  unfold reg_conv, login_conv, in_conv, out_conv.
  rewrite !conv_check_shape. destruct o; repeat split; reflexivity.
Qed.

(** Unfolds [process_update] on a world whose session is written out. *)
Ltac route :=
  rewrite process_update_unfold;
  cbn [w_session w_db st_reg st_login st_in st_out matches];
  repeat match goal with
  | |- context [conv_check_update reg_conv ?o (Text ?t)] =>
      rewrite (proj1 (conv_check_text o t))
  | |- context [conv_check_update login_conv ?o (Text ?t)] =>
      rewrite (proj1 (proj2 (conv_check_text o t)))
  | |- context [conv_check_update in_conv ?o (Text ?t)] =>
      rewrite (proj1 (proj2 (proj2 (conv_check_text o t))))
  | |- context [conv_check_update out_conv ?o (Text ?t)] =>
      rewrite (proj2 (proj2 (proj2 (conv_check_text o t))))
  | |- context [conv_check_update reg_conv ?o (Command ?t)] =>
      rewrite (proj1 (conv_check_command o t))
  | |- context [conv_check_update login_conv ?o (Command ?t)] =>
      rewrite (proj1 (proj2 (conv_check_command o t)))
  | |- context [conv_check_update in_conv ?o (Command ?t)] =>
      rewrite (proj1 (proj2 (proj2 (conv_check_command o t))))
  | |- context [conv_check_update out_conv ?o (Command ?t)] =>
      rewrite (proj2 (proj2 (proj2 (conv_check_command o t))))
  end.

(** *** Commands *)

Lemma route_start (e : env) (w : world) :
  process_update e (Command (lit "start")) w = (w, [msg_start]).
Proof. now destruct w as [db [r l i o ud]]. Qed.

Lemma route_register (e : env) (w : world) :
  st_reg (w_session w) = None ->
  process_update e (Command (lit "register")) w
  = (mkworld (w_db w) (set_state CReg (Some REG_USERNAME) (w_session w)),
     [msg_reg_ask_username]).
Proof. destruct w as [db [r l i o ud]]. cbn. now intros ->. Qed.

Lemma route_register_again (e : env) (w : world) :
  st_reg (w_session w) <> None ->
  process_update e (Command (lit "register")) w = (w, []).
Proof.
  destruct w as [db [r l i o ud]]. cbn [w_session st_reg]. intros Hr.
  destruct r as [sr|]; [|now destruct Hr].
  route. destruct l, i, o; reflexivity.
Qed.

Lemma route_login (e : env) (w : world) :
  st_login (w_session w) = None ->
  process_update e (Command (lit "login")) w
  = (mkworld (w_db w) (set_state CLogin (Some LOGIN_USERNAME) (w_session w)),
     [msg_login_ask_username]).
Proof.
  destruct w as [db [r l i o ud]]. cbn [w_session st_login]. intros ->.
  route. destruct r; reflexivity.
Qed.

Lemma route_login_again (e : env) (w : world) :
  st_login (w_session w) <> None ->
  process_update e (Command (lit "login")) w = (w, []).
Proof.
  destruct w as [db [r l i o ud]]. cbn [w_session st_login]. intros Hl.
  destruct l as [sl|]; [|now destruct Hl].
  route. destruct r, i, o; reflexivity.
Qed.

Lemma route_logout (e : env) (w : world) :
  process_update e (Command (lit "logout")) w
  = (mkworld (w_db w)
       (set_user_data (logged_out (s_user_data (w_session w))) (w_session w)),
     [msg_logout]).
Proof.
  destruct w as [db [r l i o ud]]. route. destruct r, l, i, o; reflexivity.
Qed.

Lemma route_unknown (e : env) (name : str) (w : world) :
  ~ In name known_commands -> process_update e (Command name) w = (w, []).
Proof.
  intros Hname. unfold known_commands in Hname. cbn [In] in Hname.
  assert (Hs : str_eqb name (lit "start") = false)
    by (apply str_eqb_neq; intros ->; tauto).
  assert (Hg : str_eqb name (lit "register") = false)
    by (apply str_eqb_neq; intros ->; tauto).
  assert (Hl : str_eqb name (lit "login") = false)
    by (apply str_eqb_neq; intros ->; tauto).
  assert (Hc : str_eqb name (lit "cancel") = false)
    by (apply str_eqb_neq; intros ->; tauto).
  assert (Ho : str_eqb name (lit "logout") = false)
    by (apply str_eqb_neq; intros ->; tauto).
  destruct w as [db [r l i o ud]]. route.
  rewrite Hs, Hg, Hl, Hc, Ho. destruct r, l, i, o; reflexivity.
Qed.

(** *** Texts *)

Lemma route_reg_username (e : env) (text : str) (w : world) :
  st_reg (w_session w) = Some REG_USERNAME ->
  process_update e (Text text) w = conv_step CReg reg_username e (Text text) w.
Proof. destruct w as [db [r l i o ud]]. cbn [w_session st_reg]. intros ->. now route. Qed.

Lemma route_reg_password (e : env) (text : str) (w : world) :
  st_reg (w_session w) = Some REG_PASSWORD ->
  process_update e (Text text) w = conv_step CReg reg_password e (Text text) w.
Proof. destruct w as [db [r l i o ud]]. cbn [w_session st_reg]. intros ->. now route. Qed.

Lemma route_login_username (e : env) (text : str) (w : world) :
  st_reg (w_session w) = None -> st_login (w_session w) = Some LOGIN_USERNAME ->
  process_update e (Text text) w = conv_step CLogin login_username e (Text text) w.
Proof.
  destruct w as [db [r l i o ud]]. cbn [w_session st_reg st_login].
  intros -> ->. now route.
Qed.

Lemma route_login_password (e : env) (text : str) (w : world) :
  st_reg (w_session w) = None -> st_login (w_session w) = Some LOGIN_PASSWORD ->
  process_update e (Text text) w = conv_step CLogin login_password e (Text text) w.
Proof.
  destruct w as [db [r l i o ud]]. cbn [w_session st_reg st_login].
  intros -> ->. now route.
Qed.

Lemma route_in_amount (e : env) (text : str) (w : world) :
  st_reg (w_session w) = None -> st_login (w_session w) = None ->
  st_in (w_session w) = Some IN_AMOUNT ->
  process_update e (Text text) w = conv_step CIn in_amount e (Text text) w.
Proof.
  destruct w as [db [r l i o ud]]. cbn [w_session st_reg st_login st_in].
  intros -> -> ->. now route.
Qed.

Lemma route_in_note (e : env) (text : str) (w : world) :
  st_reg (w_session w) = None -> st_login (w_session w) = None ->
  st_in (w_session w) = Some IN_NOTE ->
  process_update e (Text text) w = conv_step CIn in_note e (Text text) w.
Proof.
  destruct w as [db [r l i o ud]]. cbn [w_session st_reg st_login st_in].
  intros -> -> ->. now route.
Qed.

Lemma route_in_start (e : env) (text : str) (w : world) :
  st_reg (w_session w) = None -> st_login (w_session w) = None ->
  st_in (w_session w) = None -> regex_line btn_in text = true ->
  process_update e (Text text) w = conv_step CIn in_start e (Text text) w.
Proof.
  destruct w as [db [r l i o ud]]. cbn [w_session st_reg st_login st_in].
  intros -> -> -> Hin. route. now rewrite Hin.
Qed.

Lemma route_out_amount (e : env) (text : str) (w : world) :
  st_reg (w_session w) = None -> st_login (w_session w) = None ->
  st_in (w_session w) = None -> regex_line btn_in text = false ->
  st_out (w_session w) = Some OUT_AMOUNT ->
  process_update e (Text text) w = conv_step COut out_amount e (Text text) w.
Proof.
  destruct w as [db [r l i o ud]]. cbn [w_session st_reg st_login st_in st_out].
  intros -> -> -> Hin ->. route. now rewrite Hin.
Qed.

Lemma route_out_note (e : env) (text : str) (w : world) :
  st_reg (w_session w) = None -> st_login (w_session w) = None ->
  st_in (w_session w) = None -> regex_line btn_in text = false ->
  st_out (w_session w) = Some OUT_NOTE ->
  process_update e (Text text) w = conv_step COut out_note e (Text text) w.
Proof.
  destruct w as [db [r l i o ud]]. cbn [w_session st_reg st_login st_in st_out].
  intros -> -> -> Hin ->. route. now rewrite Hin.
Qed.

Lemma route_out_start (e : env) (text : str) (w : world) :
  st_reg (w_session w) = None -> st_login (w_session w) = None ->
  st_in (w_session w) = None -> regex_line btn_in text = false ->
  st_out (w_session w) = None -> regex_line btn_out text = true ->
  process_update e (Text text) w = conv_step COut out_start e (Text text) w.
Proof.
  destruct w as [db [r l i o ud]]. cbn [w_session st_reg st_login st_in st_out].
  intros -> -> -> Hin -> Hout. route. now rewrite Hin, Hout.
Qed.

Lemma route_menu (e : env) (text : str) (w : world) :
  st_reg (w_session w) = None -> st_login (w_session w) = None ->
  st_in (w_session w) = None -> regex_line btn_in text = false ->
  st_out (w_session w) = None -> regex_line btn_out text = false ->
  process_update e (Text text) w = plain_step menu_router e (Text text) w.
Proof.
  destruct w as [db [r l i o ud]]. cbn [w_session st_reg st_login st_in st_out].
  intros -> -> -> Hin -> Hout. route. now rewrite Hin, Hout.
Qed.

(** Every way [main]'s handlers treat an update: to prove a property of
    the result it is enough to prove it for each callback under the
    condition that sends the update to it. *)
Lemma process_update_cases (e : env) (u : update) (w : world)
    (P : world * list str -> Prop) :
  let s := w_session w in
  P (w, []) ->
  P (plain_step start e u w) ->
  (st_reg s = None -> P (conv_step CReg register_cmd e u w)) ->
  (st_reg s = Some REG_USERNAME -> P (conv_step CReg reg_username e u w)) ->
  (st_reg s = Some REG_PASSWORD -> P (conv_step CReg reg_password e u w)) ->
  (st_reg s <> None -> P (conv_step CReg cancel e u w)) ->
  (st_login s = None -> P (conv_step CLogin login_cmd e u w)) ->
  (st_login s = Some LOGIN_USERNAME -> P (conv_step CLogin login_username e u w)) ->
  (st_login s = Some LOGIN_PASSWORD -> P (conv_step CLogin login_password e u w)) ->
  (st_reg s = None -> st_login s <> None -> P (conv_step CLogin cancel e u w)) ->
  (st_in s = None -> P (conv_step CIn in_start e u w)) ->
  (st_in s = Some IN_AMOUNT -> P (conv_step CIn in_amount e u w)) ->
  (st_in s = Some IN_NOTE -> P (conv_step CIn in_note e u w)) ->
  (st_reg s = None -> st_login s = None -> st_in s <> None ->
   P (conv_step CIn cancel e u w)) ->
  (st_out s = None -> P (conv_step COut out_start e u w)) ->
  (st_out s = Some OUT_AMOUNT -> P (conv_step COut out_amount e u w)) ->
  (st_out s = Some OUT_NOTE -> P (conv_step COut out_note e u w)) ->
  (st_reg s = None -> st_login s = None -> st_in s = None -> st_out s <> None ->
   P (conv_step COut cancel e u w)) ->
  P (plain_step menu_router e u w) ->
  P (plain_step logout_cmd e u w) ->
  P (process_update e u w).
Proof.
  cbv zeta. destruct w as [db [r l i o ud]].
  cbn [w_session st_reg st_login st_in st_out].
  intros Hnone Hstart Hreg Hrn Hrp Hrc Hlog Hln Hlp Hlc Hin Hia Hio Hic
         Hout Hoa Hoo Hoc Hmenu Hlogout.
  destruct u as [name|text]; route.
  - (* a command *)
    destruct (str_eqb name (lit "start")); [exact Hstart|].
    destruct r as [sr|].
    { destruct (str_eqb name (lit "cancel")); [now apply Hrc|].
      destruct l as [sl|]; [|destruct (str_eqb name (lit "login")); [now apply Hlog|]];
        destruct i, o; cbn [h_callback];
        destruct (str_eqb name (lit "logout")); auto. }
    destruct (str_eqb name (lit "register")); [now apply Hreg|].
    destruct l as [sl|].
    { destruct (str_eqb name (lit "cancel")); [now apply Hlc|].
      destruct i, o; destruct (str_eqb name (lit "logout")); auto. }
    destruct (str_eqb name (lit "login")); [now apply Hlog|].
    destruct i as [si|].
    { destruct (str_eqb name (lit "cancel")); [now apply Hic|].
      destruct o; destruct (str_eqb name (lit "logout")); auto. }
    destruct o as [so|].
    { destruct (str_eqb name (lit "cancel")); [now apply Hoc|].
      destruct (str_eqb name (lit "logout")); auto. }
    destruct (str_eqb name (lit "logout")); auto.
  - (* a text *)
    assert (Hrest_out :
      P match
          match o with
          | Some s =>
              if OUT_AMOUNT =? s then Some (text_handler out_amount)
              else if OUT_NOTE =? s then Some (text_handler out_note) else None
          | None =>
              if regex_line btn_out text
              then Some (mkhandler (OnRegexLine btn_out) out_start) else None
          end
        with
        | Some h => conv_step COut (h_callback h) e (Text text)
                      (mkworld db (mksession r l i o ud))
        | None => plain_step menu_router e (Text text)
                      (mkworld db (mksession r l i o ud))
        end).
    { destruct o as [so|].
      - destruct (Z.eqb_spec OUT_AMOUNT so) as [<-|_]; [now apply Hoa|].
        destruct (Z.eqb_spec OUT_NOTE so) as [<-|_]; [now apply Hoo|]. exact Hmenu.
      - destruct (regex_line btn_out text); [now apply Hout | exact Hmenu]. }
    assert (Hrest_in :
      P match
          match i with
          | Some s =>
              if IN_AMOUNT =? s then Some (text_handler in_amount)
              else if IN_NOTE =? s then Some (text_handler in_note) else None
          | None =>
              if regex_line btn_in text
              then Some (mkhandler (OnRegexLine btn_in) in_start) else None
          end
        with
        | Some h => conv_step CIn (h_callback h) e (Text text)
                      (mkworld db (mksession r l i o ud))
        | None =>
            match
              match o with
              | Some s =>
                  if OUT_AMOUNT =? s then Some (text_handler out_amount)
                  else if OUT_NOTE =? s then Some (text_handler out_note) else None
              | None =>
                  if regex_line btn_out text
                  then Some (mkhandler (OnRegexLine btn_out) out_start) else None
              end
            with
            | Some h => conv_step COut (h_callback h) e (Text text)
                          (mkworld db (mksession r l i o ud))
            | None => plain_step menu_router e (Text text)
                          (mkworld db (mksession r l i o ud))
            end
        end).
    { destruct i as [si|].
      - destruct (Z.eqb_spec IN_AMOUNT si) as [<-|_]; [now apply Hia|].
        destruct (Z.eqb_spec IN_NOTE si) as [<-|_]; [now apply Hio|]. exact Hrest_out.
      - destruct (regex_line btn_in text); [now apply Hin | exact Hrest_out]. }
    destruct r as [sr|].
    { destruct (Z.eqb_spec REG_USERNAME sr) as [<-|_]; [now apply Hrn|].
      destruct (Z.eqb_spec REG_PASSWORD sr) as [<-|_]; [now apply Hrp|].
      destruct l as [sl|]; [|exact Hrest_in].
      destruct (Z.eqb_spec LOGIN_USERNAME sl) as [<-|_]; [now apply Hln|].
      destruct (Z.eqb_spec LOGIN_PASSWORD sl) as [<-|_]; [now apply Hlp|].
      exact Hrest_in. }
    destruct l as [sl|]; [|exact Hrest_in].
    destruct (Z.eqb_spec LOGIN_USERNAME sl) as [<-|_]; [now apply Hln|].
    destruct (Z.eqb_spec LOGIN_PASSWORD sl) as [<-|_]; [now apply Hlp|].
    exact Hrest_in.
Qed.

(** X1: what [main]'s handlers do with a command, whatever the session.
    [/start] answers with the greeting and changes nothing.  [/register]
    and [/login] open their dialogue when it is not in progress, and
    are ignored, without an answer, when it is: a dialogue is not
    started over.  [/logout] always removes the login and answers,
    leaving the store, the state of every dialogue and the scratch keys
    as they were.  A command other than these and [/cancel] is ignored
    without an answer. *)
Theorem X1_command_routing (e : env) (w : world) :
  let s := w_session w in
  process_update e (Command (lit "start")) w = (w, [msg_start])
  /\ (st_reg s = None ->
      process_update e (Command (lit "register")) w
      = (mkworld (w_db w) (set_state CReg (Some REG_USERNAME) s),
         [msg_reg_ask_username]))
  /\ (st_reg s <> None ->
      process_update e (Command (lit "register")) w = (w, []))
  /\ (st_login s = None ->
      process_update e (Command (lit "login")) w
      = (mkworld (w_db w) (set_state CLogin (Some LOGIN_USERNAME) s),
         [msg_login_ask_username]))
  /\ (st_login s <> None ->
      process_update e (Command (lit "login")) w = (w, []))
  /\ process_update e (Command (lit "logout")) w
     = (mkworld (w_db w) (set_user_data (logged_out (s_user_data s)) s),
        [msg_logout])
  /\ (forall name, ~ In name known_commands ->
      process_update e (Command name) w = (w, [])).
Proof.
  cbv zeta.
  split; [apply route_start|]. split; [apply route_register|].
  split; [apply route_register_again|]. split; [apply route_login|].
  split; [apply route_login_again|]. split; [apply route_logout|].
  intros name. apply route_unknown.
Qed.

(** X2: which callback gets a text message, by the order in which
    [main] adds its handlers.  A registration in progress takes every
    text; otherwise a login in progress does; otherwise an income
    dialogue in progress does.  With none of the three in progress, the
    text of the income button opens the income dialogue, also while an
    expense dialogue is in progress; any other text goes to the expense
    dialogue when that is in progress; and with no dialogue in progress
    the text of the expense button opens the expense dialogue and every
    other text goes to [menu_router]. *)
Theorem X2_text_routing (e : env) (text : str) (w : world) :
  let s := w_session w in
  let u := Text text in
  (st_reg s = Some REG_USERNAME ->
   process_update e u w = conv_step CReg reg_username e u w)
  /\ (st_reg s = Some REG_PASSWORD ->
      process_update e u w = conv_step CReg reg_password e u w)
  /\ (st_reg s = None ->
      (st_login s = Some LOGIN_USERNAME ->
       process_update e u w = conv_step CLogin login_username e u w)
      /\ (st_login s = Some LOGIN_PASSWORD ->
          process_update e u w = conv_step CLogin login_password e u w)
      /\ (st_login s = None ->
          (st_in s = Some IN_AMOUNT ->
           process_update e u w = conv_step CIn in_amount e u w)
          /\ (st_in s = Some IN_NOTE ->
              process_update e u w = conv_step CIn in_note e u w)
          /\ (st_in s = None -> regex_line btn_in text = true ->
              process_update e u w = conv_step CIn in_start e u w)
          /\ (st_in s = None -> regex_line btn_in text = false ->
              (st_out s = Some OUT_AMOUNT ->
               process_update e u w = conv_step COut out_amount e u w)
              /\ (st_out s = Some OUT_NOTE ->
                  process_update e u w = conv_step COut out_note e u w)
              /\ (st_out s = None -> regex_line btn_out text = true ->
                  process_update e u w = conv_step COut out_start e u w)
              /\ (st_out s = None -> regex_line btn_out text = false ->
                  process_update e u w = plain_step menu_router e u w)))).
Proof.
  cbv zeta.
  split; [apply route_reg_username|]. split; [apply route_reg_password|].
  intros Hr.
  split; [now apply route_login_username|]. split; [now apply route_login_password|].
  intros Hl.
  split; [now apply route_in_amount|]. split; [now apply route_in_note|].
  split; [now apply route_in_start|].
  intros Hi Hin.
  split; [now apply route_out_amount|]. split; [now apply route_out_note|].
  split; [now apply route_out_start|]. now apply route_menu.
Qed.

End Routing.

(** ** The menu *)

Lemma first_active_idle (s : session) :
  first_active s = None ->
  st_reg s = None /\ st_login s = None /\ st_in s = None /\ st_out s = None.
Proof.
  destruct s as [r l i o ud]. unfold first_active. cbn.
  destruct r; [discriminate|]. destruct l; [discriminate|].
  destruct i; [discriminate|]. destruct o; [discriminate|]. now repeat split.
Qed.

Section Menu.
Context {U : UnicodeData} {B : Bcrypt}.

(** X3: without a login the menu does nothing.  With no dialogue in
    progress and nobody logged in, the text of each button of
    [menu_keyboard] but the last is answered with the notice that asks
    to log in first, and the store and the session stay as they were;
    in particular the two buttons that open a dialogue open none.  The
    logout button answers that the user is logged out. *)
Theorem X3_menu_needs_login (e : env) (w : world) (b : str) :
  In b (List.concat (keyboard menu_keyboard)) ->
  first_active (w_session w) = None ->
  is_logged_in (s_user_data (w_session w)) = false ->
  process_update e (Text b) w
  = if str_eqb b btn_logout
    then (mkworld (w_db w)
            (set_user_data (logged_out (s_user_data (w_session w))) (w_session w)),
          [msg_logout])
    else (w, [msg_not_logged_in]).
Proof.
  intros Hb Hidle Hout.
  destruct w as [db [r l i o [uid un ru lu ta]]].
  apply first_active_idle in Hidle. cbn in Hidle.
  destruct Hidle as (-> & -> & -> & ->).
  unfold is_logged_in in Hout. cbn in Hout.
  destruct uid; [discriminate|].
  cbn in Hb.
  destruct Hb as [<-|[<-|[<-|[<-|[<-|[<-|[]]]]]]]; reflexivity.
Qed.

Lemma menu_router_other (e : env) (text : str) (db : database) (ud : user_data) :
  ~ In (strip text) router_buttons ->
  menu_router e text db ud = mkout db ud [] (Ok None).
Proof.
  intros Hnot. unfold router_buttons in Hnot. cbn [In] in Hnot.
  unfold menu_router.
  assert (H1 : str_eqb (strip text) btn_in_today = false)
    by (apply str_eqb_neq; intros Heq; rewrite Heq in Hnot; tauto).
  assert (H2 : str_eqb (strip text) btn_out_week = false)
    by (apply str_eqb_neq; intros Heq; rewrite Heq in Hnot; tauto).
  assert (H3 : str_eqb (strip text) btn_month = false)
    by (apply str_eqb_neq; intros Heq; rewrite Heq in Hnot; tauto).
  assert (H4 : str_eqb (strip text) btn_logout = false)
    by (apply str_eqb_neq; intros Heq; rewrite Heq in Hnot; tauto).
  now rewrite H1, H2, H3, H4.
Qed.

(** X4: with no dialogue in progress, a text that is neither of the two
    buttons that open a dialogue, as sent, nor, once trimmed, one of the
    four texts [menu_router] knows, gets no answer and changes nothing.
    The two opening buttons are compared untrimmed: with a blank in
    front the income button is such a text. *)
Theorem X4_idle_text_ignored (e : env) (text : str) (w : world) :
  first_active (w_session w) = None ->
  regex_line btn_in text = false -> regex_line btn_out text = false ->
  ~ In (strip text) router_buttons ->
  process_update e (Text text) w = (w, []).
Proof.
  intros Hidle Hin Hout Hnot.
  destruct (first_active_idle _ Hidle) as (Hr & Hl & Hi & Ho).
  rewrite (route_menu e text w Hr Hl Hi Hin Ho Hout).
  unfold plain_step. cbn [message_text].
  rewrite (menu_router_other e text _ _ Hnot). cbn [o_db o_ud o_replies].
  now rewrite world_eta.
Qed.

End Menu.

Lemma X3_menu_needs_login_witness :
  process_update (U := ref_unicode) (B := ref_bcrypt) sample_env (Text btn_month)
                 init_world
  = (init_world, [msg_not_logged_in]).
Proof.
  apply (X3_menu_needs_login (U := ref_unicode) (B := ref_bcrypt) sample_env
           init_world btn_month).
  - cbn. right. right. right. right. left. reflexivity.
  - reflexivity.
  - reflexivity.
Defined.

Lemma X4_idle_text_ignored_witness :
  process_update (U := ref_unicode) (B := ref_bcrypt) sample_env
                 (Text ([32%N] ++ btn_in)) world_alice
  = (world_alice, []).
Proof.
  apply (X4_idle_text_ignored (U := ref_unicode) (B := ref_bcrypt)).
  - reflexivity.
  - reflexivity.
  - reflexivity.
  - vm_compute. intros [H|[H|[H|[H|[]]]]]; discriminate H.
Defined.

(** ** Login *)

Section Login.
Context {B : Bcrypt}.

(** X5: the password step of the login, in every case.  It leaves the
    store as it was and removes the name the dialogue kept.  When
    [verify_user] refuses the pair, it answers that the login failed,
    ends the dialogue and leaves [user_id] and [username] as they were:
    a login made before stays in place.  When [verify_user] accepts,
    [find_user] has a row for the name, the row's hash matches the
    password, [user_id] and [username] become that row's key and the
    name, and the dialogue ends.  [verify_user] raises only
    [ValueError], and only for a name that has an account and a
    password of more bytes than [bcrypt] takes: then nothing is sent,
    the login is as it was and the dialogue stays at the password
    step.  So for a password that [bcrypt] takes the step never raises
    and always ends the dialogue. *)
Theorem X5_login_password_outcome (e : env) (text : str) (db : database)
    (ud : user_data) :
  let o := login_password e text db ud in
  o_db o = db
  /\ ud_login_username (o_ud o) = None
  /\ ud_reg_username (o_ud o) = ud_reg_username ud
  /\ ud_tmp_amount (o_ud o) = ud_tmp_amount ud
  /\ (verify_user db (login_name ud) (strip text) = Ok false ->
      o_ret o = Ok (Some END)
      /\ o_replies o = [msg_login_failed]
      /\ ud_user_id (o_ud o) = ud_user_id ud
      /\ ud_username (o_ud o) = ud_username ud)
  /\ (verify_user db (login_name ud) (strip text) = Ok true ->
      exists u,
        find_user db (login_name ud) = Some u
        /\ checkpw (encode (strip text)) (u_password_hash u) = Ok true
        /\ o_ret o = Ok (Some END)
        /\ ud_user_id (o_ud o) = Some (u_id u)
        /\ ud_username (o_ud o) = Some (login_name ud)
        /\ o_replies o = [msg_login_done (login_name ud)])
  /\ (forall ex, verify_user db (login_name ud) (strip text) = Raise ex ->
      ex = ValueError
      /\ (BCRYPT_MAX_BYTES < List.length (encode (strip text)))%nat
      /\ find_user db (login_name ud) <> None
      /\ o_ret o = Raise ValueError
      /\ o_replies o = []
      /\ ud_user_id (o_ud o) = ud_user_id ud
      /\ ud_username (o_ud o) = ud_username ud)
  /\ ((List.length (encode (strip text)) <= BCRYPT_MAX_BYTES)%nat ->
      o_ret o = Ok (Some END)).
Proof.
  cbv zeta. unfold login_password. fold (login_name ud).
  destruct (verify_user db (login_name ud) (strip text)) as [[|]|ex] eqn:Hv.
  - unfold verify_user in Hv.
    destruct (find_user db (login_name ud)) as [u|] eqn:Hf; [|discriminate].
    repeat split; try reflexivity; try discriminate.
    intros _. exists u. now repeat split.
  - repeat split; try reflexivity; discriminate.
  - unfold verify_user in Hv.
    destruct (find_user db (login_name ud)) as [u|] eqn:Hf; [|discriminate].
    destruct (checkpw_raises _ _ _ Hv) as [-> Hlong].
    repeat split; try reflexivity; try discriminate.
    + congruence.
    + exact Hlong.
    + intros Hshort. exfalso. unfold BCRYPT_MAX_BYTES in *. lia.
Qed.

End Login.

(** ** Dialogues from start to end *)

Section Flows.
Context {U : UnicodeData} {B : Bcrypt}.

Lemma reg_username_accepts (e : env) (text : str) (db : database) (ud : user_data) :
  (3 <= List.length (strip text))%nat -> find_user db (strip text) = None ->
  reg_username e text db ud
  = mkout db (set_reg_username (Some (strip text)) ud) [msg_reg_ask_password]
          (Ok (Some REG_PASSWORD)).
Proof.
  intros Hlen Hfree. unfold reg_username.
  assert (Hl : len_lt (strip text) 3 = false).
  { unfold len_lt. apply Nat.ltb_ge. exact Hlen. }
  now rewrite Hl, Hfree.
Qed.

Lemma reg_password_accepts (e : env) (text : str) (db : database) (ud : user_data)
    (username : str) :
  (6 <= List.length (strip text))%nat ->
  (List.length (encode (strip text)) <= BCRYPT_MAX_BYTES)%nat ->
  ud_reg_username ud = Some username ->
  find_user db username = None ->
  reg_password e text db ud
  = mkout (mkdb (users db ++ [mkuser (users_seq db + 1) username
                                (bcrypt_hash (encode (strip text)) (env_salt e))
                                (isoformat (env_now e))])
                (users_seq db + 1) (transactions db) (transactions_seq db))
          (set_reg_username None ud) [msg_reg_done] (Ok (Some END)).
Proof.
  intros Hlen Hbytes Hname Hfree. unfold reg_password.
  assert (Hl : len_lt (strip text) 6 = false).
  { unfold len_lt. apply Nat.ltb_ge. exact Hlen. }
  now rewrite Hl, Hname, (create_user_free _ _ _ _ _ Hfree Hbytes).
Qed.

(** X6: a registration followed by a login.  In a session where
    neither dialogue is in progress, for a name that is free and has,
    trimmed, three characters or more, and a password that has,
    trimmed, six characters or more and no more bytes than [bcrypt]
    takes: after [/register], the name, the password,
    [/login], and a name and a password that trim to the same two
    texts, the store holds one more account, under the next key, for
    the trimmed name, and the session is logged in under that key and
    name.  Both dialogues have ended, the two money dialogues are where
    they were and no transaction was touched. *)
Theorem X6_register_then_login (e1 e2 e3 e4 e5 e6 : env)
    (name password name' password' : str) (w : world) :
  st_reg (w_session w) = None -> st_login (w_session w) = None ->
  (3 <= List.length (strip name))%nat ->
  (6 <= List.length (strip password))%nat ->
  (List.length (encode (strip password)) <= BCRYPT_MAX_BYTES)%nat ->
  find_user (w_db w) (strip name) = None ->
  strip name' = strip name -> strip password' = strip password ->
  let w' := run [(e1, Command (lit "register")); (e2, Text name); (e3, Text password);
                 (e4, Command (lit "login")); (e5, Text name'); (e6, Text password')]
                w in
  let id := users_seq (w_db w) + 1 in
  users (w_db w')
  = users (w_db w) ++ [mkuser id (strip name)
                              (bcrypt_hash (encode (strip password)) (env_salt e3))
                              (isoformat (env_now e3))]
  /\ transactions (w_db w') = transactions (w_db w)
  /\ ud_user_id (s_user_data (w_session w')) = Some id
  /\ ud_username (s_user_data (w_session w')) = Some (strip name)
  /\ st_reg (w_session w') = None /\ st_login (w_session w') = None
  /\ st_in (w_session w') = st_in (w_session w)
  /\ st_out (w_session w') = st_out (w_session w).
Proof.
  intros Hr Hl Hname Hpw Hbytes Hfree Hname' Hpw'. cbv zeta.
  destruct w as [db [r l i o ud]]. cbn [w_session w_db st_reg st_login] in *.
  subst r l.
  set (row := mkuser (users_seq db + 1) (strip name)
                (bcrypt_hash (encode (strip password)) (env_salt e3))
                (isoformat (env_now e3))).
  set (db' := mkdb (users db ++ [row]) (users_seq db + 1) (transactions db)
                (transactions_seq db)).
  assert (Hfind : find_user db' (strip name) = Some row).
  { unfold find_user, db'. cbn [users]. apply find_app_new; [exact Hfree|].
    cbn [u_username row]. apply str_eqb_refl. }
  match goal with |- context [run ?l ?w] =>
    assert (Hrun : run l w
                   = mkworld db'
                       (mksession None None i o
                          (set_username (Some (strip name))
                             (set_user_id (Some (users_seq db + 1))
                                (set_login_username None
                                   (set_login_username (Some (strip name))
                                      (set_reg_username None
                                         (set_reg_username (Some (strip name)) ud))))))))
  end.
  { cbn [run].
    rewrite (route_register e1) by reflexivity. simpl_world.
    rewrite (route_reg_username e2) by reflexivity.
    unfold conv_step at 1. simpl_world.
    rewrite (reg_username_accepts e2 name db ud Hname Hfree).
    simpl_world. change (REG_PASSWORD =? END) with false. cbv iota.
    rewrite (route_reg_password e3) by reflexivity.
    unfold conv_step at 1. simpl_world.
    rewrite (reg_password_accepts e3 password db (set_reg_username (Some (strip name)) ud)
               (strip name) Hpw Hbytes eq_refl Hfree).
    simpl_world. change (END =? END) with true. cbv iota.
    fold row. fold db'.
    rewrite (route_login e4) by reflexivity. simpl_world.
    rewrite (route_login_username e5) by reflexivity.
    unfold conv_step at 1. simpl_world.
    unfold login_username.
    simpl_world. change (LOGIN_PASSWORD =? END) with false. cbv iota.
    rewrite (route_login_password e6) by reflexivity.
    unfold conv_step at 1. simpl_world.
    unfold login_password.
    cbn [ud_login_username set_login_username set_reg_username].
    rewrite Hname', Hpw'.
    unfold verify_user. rewrite Hfind. cbn [u_password_hash row].
    rewrite (checkpw_hashpw _ _ Hbytes).
    simpl_world. change (END =? END) with true. cbv iota.
    reflexivity. }
  rewrite Hrun. repeat split; reflexivity.
Qed.

Lemma decimal_value_nonneg (s : str) (ds : list Z) :
  s <> [] -> Forall2 decimal s ds -> 0 <= digits_value ds.
Proof.
  intros Hne Hds. apply (int_of_str_nonneg s).
  now apply int_of_str_decimal.
Qed.

(** X7: an income or an expense from the button to the row.  For a
    logged-in user with no registration, login or income dialogue in
    progress (and, for an expense, no expense dialogue in progress and
    an amount and a note that are not the text of the income button):
    after the button, an amount that is, trimmed and without its
    separators, a non-empty string of decimal digits of a value SQLite
    can hold, and a note, the store holds one more transaction, of the
    user's account and of the kind of the button, with that value, the
    note read and the clock of the last message; the dialogue has ended
    and nothing is left pending. *)
Theorem X7_record_transaction (e1 e2 e3 : env) (ty : tx_type) (amount note : str)
    (ds : list Z) (uid : Z) (w : world) :
  let s := w_session w in
  let ud := s_user_data s in
  st_reg s = None -> st_login s = None -> st_in s = None ->
  (ty = OUT ->
   st_out s = None /\ regex_line btn_in amount = false
   /\ regex_line btn_in note = false) ->
  ud_user_id ud = Some uid ->
  amount_text amount <> [] -> Forall2 decimal (amount_text amount) ds ->
  digits_value ds <= SQLITE_MAX_INTEGER ->
  run [(e1, Text (entry_button ty)); (e2, Text amount); (e3, Text note)] w
  = mkworld (with_tx (w_db w) (env_now e3) uid ty (digits_value ds) (note_of note))
            (set_user_data (set_tmp_amount None ud) s).
Proof.
  cbv zeta. intros Hr Hl Hi Hout Huid Hne Hds Hmax.
  assert (Hpos : 0 <= digits_value ds <= SQLITE_MAX_INTEGER)
    by (split; [exact (decimal_value_nonneg _ _ Hne Hds) | exact Hmax]).
  destruct w as [db [r l i o ud]]. cbn [w_session w_db st_reg st_login st_in st_out
                                        s_user_data] in *.
  subst r l i. cbn [run].
  assert (Hlog : is_logged_in ud = true) by (unfold is_logged_in; now rewrite Huid).
  destruct ty; cbn [entry_button].
  - (* money in *)
    rewrite (route_in_start e1) by reflexivity.
    unfold conv_step at 1. simpl_world. unfold in_start. rewrite Hlog. cbn [negb].
    simpl_world. change (IN_AMOUNT =? END) with false. cbv iota.
    rewrite (route_in_amount e2) by reflexivity.
    unfold conv_step at 1. simpl_world.
    rewrite (in_amount_accepts e2 amount db ud ds Hne Hds).
    simpl_world. change (IN_NOTE =? END) with false. cbv iota.
    rewrite (route_in_note e3) by reflexivity.
    unfold conv_step at 1. simpl_world.
    rewrite (in_note_records e3 note db (set_tmp_amount (Some (digits_value ds)) ud) uid
               Huid Hpos).
    simpl_world. change (END =? END) with true. cbv iota. reflexivity.
  - (* money out *)
    destruct (Hout eq_refl) as (-> & Ha & Hn).
    rewrite (route_out_start e1) by reflexivity.
    unfold conv_step at 1. simpl_world. unfold out_start. rewrite Hlog. cbn [negb].
    simpl_world. change (OUT_AMOUNT =? END) with false. cbv iota.
    rewrite (route_out_amount e2) by (reflexivity || exact Ha).
    unfold conv_step at 1. simpl_world.
    rewrite (out_amount_accepts e2 amount db ud ds Hne Hds).
    simpl_world. change (OUT_NOTE =? END) with false. cbv iota.
    rewrite (route_out_note e3) by (reflexivity || exact Hn).
    unfold conv_step at 1. simpl_world.
    rewrite (out_note_records e3 note db (set_tmp_amount (Some (digits_value ds)) ud) uid
               Huid Hpos).
    simpl_world. change (END =? END) with true. cbv iota. reflexivity.
Qed.

End Flows.

Lemma X6_register_then_login_witness :
  ud_user_id
    (s_user_data
       (w_session
          (run (U := ref_unicode) (B := ref_bcrypt)
               [(sample_env, Command (lit "register")); (sample_env, Text (lit " alice "));
                (sample_env, Text (lit "secret1")); (sample_env, Command (lit "login"));
                (sample_env, Text (lit "alice")); (sample_env, Text (lit "secret1 "))]
               init_world)))
  = Some 1.
Proof.
  assert (H3 : (3 <= List.length (strip (lit " alice ")))%nat) by (vm_compute; lia).
  assert (H6 : (6 <= List.length (strip (lit "secret1")))%nat) by (vm_compute; lia).
  assert (H72 : (List.length (encode (strip (lit "secret1"))) <= BCRYPT_MAX_BYTES)%nat)
    by (vm_compute; lia).
  exact (proj1 (proj2 (proj2
    (X6_register_then_login (U := ref_unicode) (B := ref_bcrypt)
       sample_env sample_env sample_env sample_env sample_env sample_env
       (lit " alice ") (lit "secret1") (lit "alice") (lit "secret1 ") init_world
       eq_refl eq_refl H3 H6 H72 eq_refl eq_refl eq_refl)))).
Defined.

Lemma X7_record_transaction_witness :
  run (U := ref_unicode) (B := ref_bcrypt)
      [(sample_env, Text btn_in); (sample_env, Text (lit "50.000"));
       (sample_env, Text (lit " - "))]
      world_alice
  = mkworld db_alice_income (w_session world_alice).
Proof.
  apply (X7_record_transaction (U := ref_unicode) (B := ref_bcrypt)
           sample_env sample_env sample_env IN (lit "50.000") (lit " - ")
           [5; 0; 0; 0; 0] 1 world_alice).
  - reflexivity.
  - reflexivity.
  - reflexivity.
  - discriminate.
  - reflexivity.
  - discriminate.
  - repeat (constructor; [reflexivity|]). constructor.
  - vm_compute. discriminate.
Defined.

(** ** Sums over adjacent and nested ranges *)

Lemma str_compare_eq (a : str) : forall b, str_compare a b = Eq -> a = b.
Proof.
  induction a as [|x a IH]; intros [|y b]; cbn; try discriminate; [reflexivity|].
  destruct (N.compare_spec x y) as [->|Hlt|Hgt]; try discriminate.
  intros H. f_equal. now apply IH.
Qed.

Lemma str_compare_lt_trans (a : str) :
  forall b c, str_compare a b = Lt -> str_compare b c = Lt -> str_compare a c = Lt.
Proof.
  induction a as [|x a IH]; intros [|y b] [|z c]; cbn; try discriminate; try reflexivity.
  destruct (N.compare_spec x y) as [->|Hxy|Hxy]; try discriminate.
  - destruct (N.compare_spec y z) as [->|Hyz|Hyz]; try discriminate.
    + apply IH.
    + reflexivity.
  - intros _. destruct (N.compare_spec y z) as [->|Hyz|Hyz]; try discriminate.
    + intros _. apply N.compare_lt_iff in Hxy. now rewrite Hxy.
    + intros _. assert (H : (x < z)%N) by lia. apply N.compare_lt_iff in H.
      now rewrite H.
Qed.

Lemma str_compare_antisym (a : str) :
  forall b, str_compare b a = CompOpp (str_compare a b).
Proof.
  induction a as [|x a IH]; intros [|y b]; cbn; try reflexivity.
  rewrite (N.compare_antisym x y).
  destruct (N.compare x y); cbn; [apply IH | reflexivity | reflexivity].
Qed.

Lemma str_le_lt_trans (a b c : str) : str_le a b -> str_lt b c -> str_lt a c.
Proof.
  unfold str_le, str_lt. intros Hab Hbc.
  destruct (str_compare a b) eqn:E.
  - apply str_compare_eq in E. now subst.
  - now apply str_compare_lt_trans with b.
  - now destruct Hab.
Qed.

Lemma str_lt_le_trans (a b c : str) : str_lt a b -> str_le b c -> str_lt a c.
Proof.
  unfold str_le, str_lt. intros Hab Hbc.
  destruct (str_compare b c) eqn:E.
  - apply str_compare_eq in E. now subst.
  - now apply str_compare_lt_trans with b.
  - now destruct Hbc.
Qed.

Lemma str_le_trans (a b c : str) : str_le a b -> str_le b c -> str_le a c.
Proof.
  intros Hab Hbc. unfold str_le in Hab |- *.
  destruct (str_compare a b) eqn:E.
  - apply str_compare_eq in E. now subst.
  - assert (H : str_lt a c) by (now apply str_lt_le_trans with b).
    unfold str_lt in H. now rewrite H.
  - now destruct Hab.
Qed.

Lemma str_lt_not_le (a b : str) : str_lt a b <-> ~ str_le b a.
Proof.
  unfold str_lt, str_le. rewrite (str_compare_antisym a b).
  destruct (str_compare a b); cbn; split; intros H; try congruence.
  - exfalso. apply H. discriminate.
  - exfalso. apply H. discriminate.
Qed.

Lemma str_ltb_negb_leb (a b : str) : str_ltb a b = negb (str_leb b a).
Proof.
  unfold str_ltb, str_leb. rewrite (str_compare_antisym a b).
  now destruct (str_compare a b).
Qed.

(** With [a <= b <= c], a row is selected over [[a, c)] when it is
    selected over [[a, b)] or over [[b, c)], and never over both. *)
Lemma tx_selected_split (uid : Z) (ty : tx_type) (a b c : str) (t : tx_row) :
  str_le a b -> str_le b c ->
  tx_selected uid ty a c t
  = tx_selected uid ty a b t || tx_selected uid ty b c t
  /\ tx_selected uid ty a b t && tx_selected uid ty b c t = false.
Proof.
  intros Hab Hbc. unfold tx_selected.
  destruct ((t_user_id t =? uid) && tx_type_eqb (t_type t) ty); cbn [andb];
    [|split; reflexivity].
  rewrite (str_ltb_negb_leb (t_ts t) b).
  destruct (str_leb b (t_ts t)) eqn:Hbt; cbn [negb].
  - apply str_leb_le in Hbt.
    assert (Hat : str_leb a (t_ts t) = true).
    { apply str_leb_le. now apply str_le_trans with b. }
    rewrite Hat. destruct (str_ltb (t_ts t) c); split; reflexivity.
  - assert (Htb : str_lt (t_ts t) b).
    { apply str_lt_not_le. intros H. apply str_leb_le in H. congruence. }
    assert (Htc : str_ltb (t_ts t) c = true).
    { apply str_ltb_lt. now apply str_lt_le_trans with b. }
    rewrite Htc. destruct (str_leb a (t_ts t)); split; reflexivity.
Qed.

Lemma total_filter_split (p q r : tx_row -> bool) (l : list tx_row) :
  (forall t, In t l -> p t = q t || r t /\ q t && r t = false) ->
  total (filter p l) = total (filter q l) + total (filter r l).
Proof.
  induction l as [|t l IH]; intros H; [reflexivity|].
  cbn [filter]. destruct (H t (or_introl eq_refl)) as [Hp Hqr].
  assert (IH' : total (filter p l) = total (filter q l) + total (filter r l)).
  { apply IH. intros t' Ht'. apply H. now right. }
  rewrite Hp. destruct (q t), (r t); try discriminate Hqr;
    cbn [orb]; rewrite ?total_cons; lia.
Qed.

Lemma total_filter_le (p q : tx_row -> bool) (l : list tx_row) :
  Forall (fun t => 0 <= t_amount t) l ->
  (forall t, In t l -> p t = true -> q t = true) ->
  total (filter p l) <= total (filter q l).
Proof.
  induction 1 as [|t l Ht Hl IH]; intros Hpq; [cbn; lia|].
  assert (IH' : total (filter p l) <= total (filter q l)).
  { apply IH. intros t' Ht'. apply Hpq. now right. }
  pose proof (total_filter_nonneg q l Hl).
  cbn [filter]. destruct (p t) eqn:Hp.
  - rewrite (Hpq t (or_introl eq_refl) Hp), !total_cons. lia.
  - destruct (q t); rewrite ?total_cons; lia.
Qed.

Lemma total_selected_le (db : database) (uid : Z) (ty : tx_type) (a b a' b' : str) :
  Forall (fun t => 0 <= t_amount t) (transactions db) ->
  str_le a' a -> str_le b b' ->
  0 <= total (filter (tx_selected uid ty a b) (transactions db))
    <= total (filter (tx_selected uid ty a' b') (transactions db)).
Proof.
  intros Hpos Ha Hb. split.
  - apply total_filter_nonneg. exact Hpos.
  - apply total_filter_le; [exact Hpos|].
    intros t _. rewrite !tx_selected_iff. unfold in_query.
    intros (Hu & Hty & Hs & He). repeat split; try assumption.
    + now apply str_le_trans with a.
    + now apply str_lt_le_trans with b.
Qed.

(** X8: [sum_tx] adds up over adjacent ranges.  On a ledger SQLite can
    hold, for bounds [a <= b <= c] in the order of the stored strings,
    the three sums are returned, and the sum over [[a, c)] is the sum
    over [[a, b)] plus the sum over [[b, c)]: a row at the common bound
    [b] is counted once, in the second range.  A range whose end is not
    after its start gives 0. *)
Theorem X8_sum_tx_adjacent (db : database) (uid : Z) (ty : tx_type) (a b c : str) :
  ledger_fits db -> str_le a b -> str_le b c ->
  exists x y,
    sum_tx db uid ty a b = Ok x /\ sum_tx db uid ty b c = Ok y
    /\ sum_tx db uid ty a c = Ok (x + y)
    /\ sum_tx db uid ty b a = Ok 0.
Proof.
  intros Hfits Hab Hbc. rewrite !(sum_tx_fits db) by exact Hfits.
  exists (total (filter (tx_selected uid ty a b) (transactions db))),
         (total (filter (tx_selected uid ty b c) (transactions db))).
  split; [reflexivity|]. split; [reflexivity|]. split; f_equal.
  - apply total_filter_split. intros t _. now apply tx_selected_split.
  - apply total_none_selected. intros t _. unfold tx_selected.
    destruct (str_leb b (t_ts t)) eqn:Hbt; [|now rewrite andb_false_r].
    rewrite str_ltb_negb_leb.
    assert (Hat : str_leb a (t_ts t) = true).
    { apply str_leb_le. apply str_le_trans with b; [exact Hab | now apply str_leb_le]. }
    rewrite Hat. apply andb_false_r.
Qed.

(** X9: on a ledger SQLite can hold, whose amounts are not negative,
    [sum_tx] returns a sum that is never negative, and a range that
    contains another gives a sum that is not smaller. *)
Theorem X9_sum_tx_monotone (db : database) (uid : Z) (ty : tx_type)
    (a b a' b' : str) :
  ledger_fits db -> str_le a' a -> str_le b b' ->
  exists x y,
    sum_tx db uid ty a b = Ok x /\ sum_tx db uid ty a' b' = Ok y /\ 0 <= x <= y.
Proof.
  intros Hfits Ha Hb. rewrite !(sum_tx_fits db) by exact Hfits.
  exists (total (filter (tx_selected uid ty a b) (transactions db))),
         (total (filter (tx_selected uid ty a' b') (transactions db))).
  split; [reflexivity|]. split; [reflexivity|].
  destruct Hfits as [Hpos _]. now apply total_selected_le.
Qed.

Lemma db_alice_income_fits : ledger_fits db_alice_income.
Proof.
  split.
  - repeat constructor. cbn. lia.
  - vm_compute. discriminate.
Qed.

Lemma X8_sum_tx_adjacent_witness :
  exists x y,
    sum_tx db_alice_income 1 IN (lit "2024-12-01T00:00:00+08:00")
           (lit "2024-12-31T00:00:00+08:00") = Ok x
    /\ sum_tx db_alice_income 1 IN (lit "2024-12-31T00:00:00+08:00")
              (lit "2025-01-01T00:00:00+08:00") = Ok y
    /\ sum_tx db_alice_income 1 IN (lit "2024-12-01T00:00:00+08:00")
              (lit "2025-01-01T00:00:00+08:00") = Ok (x + y).
Proof.
  destruct (X8_sum_tx_adjacent db_alice_income 1 IN (lit "2024-12-01T00:00:00+08:00")
              (lit "2024-12-31T00:00:00+08:00") (lit "2025-01-01T00:00:00+08:00"))
    as (x & y & Hx & Hy & Hxy & _).
  - exact db_alice_income_fits.
  - vm_compute. discriminate.
  - vm_compute. discriminate.
  - exists x, y. now repeat split.
Defined.

Lemma X9_sum_tx_monotone_witness :
  exists x y,
    sum_tx db_alice_income 1 IN (lit "2024-12-31T00:00:00+08:00")
           (lit "2025-01-01T00:00:00+08:00") = Ok x
    /\ sum_tx db_alice_income 1 IN (lit "2024-12-01T00:00:00+08:00")
              (lit "2025-01-01T00:00:00+08:00") = Ok y
    /\ 0 <= x <= y.
Proof.
  apply (X9_sum_tx_monotone db_alice_income 1 IN).
  - exact db_alice_income_fits.
  - vm_compute. discriminate.
  - vm_compute. discriminate.
Defined.

(** ** Reports *)














Lemma str_le_midnight (a b : datetime) :
  valid_datetime a = true -> valid_datetime b = true ->
  at_midnight a -> at_midnight b -> toordinal a <= toordinal b ->
  str_le (isoformat a) (isoformat b).
Proof.
  intros Ha Hb Hma Hmb Hle. apply str_leb_le.
  rewrite (str_leb_isoformat a b Ha Hb), (at_midnight_timestamp a Hma),
    (at_midnight_timestamp b Hmb).
  apply Z.leb_le. unfold DAY_US. lia.
Qed.

(** X13: the day lies within its week and within its month.  For every
    valid instant for which the week and the month ranges answer, the
    range of [today_range] starts at or after, and ends at or before,
    the range of [week_range_monday] and the range of [month_range] of
    the same instant, in the order of the strings [sum_tx] compares;
    so, on a ledger SQLite can hold, the sum of a user and a kind over
    the day never exceeds the same sum over the week or the month. *)
Theorem X13_today_within_week_and_month (db : database) (uid : Z) (ty : tx_type)
    (now : datetime) :
  ledger_fits db -> valid_datetime now = true -> week_dom now -> month_dom now ->
  exists d wk m,
    today_range now = Ok d /\ week_range_monday now = Ok wk /\ month_range now = Ok m
    /\ str_le (fst wk) (fst d) /\ str_le (snd d) (snd wk)
    /\ str_le (fst m) (fst d) /\ str_le (snd d) (snd m)
    /\ exists x y z,
         sum_tx db uid ty (fst d) (snd d) = Ok x
         /\ sum_tx db uid ty (fst wk) (snd wk) = Ok y
         /\ sum_tx db uid ty (fst m) (snd m) = Ok z
         /\ x <= y /\ x <= z.
Proof.
  intros Hledger Hnow Hweek Hmonth. pose proof Hledger as [Hfits _].
  assert (Hday : today_dom now).
  { pose proof (weekday_bounds now). unfold today_dom, week_dom in *. lia. }
  destruct (part_total _ _ today_partition now Hnow Hday) as [bd Hbd].
  destruct (part_total _ _ week_partition now Hnow Hweek) as [bw Hbw].
  destruct (part_total _ _ month_partition now Hnow Hmonth) as [bm Hbm].
  destruct (today_bounds_ok now bd Hnow Hbd) as (Hds & Hdv & Hdm & Hdo).
  destruct (replace_midnight_valid now Hnow) as (Hsv & Hso & Hsm).
  destruct (week_bounds_ok now bw Hnow Hbw) as (Hwv & Hwm & Hwo & _ & Hwv' & Hwm' & Hwo').
  destruct (month_bounds_ok now bm Hnow Hbm) as (Hms & Hmv & Hmm & _ & Hmo).
  destruct (replace_first_midnight_valid now Hnow) as (Hfv & Hfo & Hfm).
  pose proof (weekday_bounds now) as Hwd.
  pose proof (toordinal_month_start now) as Hord.
  apply valid_datetime_spec in Hnow as [(_ & _ & Hdim) _].
  rewrite <- Hds in Hsv, Hso, Hsm. rewrite <- Hms in Hfv, Hfo, Hfm.
  assert (H1 : str_le (isoformat (fst bw)) (isoformat (fst bd)))
    by (apply str_le_midnight; try assumption; lia).
  assert (H2 : str_le (isoformat (snd bd)) (isoformat (snd bw)))
    by (apply str_le_midnight; try assumption; lia).
  assert (H3 : str_le (isoformat (fst bm)) (isoformat (fst bd)))
    by (apply str_le_midnight; try assumption; lia).
  assert (H4 : str_le (isoformat (snd bd)) (isoformat (snd bm)))
    by (apply str_le_midnight; try assumption; lia).
  exists (iso_pair bd), (iso_pair bw), (iso_pair bm).
  unfold today_range, week_range_monday, month_range. rewrite Hbd, Hbw, Hbm.
  cbn [bind iso_pair fst snd].
  do 7 (split; [first [reflexivity | assumption]|]).
  rewrite !(sum_tx_fits db) by exact Hledger.
  do 3 eexists. do 3 (split; [reflexivity|]).
  split; now apply total_selected_le.
Qed.





Lemma X13_today_within_week_and_month_witness :
  exists d wk m,
    today_range sample_now = Ok d /\ week_range_monday sample_now = Ok wk
    /\ month_range sample_now = Ok m
    /\ str_le (fst wk) (fst d) /\ str_le (snd d) (snd wk)
    /\ str_le (fst m) (fst d) /\ str_le (snd d) (snd m)
    /\ exists x y z,
         sum_tx db_alice_income 1 IN (fst d) (snd d) = Ok x
         /\ sum_tx db_alice_income 1 IN (fst wk) (snd wk) = Ok y
         /\ sum_tx db_alice_income 1 IN (fst m) (snd m) = Ok z
         /\ x <= y /\ x <= z.
Proof.
  apply (X13_today_within_week_and_month db_alice_income 1 IN sample_now).
  - exact db_alice_income_fits.
  - reflexivity.
  - vm_compute. discriminate.
  - left. vm_compute. reflexivity.
Defined.

(** ** Errors inside a dialogue *)

Section DialogueErrors.
Context {U : UnicodeData} {B : Bcrypt}.

Lemma int_digits_no_value (s : str) :
  Exists (fun c => Py_UNICODE_TODECIMAL c = None) s ->
  forall acc, int_digits acc s = Raise ValueError.
Proof.
  induction 1 as [c s Hc | c s _ IH]; intros acc; cbn [int_digits].
  - now rewrite Hc.
  - destruct (Py_UNICODE_TODECIMAL c); [apply IH | reflexivity].
Qed.

Lemma int_of_str_no_value (s : str) :
  Exists (fun c => Py_UNICODE_TODECIMAL c = None) s ->
  int_of_str s = Raise ValueError.
Proof.
  intros H. destruct s as [|c s]; [reflexivity|].
  unfold int_of_str. now apply int_digits_no_value.
Qed.

(** X14: an amount that passes [isdigit] but holds a digit without a
    decimal value (a superscript two, say) makes [int] raise
    [ValueError] in the amount step of both money dialogues: nothing is
    sent and nothing is stored.  In the dialogue, the message gets no
    answer and the session stays at the amount step. *)
Theorem X14_amount_digit_without_value (e : env) (text : str) (w : world) :
  let db := w_db w in
  let ud := s_user_data (w_session w) in
  isdigit (amount_text text) = true ->
  Exists (fun c => Py_UNICODE_TODECIMAL c = None) (amount_text text) ->
  in_amount e text db ud = mkout db ud [] (Raise ValueError)
  /\ out_amount e text db ud = mkout db ud [] (Raise ValueError)
  /\ (st_reg (w_session w) = None -> st_login (w_session w) = None ->
      st_in (w_session w) = Some IN_AMOUNT ->
      process_update e (Text text) w = (w, [])).
Proof.
  cbv zeta. intros Hd Hno. pose proof (int_of_str_no_value _ Hno) as Hint.
  assert (Hin : in_amount e text (w_db w) (s_user_data (w_session w))
                = mkout (w_db w) (s_user_data (w_session w)) [] (Raise ValueError)).
  { unfold in_amount. now rewrite Hd, Hint. }
  split; [exact Hin|]. split.
  - unfold out_amount. now rewrite Hd, Hint.
  - intros Hr Hl Hi. rewrite (route_in_amount e text w Hr Hl Hi).
    unfold conv_step. cbn [message_text]. rewrite Hin. simpl_world.
    destruct w as [db [r l i o ud]]. cbn in *. now subst.
Qed.

(** X15: a name taken in the meantime.  When the registration waits
    for the password and the name it keeps has been registered since
    (by another user), a password of six characters or more, and of no
    more bytes than [bcrypt] takes, makes [create_user] raise
    [IntegrityError]: the callback sends nothing
    and changes nothing, and the dialogue stays at the password step,
    where every further password has the same effect. *)
Theorem X15_registration_name_taken (e : env) (text : str) (w : world)
    (name : str) (u : user_row) :
  let db := w_db w in
  let ud := s_user_data (w_session w) in
  st_reg (w_session w) = Some REG_PASSWORD ->
  ud_reg_username ud = Some name -> find_user db name = Some u ->
  (6 <= List.length (strip text))%nat ->
  (List.length (encode (strip text)) <= BCRYPT_MAX_BYTES)%nat ->
  reg_password e text db ud = mkout db ud [] (Raise IntegrityError)
  /\ process_update e (Text text) w = (w, []).
Proof.
  cbv zeta. intros Hst Hn Hf Hlen Hbytes.
  assert (Hcb : reg_password e text (w_db w) (s_user_data (w_session w))
                = mkout (w_db w) (s_user_data (w_session w)) [] (Raise IntegrityError)).
  { unfold reg_password.
    assert (Hl : len_lt (strip text) 6 = false).
    { unfold len_lt. apply Nat.ltb_ge. exact Hlen. }
    now rewrite Hl, Hn, (create_user_taken _ _ _ _ _ _ Hf Hbytes). }
  split; [exact Hcb|].
  rewrite (route_reg_password e text w Hst). unfold conv_step. cbn [message_text].
  rewrite Hcb. simpl_world.
  destruct w as [db [r l i o ud]]. cbn in *. now subst.
Qed.

End DialogueErrors.

Lemma X14_amount_digit_without_value_witness :
  process_update (U := ref_unicode) (B := ref_bcrypt) sample_env
    (Text [53%N; 0xB2%N])
    (mkworld db_alice (mksession None None (Some IN_AMOUNT) None ud_alice))
  = (mkworld db_alice (mksession None None (Some IN_AMOUNT) None ud_alice), []).
Proof.
  apply (X14_amount_digit_without_value (U := ref_unicode) (B := ref_bcrypt) sample_env
           [53%N; 0xB2%N]
           (mkworld db_alice (mksession None None (Some IN_AMOUNT) None ud_alice))).
  - reflexivity.
  - apply Exists_cons_tl. apply Exists_cons_hd. reflexivity.
  - reflexivity.
  - reflexivity.
  - reflexivity.
Defined.

Lemma X15_registration_name_taken_witness :
  let b := run_polling (U := ref_unicode) (B := ref_bcrypt) trace_race (main None) in
  process_update (U := ref_unicode) (B := ref_bcrypt) sample_env (Text (lit "secret1"))
                 (mkworld (b_db b) (b_sessions b 1))
  = (mkworld (b_db b) (b_sessions b 1), []).
Proof.
  cbv zeta.
  assert (H6 : (6 <= List.length (strip (lit "secret1")))%nat) by (vm_compute; lia).
  assert (H72 : (List.length (encode (strip (lit "secret1"))) <= BCRYPT_MAX_BYTES)%nat)
    by (vm_compute; lia).
  refine (proj2 (X15_registration_name_taken (U := ref_unicode) (B := ref_bcrypt)
                   sample_env (lit "secret1") _ (lit "alice")
                   (mkuser 1 (lit "alice")
                      (bcrypt_hash (Bcrypt := ref_bcrypt) (encode (lit "secret2")) [Byte.x24])
                      (isoformat sample_now))
                   _ _ _ H6 H72)); reflexivity.
Defined.

(** ** [rupiah] on every integer *)

Lemma replace_char_app (a b : char) (s t : str) :
  replace_char a b (s ++ t) = replace_char a b s ++ replace_char a b t.
Proof. unfold replace_char. apply map_app. Qed.

Lemma rupiah_negative (n : Z) :
  n < 0 -> rupiah n = lit "Rp.-" ++ skipn 3 (rupiah (- n)).
Proof.
  intros Hn. unfold rupiah, format_comma.
  assert (H1 : (n <? 0) = true) by (apply Z.ltb_lt; lia).
  assert (H2 : (- n <? 0) = false) by (apply Z.ltb_ge; lia).
  rewrite H1, H2, Z.abs_opp. rewrite replace_char_app. reflexivity.
Qed.

(** What follows [Rp.] for an amount that is not negative does not
    start with a minus sign. *)
Lemma rupiah_body_leads (n : Z) (body : str) :
  0 <= n -> rupiah n = lit "Rp." ++ body -> hd 0%N body <> 45%N.
Proof.
  intros Hn Hbody.
  destruct (rupiah_read_back (U := ref_unicode) n Hn) as (body' & Heq & _ & Hint).
  rewrite Heq in Hbody. apply app_inv_head in Hbody. subst body'.
  destruct body as [|c body]; [discriminate|]. cbn [hd]. intros ->.
  discriminate Hint.
Qed.

Lemma rupiah_inj (a b : Z) : rupiah a = rupiah b -> a = b.
Proof.
  assert (Hpos : forall x y, 0 <= x -> 0 <= y -> rupiah x = rupiah y -> x = y).
  { intros x y Hx Hy Heq.
    destruct (rupiah_read_back (U := ref_unicode) x Hx) as (bx & Hbx & _ & Hix).
    destruct (rupiah_read_back (U := ref_unicode) y Hy) as (by_ & Hby & _ & Hiy).
    rewrite Hbx, Hby in Heq. apply app_inv_head in Heq. subst by_.
    rewrite Hix in Hiy. now injection Hiy. }
  assert (Hmixed : forall x y, 0 <= x -> y < 0 -> rupiah x <> rupiah y).
  { intros x y Hx Hy Heq. rewrite (rupiah_negative y Hy) in Heq.
    apply (rupiah_body_leads x (lit "-" ++ skipn 3 (rupiah (- y))) Hx); [|reflexivity].
    exact Heq. }
  intros Heq.
  destruct (Z.lt_ge_cases a 0) as [Ha|Ha], (Z.lt_ge_cases b 0) as [Hb|Hb].
  - rewrite (rupiah_negative a Ha), (rupiah_negative b Hb) in Heq.
    apply app_inv_head in Heq.
    assert (H : rupiah (- a) = rupiah (- b)).
    { destruct (rupiah_read_back (U := ref_unicode) (- a) ltac:(lia)) as (ba & Hba & _).
      destruct (rupiah_read_back (U := ref_unicode) (- b) ltac:(lia)) as (bb & Hbb & _).
      rewrite Hba, Hbb in Heq |- *. cbn in Heq. now rewrite Heq. }
    apply Hpos in H; lia.
  - exfalso. apply (Hmixed b a Hb Ha). now symmetry.
  - exfalso. now apply (Hmixed a b Ha Hb).
  - now apply Hpos.
Qed.

(** X16: [rupiah] on every integer, as the balance of the month may be
    negative.  Two different amounts are never written the same; a
    negative amount is written as [Rp.-] followed by what follows [Rp.]
    for its absolute value, so -1500 gives [Rp.-1.500]. *)
Theorem X16_rupiah_injective :
  (forall a b, rupiah a = rupiah b <-> a = b)
  /\ (forall n, n < 0 -> rupiah n = lit "Rp.-" ++ skipn 3 (rupiah (- n)))
  /\ rupiah (-1500) = lit "Rp.-1.500".
Proof.
  split; [|split].
  - intros a b. split; [apply rupiah_inj | now intros ->].
  - exact rupiah_negative.
  - reflexivity.
Qed.

(** ** What the store and the sessions keep *)

Lemma lstrip_idem (s : str) : lstrip (lstrip s) = lstrip s.
Proof.
  induction s as [|c s IH]; [reflexivity|]. cbn [lstrip].
  destruct (isspace c) eqn:Hc; [exact IH|]. cbn [lstrip]. now rewrite Hc.
Qed.

Lemma lstrip_snoc (s : str) (c : char) :
  isspace c = false -> lstrip (s ++ [c]) = lstrip s ++ [c].
Proof.
  intros Hc. induction s as [|x s IH]; cbn [lstrip app].
  - now rewrite Hc.
  - destruct (isspace x); [exact IH | reflexivity].
Qed.

Lemma lstrip_head (s : str) :
  lstrip s = [] \/ exists c t, lstrip s = c :: t /\ isspace c = false.
Proof.
  induction s as [|c s IH]; [now left|]. cbn [lstrip].
  destruct (isspace c) eqn:Hc; [exact IH|]. right. now exists c, s.
Qed.

(** A trimmed text has nothing left to trim. *)
Lemma strip_idem (s : str) : strip (strip s) = strip s.
Proof.
  unfold strip, rstrip.
  destruct (lstrip_head s) as [-> | (c & t & -> & Hc)]; [reflexivity|].
  cbn [rev]. rewrite (lstrip_snoc (rev t) c Hc), rev_app_distr. cbn [rev app].
  cbn [lstrip]. rewrite Hc. cbn [rev].
  rewrite (lstrip_snoc _ c Hc), rev_app_distr. cbn [rev app]. f_equal.
  now rewrite rev_involutive, lstrip_idem.
Qed.

Lemma numbered_snoc (ids : list Z) :
  numbered ids -> numbered (ids ++ [Z.of_nat (List.length ids) + 1]).
Proof.
  intros H k id Hk. destruct (Nat.lt_ge_cases k (List.length ids)) as [Hlt|Hge].
  - rewrite nth_error_app1 in Hk by exact Hlt. now apply H.
  - rewrite nth_error_app2 in Hk by exact Hge.
    destruct (k - List.length ids)%nat as [|m] eqn:Hm.
    + cbn in Hk. injection Hk as <-. assert (k = List.length ids) by lia. now subst.
    + cbn in Hk. now destruct m.
Qed.

Lemma find_user_none_names (db : database) (username : str) :
  find_user db username = None -> ~ In username (map u_username (users db)).
Proof.
  intros Hnone Hin. apply in_map_iff in Hin as (u & Hname & Hu).
  now apply (proj1 (find_user_none db username) Hnone u Hu).
Qed.

Lemma NoDup_snoc {A : Type} (l : list A) (x : A) :
  NoDup l -> ~ In x l -> NoDup (l ++ [x]).
Proof.
  intros Hl Hx. apply NoDup_app; [exact Hl | apply NoDup_cons; [easy | constructor] |].
  intros y Hy [<-|[]]. now apply Hx.
Qed.

Lemma find_user_stored (db : database) (u : user_row) :
  NoDup (map u_username (users db)) -> In u (users db) ->
  find_user db (u_username u) = Some u.
Proof.
  unfold find_user. induction (users db) as [|r l IH]; cbn; [easy|].
  intros Hnd [->|Hin].
  - now rewrite str_eqb_refl.
  - apply NoDup_cons_iff in Hnd as [Hr Hl].
    destruct (str_eqb (u_username r) (u_username u)) eqn:E; [|now apply IH].
    apply str_eqb_eq in E. exfalso. apply Hr. rewrite E. now apply in_map.
Qed.

Lemma grows_refl (db : database) : grows db db.
Proof. split; exists []; now rewrite app_nil_r. Qed.

Lemma find_user_grows (db db' : database) (username : str) (u : user_row) :
  grows db db' -> find_user db username = Some u -> find_user db' username = Some u.
Proof.
  intros [[us Hu] _] Hf. unfold find_user in *. rewrite Hu. now apply find_app_old.
Qed.

Lemma login_ok_grows (db db' : database) (ud : user_data) :
  grows db db' -> login_ok db ud -> login_ok db' ud.
Proof.
  intros Hg. unfold login_ok.
  destruct (ud_user_id ud), (ud_username ud); try easy.
  intros (u & Hf & Hid). exists u. split; [|exact Hid].
  now apply find_user_grows with db.
Qed.

Lemma session_ok_grows (db db' : database) (s : session) :
  grows db db' -> session_ok db s -> session_ok db' s.
Proof.
  intros Hg [H1 H2 H3 H4]. constructor; try assumption.
  now apply login_ok_grows with db.
Qed.

Lemma session_ok_intro (db : database) (r l i o : option Z) (ud : user_data) :
  own_state CReg r = true -> own_state CLogin l = true ->
  own_state CIn i = true -> own_state COut o = true ->
  login_ok db ud ->
  (forall n, ud_reg_username ud = Some n -> (3 <= List.length n)%nat /\ strip n = n) ->
  0 <= pending_amount ud ->
  session_ok db (mksession r l i o ud).
Proof.
  intros Hr Hl Hi Ho Hlog Hname Ham. constructor; cbn; try assumption.
  intros j. now destruct j.
Qed.

Lemma session_ok_elim (db : database) (r l i o : option Z) (ud : user_data) :
  session_ok db (mksession r l i o ud) ->
  own_state CReg r = true /\ own_state CLogin l = true
  /\ own_state CIn i = true /\ own_state COut o = true
  /\ login_ok db ud
  /\ (forall n, ud_reg_username ud = Some n -> (3 <= List.length n)%nat /\ strip n = n)
  /\ 0 <= pending_amount ud.
Proof.
  intros [H1 H2 H3 H4]. cbn in *.
  split; [apply (H1 CReg)|]. split; [apply (H1 CLogin)|].
  split; [apply (H1 CIn)|]. split; [apply (H1 COut)|].
  split; [exact H2|]. split; [exact H3 | exact H4].
Qed.

Lemma empty_session_kept (db : database) : session_ok db empty_session.
Proof. apply session_ok_intro; try reflexivity; easy. Qed.

Lemma empty_db_ok : store_ok empty_db.
Proof.
  constructor; cbn; try constructor; try reflexivity.
  - intros k id Hk. now destruct k.
  - intros k id Hk. now destruct k.
Qed.

Lemma create_user_ok {B : Bcrypt} (salt : bytes) (now : datetime) (db db' : database)
    (username password : str) :
  store_ok db -> (3 <= List.length username)%nat -> strip username = username ->
  create_user salt now db username password = Ok db' ->
  store_ok db' /\ grows db db'.
Proof.
  intros [H1 H2 H3 H4 H5 H6 H7 H8] Hlen Htrim Hcreate.
  destruct (create_user_inserted _ _ _ _ _ _ Hcreate) as (Hfree & _ & ->).
  split.
  - constructor; cbn [users users_seq transactions transactions_seq]; try assumption.
    + rewrite length_app. cbn. lia.
    + rewrite map_app. cbn [map u_id]. rewrite H1.
      replace (List.length (users db)) with (List.length (map u_id (users db)))
        by apply length_map.
      now apply numbered_snoc.
    + rewrite map_app. cbn [map u_username]. apply NoDup_snoc; [exact H3|].
      now apply find_user_none_names.
    + apply Forall_app. split; [exact H4|]. constructor; [|constructor].
      now split.
    + eapply Forall_impl; [|exact H8]. intros t Ht. cbn beta in *.
      rewrite map_app. apply in_or_app. now left.
  - split; cbn; [eexists; reflexivity | exists []; now rewrite app_nil_r].
Qed.

Lemma with_tx_ok (db : database) (now : datetime) (uid : Z) (ty : tx_type)
    (amount : Z) (note : option str) :
  store_ok db -> 0 <= amount -> In uid (map u_id (users db)) ->
  store_ok (with_tx db now uid ty amount note)
  /\ grows db (with_tx db now uid ty amount note).
Proof.
  intros [H1 H2 H3 H4 H5 H6 H7 H8] Ham Hin. unfold with_tx. split.
  - constructor; cbn [users users_seq transactions transactions_seq]; try assumption.
    + rewrite length_app. cbn. lia.
    + rewrite map_app. cbn [map t_id]. rewrite H5.
      replace (List.length (transactions db))
        with (List.length (map t_id (transactions db))) by apply length_map.
      now apply numbered_snoc.
    + apply Forall_app. split; [exact H7|]. now repeat constructor.
    + apply Forall_app. split; [exact H8|]. now repeat constructor.
  - split; cbn; [exists []; now rewrite app_nil_r | eexists; reflexivity].
Qed.

Lemma login_ok_id (db : database) (ud : user_data) (uid : Z) :
  login_ok db ud -> ud_user_id ud = Some uid -> In uid (map u_id (users db)).
Proof.
  unfold login_ok. intros H Huid. rewrite Huid in H.
  destruct (ud_username ud); [|easy]. destruct H as (u & Hf & <-).
  apply in_map. now apply find_user_some in Hf.
Qed.

Section Invariants.
Context {U : UnicodeData} {B : Bcrypt}.

Lemma add_tx_change (e : env) (w : world) (uid : Z) (ty : tx_type) (amount : Z)
    (note : option str) (db' : database) :
  ud_user_id (s_user_data (w_session w)) = Some uid ->
  add_tx (env_now e) (w_db w) uid ty amount note = Ok db' ->
  store_change e w db'.
Proof.
  intros Huid Hadd. destruct (add_tx_inserted _ _ _ _ _ _ _ Hadd) as [Ham ->].
  now apply tx_added.
Qed.

Lemma process_update_change (e : env) (u : update) (w : world) :
  store_change e w (w_db (fst (process_update e u w))).
Proof.
  apply process_update_cases; cbv zeta; unfold conv_step, plain_step;
    cbn [fst w_db];
    try (intros; apply store_kept).
  - (* reg_username *) intros _. unfold reg_username.
    destruct (len_lt _ 3); [apply store_kept|].
    destruct (find_user _ _); apply store_kept.
  - (* reg_password *) intros Hst. unfold reg_password.
    destruct (len_lt _ 6); [apply store_kept|].
    destruct (ud_reg_username _) as [name|] eqn:Hn; [|apply store_kept].
    destruct (create_user _ _ _ name _) as [db'|ex] eqn:Hc; [|apply store_kept].
    destruct (create_user_inserted _ _ _ _ _ _ Hc) as (Hfree & Hbytes & ->).
    cbn [o_db]. now apply user_added.
  - (* login_password *) intros _. unfold login_password.
    destruct (verify_user _ _ _) as [[|]|ex]; try apply store_kept.
    destruct (find_user _ _); apply store_kept.
  - (* in_start *) intros _. unfold in_start. destruct (negb _); apply store_kept.
  - (* in_amount *) intros _. unfold in_amount.
    destruct (negb _); [apply store_kept|]. destruct (int_of_str _); apply store_kept.
  - (* in_note *) intros _. unfold in_note. cbn [ud_user_id set_tmp_amount].
    destruct (ud_user_id _) as [uid|] eqn:Huid; [|apply store_kept].
    destruct (add_tx _ _ _ _ _ _) as [db'|] eqn:Hadd; [|apply store_kept].
    cbn [o_db]. exact (add_tx_change e w uid _ _ _ db' Huid Hadd).
  - (* out_start *) intros _. unfold out_start. destruct (negb _); apply store_kept.
  - (* out_amount *) intros _. unfold out_amount.
    destruct (negb _); [apply store_kept|]. destruct (int_of_str _); apply store_kept.
  - (* out_note *) intros _. unfold out_note. cbn [ud_user_id set_tmp_amount].
    destruct (ud_user_id _) as [uid|] eqn:Huid; [|apply store_kept].
    destruct (add_tx _ _ _ _ _ _) as [db'|] eqn:Hadd; [|apply store_kept].
    cbn [o_db]. exact (add_tx_change e w uid _ _ _ db' Huid Hadd).
  - (* menu_router *) unfold menu_router.
    destruct (str_eqb _ btn_in_today).
    { unfold report_in_today. destruct (ud_user_id _); [|apply store_kept].
      destruct (today_range _) as [[s t]|]; [|apply store_kept].
      destruct (sum_tx _ _ _ _ _); apply store_kept. }
    destruct (str_eqb _ btn_out_week).
    { unfold report_out_week. destruct (ud_user_id _); [|apply store_kept].
      destruct (week_range_monday _) as [[s t]|]; [|apply store_kept].
      destruct (sum_tx _ _ _ _ _); apply store_kept. }
    destruct (str_eqb _ btn_month).
    { unfold report_month. destruct (ud_user_id _); [|apply store_kept].
      destruct (month_range _) as [[s t]|]; [|apply store_kept].
      destruct (sum_tx _ _ IN _ _); [|apply store_kept].
      destruct (sum_tx _ _ OUT _ _); apply store_kept. }
    destruct (str_eqb _ btn_logout); apply store_kept.
Qed.

Lemma store_change_grows (e : env) (w : world) (db' : database) :
  store_change e w db' -> grows (w_db w) db'.
Proof.
  intros [| name password _ _ _ _ | uid ty amount note _ _].
  - apply grows_refl.
  - split; cbn; [eexists; reflexivity | exists []; now rewrite app_nil_r].
  - split; cbn; [exists []; now rewrite app_nil_r | eexists; reflexivity].
Qed.

(** X17: the store is only ever appended to.  Whatever the update and
    the session, the update leaves the store as it was, or adds the one
    account that a registration at its password step was waiting to
    create, for a name that was free and with the hash of a password
    that [bcrypt] takes, or adds one transaction of the account the
    sender is logged in to, with an amount that is not negative and
    that the column takes, and the stamp of the clock.  No row is
    removed or changed: the rows there were are the first rows
    afterwards, and a name that had an account has the same account
    afterwards, for which [verify_user] answers every password as
    before. *)
Theorem X17_store_append_only (e : env) (u : update) (w : world) :
  let db' := w_db (fst (process_update e u w)) in
  store_change e w db'
  /\ grows (w_db w) db'
  /\ (forall name row, find_user (w_db w) name = Some row ->
                       find_user db' name = Some row
                       /\ forall password,
                            verify_user db' name password
                            = verify_user (w_db w) name password).
Proof.
  cbv zeta. pose proof (process_update_change e u w) as Hc.
  pose proof (store_change_grows _ _ _ Hc) as Hg.
  split; [exact Hc|]. split; [exact Hg|].
  intros name row Hrow. pose proof (find_user_grows _ _ _ _ Hg Hrow) as Hrow'.
  split; [exact Hrow'|]. intros password. unfold verify_user. now rewrite Hrow, Hrow'.
Qed.

(** X20: nobody changes the sums of an account without being logged in
    to it.  Whatever the update and the session of its sender, what
    [sum_tx] answers for every account other than the one the sender is
    logged in to, of either kind and over every range, is after the
    update what it was before. *)
Theorem X20_ledger_isolation (e : env) (u : update) (w : world)
    (uid : Z) (ty : tx_type) (start_ end_ : str) :
  ud_user_id (s_user_data (w_session w)) <> Some uid ->
  sum_tx (w_db (fst (process_update e u w))) uid ty start_ end_
  = sum_tx (w_db w) uid ty start_ end_.
Proof.
  intros Hother.
  destruct (process_update_change e u w)
    as [| name password _ _ _ _ | uid' ty' amount note Huid Ham].
  - reflexivity.
  - reflexivity.
  - unfold sum_tx, with_tx. cbn [transactions]. rewrite filter_app. cbn [filter].
    assert (Hne : (uid' =? uid) = false).
    { apply Z.eqb_neq. intros ->. now apply Hother. }
    unfold tx_selected at 2. cbn [t_user_id]. rewrite Hne. cbn [andb].
    now rewrite app_nil_r.
Qed.

(** Closes the goals left when a callback kept the store. *)
Ltac same_store :=
  split; [assumption | split; [| apply grows_refl]];
  apply session_ok_intro; cbn; try assumption; try reflexivity; try discriminate;
  try easy.

Lemma process_update_step (e : env) (u : update) (w : world) :
  store_ok (w_db w) -> session_ok (w_db w) (w_session w) ->
  step_ok w (process_update e u w).
Proof.
  destruct w as [db [r l i o ud]]. cbn [w_db w_session]. intros Hdb Hs.
  destruct (session_ok_elim _ _ _ _ _ _ Hs)
    as (Hr & Hl & Hi & Ho & Hlog & Hname & Ham).
  apply process_update_cases; cbv zeta; cbn [w_session st_reg st_login st_in st_out];
    unfold step_ok, conv_step, plain_step;
    cbn [w_db w_session s_user_data get_state fst].
  - (* not handled *) split; [assumption | split; [assumption | apply grows_refl]].
  - (* start *) unfold start. simpl_world. same_store.
  - (* register_cmd *) intros ->. unfold register_cmd. simpl_world. same_store.
  - (* reg_username *) intros ->. unfold reg_username.
    destruct (len_lt (strip (message_text u)) 3) eqn:Hlen; simpl_world; [same_store|].
    destruct (find_user db (strip (message_text u))); simpl_world; [same_store|].
    apply len_lt_false in Hlen. same_store.
    intros n [= <-]. split; [exact Hlen | apply strip_idem].
  - (* reg_password *) intros ->. unfold reg_password.
    destruct (len_lt (strip (message_text u)) 6); simpl_world; [same_store|].
    destruct (ud_reg_username ud) as [name|] eqn:Hn; rewrite <- Hn in Hname;
      simpl_world; [|same_store].
    destruct (create_user _ _ db name _) as [db'|ex] eqn:Hc; simpl_world; [|same_store].
    destruct (Hname name Hn) as [Hlen Htrim].
    destruct (create_user_ok _ _ _ _ _ _ Hdb Hlen Htrim Hc) as [Hdb' Hg].
    split; [exact Hdb' | split; [|exact Hg]].
    apply session_ok_intro; cbn; try assumption; try reflexivity; try discriminate.
    now apply login_ok_grows with db.
  - (* cancel, registration *) intros _. unfold cancel. simpl_world. same_store.
  - (* login_cmd *) intros ->. unfold login_cmd. simpl_world. same_store.
  - (* login_username *) intros ->. unfold login_username. simpl_world. same_store.
  - (* login_password *) intros ->. unfold login_password.
    destruct (verify_user db _ _) as [[|]|ex]; simpl_world; [|same_store..].
    destruct (find_user db _) as [row|] eqn:Hf; simpl_world; [|same_store].
    same_store. unfold login_ok. cbn. now exists row.
  - (* cancel, login *) intros -> _. unfold cancel. simpl_world. same_store.
  - (* in_start *) intros ->. unfold in_start.
    destruct (negb (is_logged_in ud)); simpl_world; same_store.
  - (* in_amount *) intros ->. unfold in_amount.
    destruct (negb (isdigit _)); simpl_world; [same_store|].
    destruct (int_of_str _) as [n|ex] eqn:Hint; simpl_world; [|same_store].
    apply int_of_str_nonneg in Hint. same_store.
  - (* in_note *) intros ->. unfold in_note. cbn [ud_user_id set_tmp_amount].
    destruct (ud_user_id ud) as [uid|] eqn:Huid; simpl_world; [|same_store].
    fold (pending_amount ud).
    destruct (add_tx _ db uid IN _ _) as [db'|ex] eqn:Hadd; simpl_world; [|same_store].
    destruct (add_tx_inserted _ _ _ _ _ _ _ Hadd) as [_ ->].
    destruct (with_tx_ok db (env_now e) uid IN (pending_amount ud)
                (note_of (message_text u)) Hdb Ham (login_ok_id _ _ _ Hlog Huid))
      as [Hdb' Hg].
    split; [exact Hdb' | split; [|exact Hg]].
    apply session_ok_intro; cbn; try assumption; try reflexivity; try discriminate;
      try easy.
  - (* cancel, money in *) intros -> -> _. unfold cancel. simpl_world. same_store.
  - (* out_start *) intros ->. unfold out_start.
    destruct (negb (is_logged_in ud)); simpl_world; same_store.
  - (* out_amount *) intros ->. unfold out_amount.
    destruct (negb (isdigit _)); simpl_world; [same_store|].
    destruct (int_of_str _) as [n|ex] eqn:Hint; simpl_world; [|same_store].
    apply int_of_str_nonneg in Hint. same_store.
  - (* out_note *) intros ->. unfold out_note. cbn [ud_user_id set_tmp_amount].
    destruct (ud_user_id ud) as [uid|] eqn:Huid; simpl_world; [|same_store].
    fold (pending_amount ud).
    destruct (add_tx _ db uid OUT _ _) as [db'|ex] eqn:Hadd; simpl_world; [|same_store].
    destruct (add_tx_inserted _ _ _ _ _ _ _ Hadd) as [_ ->].
    destruct (with_tx_ok db (env_now e) uid OUT (pending_amount ud)
                (note_of (message_text u)) Hdb Ham (login_ok_id _ _ _ Hlog Huid))
      as [Hdb' Hg].
    split; [exact Hdb' | split; [|exact Hg]].
    apply session_ok_intro; cbn; try assumption; try reflexivity; try discriminate;
      try easy.
  - (* cancel, money out *) intros -> -> -> _. unfold cancel. simpl_world. same_store.
  - (* menu_router *) unfold menu_router.
    destruct (str_eqb _ btn_in_today).
    { unfold report_in_today. destruct (ud_user_id ud); simpl_world; [|same_store].
      destruct (today_range _) as [[s t]|]; simpl_world; [|same_store].
      destruct (sum_tx db _ IN s t); simpl_world; same_store. }
    destruct (str_eqb _ btn_out_week).
    { unfold report_out_week. destruct (ud_user_id ud); simpl_world; [|same_store].
      destruct (week_range_monday _) as [[s t]|]; simpl_world; [|same_store].
      destruct (sum_tx db _ OUT s t); simpl_world; same_store. }
    destruct (str_eqb _ btn_month).
    { unfold report_month. destruct (ud_user_id ud); simpl_world; [|same_store].
      destruct (month_range _) as [[s t]|]; simpl_world; [|same_store].
      destruct (sum_tx db _ IN s t); simpl_world; [|same_store].
      destruct (sum_tx db _ OUT s t); simpl_world; same_store. }
    destruct (str_eqb _ btn_logout); [unfold logout_cmd|]; simpl_world; same_store.
  - (* logout_cmd *) unfold logout_cmd. simpl_world. same_store.
Qed.

Lemma bot_update_ok (e : env) (user : Z) (u : update) (b : bot) :
  store_ok (b_db b) -> (forall k, session_ok (b_db b) (b_sessions b k)) ->
  store_ok (b_db (fst (bot_update e user u b)))
  /\ forall k, session_ok (b_db (fst (bot_update e user u b)))
                          (b_sessions (fst (bot_update e user u b)) k).
Proof.
  intros Hdb Hs. unfold bot_update. cbn [fst b_db b_sessions].
  destruct (process_update_step e u (mkworld (b_db b) (b_sessions b user)) Hdb (Hs user))
    as (Hdb' & Hs' & Hg).
  cbn [w_db] in Hg. split; [exact Hdb'|].
  intros k. destruct (k =? user); [exact Hs'|].
  apply session_ok_grows with (b_db b); [exact Hg | apply Hs].
Qed.

Lemma bot_reachable_ok (b : bot) :
  bot_reachable b ->
  store_ok (b_db b) /\ forall k, session_ok (b_db b) (b_sessions b k).
Proof.
  induction 1 as [| e user u b _ [Hdb Hs] | b _ [Hdb Hs]].
  - split; [apply empty_db_ok | intros k; apply empty_session_kept].
  - now apply bot_update_ok.
  - split; [exact Hdb | intros k; apply empty_session_kept].
Qed.

Lemma run_polling_reachable (l : list (env * Z * update)) :
  forall b, bot_reachable b -> bot_reachable (run_polling l b).
Proof.
  induction l as [|[[e user] u] l IH]; intros b Hb; cbn [run_polling]; [exact Hb|].
  apply IH. now apply bot_updated.
Qed.

(** X18: the store of the running bot, whatever its users did and
    however often it was restarted.  The keys of both tables are 1, 2,
    3, ... in the order of insertion, and each counter is the number of
    rows; no two accounts have the same name; every name has three
    characters or more and no blank at either end, so that the name as
    the login trims it finds the account; no amount is negative; and
    every transaction belongs to an account of the store, though the
    engine is not asked to check the foreign key. *)
Theorem X18_store_integrity (b : bot) :
  bot_reachable b ->
  store_ok (b_db b)
  /\ forall u, In u (users (b_db b)) ->
       find_user (b_db b) (strip (u_username u)) = Some u.
Proof.
  intros Hb. destruct (bot_reachable_ok b Hb) as [Hdb _]. split; [exact Hdb|].
  intros u Hu. destruct Hdb as [_ _ Hnd Hnamed _ _ _ _].
  rewrite Forall_forall in Hnamed. destruct (Hnamed u Hu) as [_ ->].
  now apply find_user_stored.
Qed.

(** X19: the session of every user of the running bot.  Each dialogue
    is idle or at one of its own states; [user_id] and [username] are
    present together, and then are the key and the name of one account
    of the store; a pending amount is not negative; and a name kept by
    a registration has three characters or more and is trimmed, so
    that [create_user] stores names of that form only. *)
Theorem X19_session_integrity (b : bot) (user : Z) :
  bot_reachable b ->
  let s := b_sessions b user in
  session_ok (b_db b) s
  /\ (is_logged_in (s_user_data s) = true ->
      exists id name u,
        ud_user_id (s_user_data s) = Some id
        /\ ud_username (s_user_data s) = Some name
        /\ find_user (b_db b) name = Some u /\ u_id u = id).
Proof.
  intros Hb. cbv zeta. destruct (bot_reachable_ok b Hb) as [_ Hs].
  split; [apply Hs|].
  destruct (Hs user) as [_ Hlog _ _]. unfold login_ok, is_logged_in in *.
  destruct (ud_user_id _) as [id|]; [|discriminate].
  destruct (ud_username _) as [name|]; [|contradiction].
  destruct Hlog as (u & Hf & Hid). intros _. now exists id, name, u.
Qed.

End Invariants.

Lemma X18_store_integrity_witness :
  let b := run_polling (U := ref_unicode) (B := ref_bcrypt) trace_ledger (main None) in
  map t_user_id (transactions (b_db b)) = [1]
  /\ store_ok (b_db b).
Proof.
  cbv zeta. split; [reflexivity|].
  apply (X18_store_integrity (U := ref_unicode) (B := ref_bcrypt)).
  apply run_polling_reachable. apply bot_started.
Defined.

Lemma X19_session_integrity_witness :
  let b := run_polling (U := ref_unicode) (B := ref_bcrypt) trace_ledger (main None) in
  ud_user_id (s_user_data (b_sessions b 7)) = Some 1
  /\ session_ok (b_db b) (b_sessions b 7).
Proof.
  cbv zeta. split; [reflexivity|].
  apply (X19_session_integrity (U := ref_unicode) (B := ref_bcrypt)).
  apply run_polling_reachable. apply bot_started.
Defined.

Lemma X20_ledger_isolation_witness :
  sum_tx (w_db (fst (process_update (U := ref_unicode) (B := ref_bcrypt) sample_env
                       (Text (lit "lunch")) world_alice_note)))
         2 IN [] (lit "9")
  = sum_tx db_alice 2 IN [] (lit "9").
Proof.
  apply (X20_ledger_isolation (U := ref_unicode) (B := ref_bcrypt) sample_env
           (Text (lit "lunch")) world_alice_note 2 IN [] (lit "9")).
  discriminate.
Defined.
